(** * GNNBackbone: policy and dispatch engine of [src/models/gnn/backbone.py]

    A shallow embedding of the edge-attribute normaliser
    [_edge_weight_from_attr] and of the class [GNNBackbone]
    ([__init__], [_make_conv], [_build_layers], [_prepare_inputs],
    [forward]), followed by the properties established about them.

    Conventions of the embedding.
    - Tensor entries are exact rationals ([Q]): the arithmetic of the
      normaliser is the real-number arithmetic that the floating-point code
      approximates.  Tensors are floating-point valued, of rank 0, 1 or 2.
    - [self] is an explicit record; a method is a computation in a small
      state-and-exception monad whose state outlives a raised exception, as
      attribute assignments do in Python.
    - Calls of [warnings.warn], layer construction and layer invocation are
      recorded, in order, in an event log.
    - The convolution operators, the activation, dropout, [torch.cat],
      [global_mean_pool] and [nn.Linear] belong to torch / torch_geometric;
      they are an interface ([TorchLib]) with a shape contract
      ([TorchLibShapes]). *)

From Stdlib Require Import String Ascii List Bool Arith Lia.
From Stdlib Require Import QArith Qminmax Lqa.
Import ListNotations.

Local Close Scope Q_scope.
Local Open Scope string_scope.
Local Open Scope list_scope.
Local Open Scope nat_scope.

(** [==] on Python strings. *)
Infix "==?" := String.eqb (at level 70, no associativity).

(* ------------------------------------------------------------------ *)
(** ** Python values *)

(** Exceptions raised by the code, by class; the message is paraphrased. *)
Inductive exn : Type :=
| ValueError (msg : string)
| RuntimeError (msg : string)
| IndexError (msg : string)
| AttributeError (msg : string).

Inductive result (A : Type) : Type :=
| Ok (a : A)
| Raise (e : exn).
Arguments Ok {A} a.
Arguments Raise {A} e.

Definition is_ok {A} (r : result A) : bool :=
  match r with Ok _ => true | Raise _ => false end.

(** [str.lower] on ASCII letters. *)
Definition lower_ascii (c : ascii) : ascii :=
  let n := nat_of_ascii c in
  if (65 <=? n) && (n <=? 90) then ascii_of_nat (n + 32) else c.

Fixpoint lower (s : string) : string :=
  match s with
  | EmptyString => EmptyString
  | String c s' => String (lower_ascii c) (lower s')
  end.

(* ------------------------------------------------------------------ *)
(** ** Tensors *)

(** A tensor of rank 0, of shape [[E]], or of shape [[E, D]] (row major;
    [D] is kept explicitly so that [[0, D]] has a width). *)
Inductive Tensor : Type :=
| Scalar (v : Q)
| Vec (v : list Q)
| Mat (ncols : nat) (rows : list (list Q)).

(** [t.dim()] *)
Definition dim (t : Tensor) : nat :=
  match t with Scalar _ => 0 | Vec _ => 1 | Mat _ _ => 2 end.

(** [t.shape] *)
Definition shape (t : Tensor) : list nat :=
  match t with
  | Scalar _ => []
  | Vec v => [List.length v]
  | Mat d rows => [List.length rows; d]
  end.

(** [t.size(-1)]; a rank-0 tensor has no dimension to index. *)
Definition size_last (t : Tensor) : result nat :=
  match t with
  | Scalar _ => Raise (IndexError "size(-1): tensor has no dimensions")
  | Vec v => Ok (List.length v)
  | Mat d _ => Ok d
  end.

(** [t.size(0)] *)
Definition size_first (t : Tensor) : result nat :=
  match t with
  | Scalar _ => Raise (IndexError "size(0): tensor has no dimensions")
  | Vec v => Ok (List.length v)
  | Mat _ rows => Ok (List.length rows)
  end.

(** [torch.zeros(E, D)] *)
Definition zeros (E D : nat) : Tensor := Mat D (repeat (repeat 0%Q D) E).

(* ------------------------------------------------------------------ *)
(** ** The edge feature normaliser, [_edge_weight_from_attr] (lines 14-44) *)

Definition eps : Q := 1 # 100000000.

Definition Qsum (r : list Q) : Q := fold_right Qplus 0%Q r.

(** [row.mean()] over a row of the given width. *)
Definition Qmean (d : nat) (r : list Q) : Q :=
  (Qsum r / inject_Z (Z.of_nat d))%Q.

(** [m.min()] and [m.max()] of a non-empty vector. *)
Definition Qlist_min (a : Q) (l : list Q) : Q := fold_left Qmin l a.
Definition Qlist_max (a : Q) (l : list Q) : Q := fold_left Qmax l a.

(** [a > b] *)
Definition Qgtb (a b : Q) : bool := negb (Qle_bool a b).

(** [torch.clamp(w, min=0.0)] *)
Definition clamp0 (w : list Q) : list Q := map (Qmax 0%Q) w.

(** The branch of mode ["auto"]: rows are averaged, min-max normalised and
    flipped; [min()] of an empty tensor raises.  The arithmetic is exact:
    what is stated of the values is to be read operation by operation, for
    entries small enough that no floating-point operation overflows. *)
Definition auto_weights (m : list Q) : result (list Q) :=
  match m with
  | [] => Raise (RuntimeError "min(): expected a non-empty tensor")
  | a :: l =>
      let m_min := Qlist_min a l in
      let m_max := Qlist_max a l in
      if Qgtb (m_max - m_min)%Q eps then
        let m_norm := map (fun v => (v - m_min) / (m_max - m_min + eps))%Q m in
        Ok (map (fun n => 1 - n)%Q m_norm)
      else Ok (map (fun _ => 1%Q) m)
  end.

(** [edge_attr[:, 0]]; column 0 of a zero-width matrix is out of range. *)
Definition column0 (d : nat) (rows : list (list Q)) : result (list Q) :=
  match d with
  | O => Raise (IndexError "index 0 is out of bounds for dimension 1 with size 0")
  | S _ => Ok (map (fun r => nth 0 r 0%Q) rows)
  end.

(** The normaliser on a floating-point tensor with finite entries.  On an
    integer tensor [mean] raises, and a zero denominator gives an infinite
    weight where the exact quotient is 0: what is stated of the values
    leaves these cases out, and the cases in which the function raises are
    stated with the dtype made explicit. *)
Definition _edge_weight_from_attr (edge_attr : Tensor) (mode : string)
  : result Tensor :=
  let finish (w : result (list Q)) :=
    match w with
    | Ok w => Ok (Vec (clamp0 w))
    | Raise e => Raise e
    end in
  match edge_attr with
  | Vec v => finish (Ok v)
  | Scalar _ => Raise (IndexError "size(-1): tensor has no dimensions")
  | Mat d rows =>
      if d =? 1 then finish (Ok (map (fun r => nth 0 r 0%Q) rows))
      else if mode ==? "first_inv" then
        match column0 d rows with
        | Ok col0 => finish (Ok (map (fun c => 1 / (c + eps))%Q col0))
        | Raise e => Raise e
        end
      else if mode ==? "mean_inv" then
        finish (Ok (map (fun r => 1 / (Qmean d r + eps))%Q rows))
      else finish (auto_weights (map (Qmean d) rows))
  end.

(* ------------------------------------------------------------------ *)
(** ** Graph batches *)

(** [edge_index], of shape [[2, E]]: one (source, target) pair per edge. *)
Definition EdgeIndex : Type := list (nat * nat).

(** A [torch_geometric.data.Batch]; an attribute that [getattr] finds absent
    (or [None]) is [None]. *)
Module Batch.
Record t : Type := mk {
  x : Tensor;
  edge_index : EdgeIndex;
  edge_attr : option Tensor;
  edge_weight : option Tensor;
  edge_v : option Tensor;
  batch : option (list nat)
}.
End Batch.

(* ------------------------------------------------------------------ *)
(** ** Layers, the instance, and the world it lives in *)

Inductive ConvClass : Type :=
| GCNConv | GATConv | GATv2Conv | SAGEConv | GINConv | GINEConv.

(** A constructed convolution layer.  [conv_id] is the identity of the
    Python object (and of its parameters): two constructions never share it. *)
Record ConvLayer : Type := mkConv {
  conv_id : nat;
  conv_class : ConvClass;
  conv_in : nat;
  conv_out : nat;
  conv_edge_dim : option nat
}.

(** An [nn.Linear] object. *)
Record Linear : Type := mkLinear {
  lin_id : nat;
  in_features : nat;
  out_features : nat
}.

Record GNNBackbone : Type := mkBackbone {
  conv_type : string;
  hidden_dims : list nat;
  out_dim : nat;
  dropout_p : Q;
  residue_logits : bool;
  gcn_edge_mode : string;
  gine_missing_edge_policy : string;
  _built : bool;
  _edge_dim : option nat;
  _warned_edge_ignored : bool;
  _warned_edge_v_ignored : bool;
  (** [self.convs] and [self.readout] do not exist before the first build. *)
  convs : option (list ConvLayer);
  readout : option Linear
}.

(** What a layer is handed besides [h] and [edge_index]. *)
Inductive EdgeArg : Type :=
| NoEdgeArg
| EdgeWeightArg (edge_weight : option Tensor)
| EdgeAttrArg (edge_attr : option Tensor).

(** The calls of [warnings.warn]. *)
Inductive Notice : Type :=
| DimsDeprecated
| EdgeVIgnored
| GcnEdgeWeightFailed
| EdgeAttrIgnored (ct_upper : string).

Inductive Event : Type :=
| Warn (n : Notice)
| MakeConv (layer : ConvLayer)
| MakeReadout (lin : Linear)
| ConvCall (layer : ConvLayer) (h : Tensor) (edge_index : EdgeIndex) (arg : EdgeArg).

(** The instance, the allocator of object identities, and the events so
    far (oldest first). *)
Record World : Type := mkWorld {
  self : GNNBackbone;
  next_id : nat;
  log : list Event
}.

(** *** The monad of methods *)

Definition M (A : Type) : Type := World -> World * result A.

Definition ret {A} (a : A) : M A := fun w => (w, Ok a).

Definition bind {A B} (c : M A) (k : A -> M B) : M B :=
  fun w =>
    match c w with
    | (w', Ok a) => k a w'
    | (w', Raise e) => (w', Raise e)
    end.

Notation "x <- c ;; k" := (bind c (fun x => k))
  (at level 61, c at next level, right associativity).
Notation "c ;;; k" := (bind c (fun _ => k))
  (at level 61, right associativity).

Definition raise {A} (e : exn) : M A := fun w => (w, Raise e).

Definition lift {A} (r : result A) : M A := fun w => (w, r).

Definition get_self : M GNNBackbone := fun w => (w, Ok (self w)).

Definition set_self (f : GNNBackbone -> GNNBackbone) : M unit :=
  fun w => (mkWorld (f (self w)) (next_id w) (log w), Ok tt).

Definition emit (e : Event) : M unit :=
  fun w => (mkWorld (self w) (next_id w) (log w ++ [e]), Ok tt).

(** [warnings.warn(...)] *)
Definition warn (n : Notice) : M unit := emit (Warn n).

(** A fresh object identity. *)
Definition fresh_id : M nat :=
  fun w => (mkWorld (self w) (S (next_id w)) (log w), Ok (next_id w)).

Definition when (b : bool) (c : M unit) : M unit := if b then c else ret tt.

(** Attribute assignments. *)
Definition set_warned_edge_ignored (b : bool) (s : GNNBackbone) : GNNBackbone :=
  mkBackbone (conv_type s) (hidden_dims s) (out_dim s) (dropout_p s)
    (residue_logits s) (gcn_edge_mode s) (gine_missing_edge_policy s)
    (_built s) (_edge_dim s) b (_warned_edge_v_ignored s) (convs s) (readout s).

Definition set_warned_edge_v_ignored (b : bool) (s : GNNBackbone) : GNNBackbone :=
  mkBackbone (conv_type s) (hidden_dims s) (out_dim s) (dropout_p s)
    (residue_logits s) (gcn_edge_mode s) (gine_missing_edge_policy s)
    (_built s) (_edge_dim s) (_warned_edge_ignored s) b (convs s) (readout s).

(** The assignments that end [_build_layers]. *)
Definition set_built (layers : list ConvLayer) (lin : Linear)
    (edge_dim : option nat) (s : GNNBackbone) : GNNBackbone :=
  mkBackbone (conv_type s) (hidden_dims s) (out_dim s) (dropout_p s)
    (residue_logits s) (gcn_edge_mode s) (gine_missing_edge_policy s)
    true edge_dim (_warned_edge_ignored s) (_warned_edge_v_ignored s)
    (Some layers) (Some lin).

(* ------------------------------------------------------------------ *)
(** ** [GNNBackbone.__init__] (lines 63-98) *)

(** [**legacy_kwargs]: keyword names with their values ([None] is Python's
    [None]). *)
Definition kwargs : Type := list (string * option (list nat)).

Fixpoint kw_get (k : string) (kw : kwargs) : option (option (list nat)) :=
  match kw with
  | [] => None
  | (k', v) :: kw' => if k ==? k' then Some v else kw_get k kw'
  end.

(** The value of [hidden_dims] after the compatibility shim for [dims=],
    with the deprecation warning if the shim was used. *)
Definition resolve_hidden_dims (hidden_dims : option (list nat))
    (legacy_kwargs : kwargs) : list Notice * option (list nat) :=
  match hidden_dims, kw_get "dims" legacy_kwargs with
  | None, Some v => ([DimsDeprecated], v)
  | _, _ => ([], hidden_dims)
  end.

Definition __init__ (conv_type : string) (hidden_dims : option (list nat))
    (out_dim : nat) (dropout : Q) (residue_logits : bool)
    (gcn_edge_mode gine_missing_edge_policy : string)
    (legacy_kwargs : kwargs) : list Notice * result GNNBackbone :=
  let ct := lower conv_type in
  let '(notices, hidden_dims) := resolve_hidden_dims hidden_dims legacy_kwargs in
  match hidden_dims with
  | None => (notices, Raise (ValueError "`hidden_dims` must be given (e.g. [64,64])"))
  | Some hd =>
      (notices,
       Ok (mkBackbone ct hd out_dim dropout residue_logits
             gcn_edge_mode gine_missing_edge_policy
             false None false false None None))
  end.

(** The world right after a successful construction. *)
Definition new_world (notices : list Notice) (s : GNNBackbone) : World :=
  mkWorld s 0 (map Warn notices).

(* ------------------------------------------------------------------ *)
(** ** Layer builders *)

(** [GNNBackbone._make_conv] (lines 101-124) *)
Definition _make_conv (in_dim out_dim : nat) (edge_dim : option nat)
  : M ConvLayer :=
  s <- get_self ;;
  let ct := conv_type s in
  let construct (c : ConvClass) (ed : option nat) : M ConvLayer :=
    i <- fresh_id ;;
    let layer := mkConv i c in_dim out_dim ed in
    emit (MakeConv layer) ;;;
    ret layer in
  if ct ==? "gcn" then construct GCNConv None
  else if ct ==? "gat" then construct GATConv None
  else if ct ==? "gatv2" then construct GATv2Conv None
  else if ct ==? "sage" then construct SAGEConv None
  else if ct ==? "gin" then construct GINConv None
  else if ct ==? "gine" then
    match edge_dim with
    | None => raise (ValueError "GINEConv requires 'edge_dim' at layer build time.")
    | Some d => construct GINEConv (Some d)
    end
  else raise (ValueError ("Unsupported conv_type: " ++ ct)).

(** The loop of [_build_layers]: [layers.append(_make_conv(prev, d, ...))]. *)
Fixpoint make_convs (prev : nat) (dims : list nat) (edge_dim : option nat)
  : M (list ConvLayer) :=
  match dims with
  | [] => ret []
  | d :: dims' =>
      layer <- _make_conv prev d edge_dim ;;
      layers <- make_convs d dims' edge_dim ;;
      ret (layer :: layers)
  end.

(** [GNNBackbone._build_layers] (lines 126-138) *)
Definition _build_layers (in_dim : nat) (edge_dim : option nat) : M unit :=
  s <- get_self ;;
  layers <- make_convs in_dim (hidden_dims s)
              (if conv_type s ==? "gine" then edge_dim else None) ;;
  i <- fresh_id ;;
  let lin := mkLinear i (list_sum (hidden_dims s)) (out_dim s) in
  emit (MakeReadout lin) ;;;
  set_self (set_built layers lin edge_dim).

(* ------------------------------------------------------------------ *)
(** ** Input adaptation, [GNNBackbone._prepare_inputs] (lines 141-198) *)

(** [ct.upper()] on ASCII letters. *)
Definition upper_ascii (c : ascii) : ascii :=
  let n := nat_of_ascii c in
  if (97 <=? n) && (n <=? 122) then ascii_of_nat (n - 32) else c.

Fixpoint upper (s : string) : string :=
  match s with
  | EmptyString => EmptyString
  | String c s' => String (upper_ascii c) (upper s')
  end.

(** [ct in {"gat", "gatv2", "sage", "gin"}] *)
Definition ignores_edges (ct : string) : bool :=
  (ct ==? "gat") || (ct ==? "gatv2") || (ct ==? "sage") || (ct ==? "gin").

Definition is_some {A} (o : option A) : bool :=
  match o with Some _ => true | None => false end.

(** The adapted inputs: [x, edge_index, edge_attr, edge_weight, batch]. *)
Record Inputs : Type := mkInputs {
  in_x : Tensor;
  in_edge_index : EdgeIndex;
  in_edge_attr : option Tensor;
  in_edge_weight : option Tensor;
  in_batch : list nat
}.

Definition _prepare_inputs (data : Batch.t) : M Inputs :=
  let x := Batch.x data in
  let edge_index := Batch.edge_index data in
  let edge_attr := Batch.edge_attr data in
  let edge_weight := Batch.edge_weight data in
  let edge_v := Batch.edge_v data in
  s <- get_self ;;
  when (is_some edge_v && negb (_warned_edge_v_ignored s))
    (warn EdgeVIgnored ;;; set_self (set_warned_edge_v_ignored true)) ;;;
  s <- get_self ;;
  let ct := conv_type s in
  edge_weight <-
    (if ct ==? "gcn" then
       match edge_weight, edge_attr with
       | None, Some ea =>
           match _edge_weight_from_attr ea (gcn_edge_mode s) with
           | Ok ew => ret (Some ew)
           | Raise _ =>
               s <- get_self ;;
               when (negb (_warned_edge_ignored s))
                 (warn GcnEdgeWeightFailed ;;;
                  set_self (set_warned_edge_ignored true)) ;;;
               ret None
           end
       | _, _ => ret edge_weight
       end
     else ret edge_weight) ;;
  edge_attr <-
    (if ignores_edges ct then
       s <- get_self ;;
       when (is_some edge_attr && negb (_warned_edge_ignored s))
         (warn (EdgeAttrIgnored (upper ct)) ;;;
          set_self (set_warned_edge_ignored true)) ;;;
       ret None
     else ret edge_attr) ;;
  s <- get_self ;;
  when ((ct ==? "gine") && negb (is_some edge_attr)
        && negb (gine_missing_edge_policy s ==? "zeros"))
    (raise (ValueError "GINE needs edge_attr, or gine_missing_edge_policy='zeros'")) ;;;
  batch <-
    match Batch.batch data with
    | None => n <- lift (size_first x) ;; ret (repeat 0 n)
    | Some b => ret b
    end ;;
  ret (mkInputs x edge_index edge_attr edge_weight batch).

(* ------------------------------------------------------------------ *)
(** ** The torch / torch_geometric collaborators *)

(** Layer evaluation and tensor operations of the libraries.  They are
    functions of their arguments (dropout as in evaluation mode, or under a
    fixed mask). *)
Class TorchLib : Type := {
  (** [conv(h, edge_index, ...)] *)
  conv_forward : ConvLayer -> Tensor -> EdgeIndex -> EdgeArg -> Tensor;
  (** [nn.ReLU()] *)
  act : Tensor -> Tensor;
  (** [nn.Dropout(p)] *)
  dropout : Q -> Tensor -> Tensor;
  (** [torch.cat(outs, dim=-1)] of a non-empty list *)
  cat_last : Tensor -> list Tensor -> Tensor;
  (** [global_mean_pool(h, batch)] and the number of graphs it finds *)
  global_mean_pool : Tensor -> list nat -> Tensor;
  num_graphs : list nat -> nat;
  (** [readout(h)] *)
  linear_forward : Linear -> Tensor -> Tensor
}.

(** The last-axis width of a rank-2 tensor (0 otherwise). *)
Definition width (t : Tensor) : nat :=
  match t with Mat d _ => d | _ => 0 end.

(** The shape contract of the collaborators. *)
Class TorchLibShapes (L : TorchLib) : Prop := {
  conv_shape : forall l h ei a N,
    shape h = [N; conv_in l] -> shape (conv_forward l h ei a) = [N; conv_out l];
  act_shape : forall t, shape (act t) = shape t;
  dropout_shape : forall p t, shape (dropout p t) = shape t;
  cat_shape : forall t ts N,
    Forall (fun u => exists d, shape u = [N; d]) (t :: ts) ->
    shape (cat_last t ts) = [N; list_sum (map width (t :: ts))];
  pool_shape : forall h b N W,
    shape h = [N; W] -> shape (global_mean_pool h b) = [num_graphs b; W];
  linear_shape : forall lin t N,
    shape t = [N; in_features lin] ->
    shape (linear_forward lin t) = [N; out_features lin]
}.

(* ------------------------------------------------------------------ *)
(** ** [GNNBackbone.forward] (lines 201-246) *)

Section Forward.
Context {L : TorchLib}.

(** The argument each layer class is called with. *)
Definition edge_arg_for (c : ConvClass)
    (edge_attr edge_weight : option Tensor) : EdgeArg :=
  match c with
  | GCNConv => EdgeWeightArg edge_weight
  | GINEConv => EdgeAttrArg edge_attr
  | _ => NoEdgeArg
  end.

(** The loop [for conv in self.convs], returning [outs].  Layer evaluation
    is the function [conv_forward]: a layer of the libraries raises on
    arguments of a shape it was not built for, so that a statement that a
    call returns, or that the later layers run, is made for arguments that
    fit. *)
Fixpoint run_convs (p : Q) (layers : list ConvLayer) (h : Tensor)
    (edge_index : EdgeIndex) (edge_attr edge_weight : option Tensor)
  : M (list Tensor) :=
  match layers with
  | [] => ret []
  | conv :: layers' =>
      let arg := edge_arg_for (conv_class conv) edge_attr edge_weight in
      emit (ConvCall conv h edge_index arg) ;;;
      let h := conv_forward conv h edge_index arg in
      let h := act h in
      let h := dropout p h in
      outs <- run_convs p layers' h edge_index edge_attr edge_weight ;;
      ret (h :: outs)
  end.

(** [self._edge_dim or 1] *)
Definition edge_dim_or_1 (d : option nat) : nat :=
  match d with
  | Some (S n) => S n
  | _ => 1
  end.

(** The lazy build at the head of [forward] (lines 205-216). *)
Definition ensure_built (x : Tensor) (edge_attr : option Tensor) : M unit :=
  s <- get_self ;;
  if negb (_built s) then
    in_dim <- lift (size_last x) ;;
    edge_dim <-
      (if conv_type s ==? "gine" then
         match edge_attr with
         | Some ea =>
             if dim ea =? 2 then d <- lift (size_last ea) ;; ret (Some d)
             else ret (Some 1)
         | None =>
             if gine_missing_edge_policy s ==? "zeros" then ret (Some 1)
             else raise (RuntimeError "GINE: cannot infer edge_dim")
         end
       else ret None) ;;
    _build_layers in_dim edge_dim
  else ret tt.

(** The zero placeholder of GINE, the layer loop and the readout
    (lines 219-246). *)
Definition run_stack (inputs : Inputs) : M Tensor :=
  let x := in_x inputs in
  let edge_index := in_edge_index inputs in
  let edge_attr := in_edge_attr inputs in
  let edge_weight := in_edge_weight inputs in
  let batch := in_batch inputs in
  s <- get_self ;;
  let edge_attr :=
    if (conv_type s ==? "gine") && negb (is_some edge_attr)
       && (gine_missing_edge_policy s ==? "zeros")
    then Some (zeros (List.length edge_index) (edge_dim_or_1 (_edge_dim s)))
    else edge_attr in
  layers <-
    match convs s with
    | Some layers => ret layers
    | None => raise (AttributeError "'GNNBackbone' object has no attribute 'convs'")
    end ;;
  outs <- run_convs (dropout_p s) layers x edge_index edge_attr edge_weight ;;
  match outs with
  | [] => raise (RuntimeError "torch.cat(): expected a non-empty list of Tensors")
  | o :: outs' =>
      let h_cat := cat_last o outs' in
      lin <-
        match readout s with
        | Some lin => ret lin
        | None => raise (AttributeError "'GNNBackbone' object has no attribute 'readout'")
        end ;;
      if residue_logits s then ret (linear_forward lin h_cat)
      else ret (linear_forward lin (global_mean_pool h_cat batch))
  end.

(** The body of [forward] after input adaptation: the lazy build, then
    the layers. *)
Definition compose (inputs : Inputs) : M Tensor :=
  ensure_built (in_x inputs) (in_edge_attr inputs) ;;;
  run_stack inputs.

Definition forward (data : Batch.t) : M Tensor :=
  inputs <- _prepare_inputs data ;;
  compose inputs.

(** A sequence of [forward] calls on one instance; a call that raises
    leaves the instance to the next call, as a caller that catches the
    exception would. *)
Fixpoint forward_all (datas : list Batch.t) (w : World) : World :=
  match datas with
  | [] => w
  | data :: datas' => forward_all datas' (fst (forward data w))
  end.

End Forward.

(* ------------------------------------------------------------------ *)
(** ** A stand-in for the libraries

    Every operation returns the zero tensor of the shape its contract
    promises; it is used to run [forward] on concrete batches. *)

Definition nrows (t : Tensor) : nat :=
  match t with
  | Mat _ rows => List.length rows
  | Vec v => List.length v
  | Scalar _ => 0
  end.

Definition list_max_succ (b : list nat) : nat :=
  match b with [] => 0 | _ => S (list_max b) end.

Definition ZerosLib : TorchLib := {|
  conv_forward l h _ _ := zeros (nrows h) (conv_out l);
  act t := t;
  dropout _ t := t;
  cat_last t ts := zeros (nrows t) (list_sum (map width (t :: ts)));
  global_mean_pool h b := zeros (list_max_succ b) (width h);
  num_graphs := list_max_succ;
  linear_forward lin t := zeros (nrows t) (out_features lin)
|}.

(* ------------------------------------------------------------------ *)
(** ** Vocabulary of the statements *)

(** The operator kinds [_make_conv] knows. *)
Definition recognized (ct : string) : bool :=
  (ct ==? "gcn") || ignores_edges ct || (ct ==? "gine").


(** Counting events of a kind in a log. *)
Definition count_events (p : Event -> bool) (l : list Event) : nat :=
  List.length (filter p l).

(** The notice guarded by [_warned_edge_v_ignored]. *)
Definition is_edge_v_notice (e : Event) : bool :=
  match e with Warn EdgeVIgnored => true | _ => false end.

(** The "edge_attr is ignored" notice of the operators without edge input. *)
Definition is_edge_attr_ignored_notice (e : Event) : bool :=
  match e with Warn (EdgeAttrIgnored _) => true | _ => false end.

(** The "edge_attr -> edge_weight failed" notice of GCN. *)
Definition is_gcn_failed_notice (e : Event) : bool :=
  match e with Warn GcnEdgeWeightFailed => true | _ => false end.

(** The notices guarded by [_warned_edge_ignored]. *)
Definition is_edge_ignored_notice (e : Event) : bool :=
  is_edge_attr_ignored_notice e || is_gcn_failed_notice e.

(** Construction of a layer or of the readout. *)
Definition is_make (e : Event) : bool :=
  match e with MakeConv _ | MakeReadout _ => true | _ => false end.

Definition is_conv_call (e : Event) : bool :=
  match e with ConvCall _ _ _ _ => true | _ => false end.

(** How many more times a one-time notice may be emitted. *)
Definition budget (warned : bool) : nat := if warned then 0 else 1.

(** What never changes after construction. *)
Definition same_config (s s' : GNNBackbone) : Prop :=
  conv_type s' = conv_type s /\
  hidden_dims s' = hidden_dims s /\
  out_dim s' = out_dim s /\
  dropout_p s' = dropout_p s /\
  residue_logits s' = residue_logits s /\
  gcn_edge_mode s' = gcn_edge_mode s /\
  gine_missing_edge_policy s' = gine_missing_edge_policy s.

(** The build state: the flag, the layer stack, the readout and the edge
    width. *)
Definition same_build (s s' : GNNBackbone) : Prop :=
  _built s' = _built s /\
  convs s' = convs s /\
  readout s' = readout s /\
  _edge_dim s' = _edge_dim s.

(** How much of the build state a computation may touch: the builders
    construct layers ([Building]); [forward] builds only an unbuilt instance
    ([Lazy]); input adaptation and the layer loop never build ([Frozen]). *)
Inductive Mode : Type := Building | Lazy | Frozen.

(** The build state and the allocator are untouched and nothing was
    constructed. *)
Definition build_kept (w w' : World) : Prop :=
  same_build (self w) (self w') /\
  next_id w' = next_id w /\
  count_events is_make (log w') = count_events is_make (log w).

(** How the world may change while methods of the instance run. *)
Record evolves_gen (m : Mode) (w w' : World) : Prop := mkEvolves {
  ev_config : same_config (self w) (self w');
  ev_log : exists evs, log w' = log w ++ evs;
  ev_ids : next_id w <= next_id w';
  ev_edge_v_flag :
    _warned_edge_v_ignored (self w) = true ->
    _warned_edge_v_ignored (self w') = true;
  ev_edge_v_count :
    count_events is_edge_v_notice (log w')
      + budget (_warned_edge_v_ignored (self w'))
    <= count_events is_edge_v_notice (log w)
      + budget (_warned_edge_v_ignored (self w));
  ev_edge_flag :
    _warned_edge_ignored (self w) = true ->
    _warned_edge_ignored (self w') = true;
  ev_edge_count :
    count_events is_edge_ignored_notice (log w')
      + budget (_warned_edge_ignored (self w'))
    <= count_events is_edge_ignored_notice (log w)
      + budget (_warned_edge_ignored (self w));
  ev_built : m = Lazy -> _built (self w) = true -> build_kept w w';
  ev_frozen : m = Frozen -> build_kept w w'
}.

Definition evolves : World -> World -> Prop := evolves_gen Lazy.

(** A computation under which the world only evolves. *)
Definition preserves_gen (m : Mode) {A} (c : M A) : Prop :=
  forall w, evolves_gen m w (fst (c w)).

Definition preserves {A} (c : M A) : Prop := preserves_gen Lazy c.

(** The layers of a stack chain their widths along [dims], from [prev]. *)
Fixpoint chained (prev : nat) (dims : list nat) (layers : list ConvLayer)
  : Prop :=
  match dims, layers with
  | [], [] => True
  | d :: dims', l :: layers' =>
      conv_in l = prev /\ conv_out l = d /\ chained d dims' layers'
  | _, _ => False
  end.

(** The graph-assignment vector a batch ends up with: its own, or all
    zeros. *)
Definition batch_of (data : Batch.t) : list nat :=
  match Batch.batch data with
  | Some b => b
  | None => repeat 0 (nrows (Batch.x data))
  end.

(** The notices one call of [_prepare_inputs] may add for [edge_v]. *)
Definition edge_v_notices (s : GNNBackbone) (data : Batch.t) : list Event :=
  if is_some (Batch.edge_v data) && negb (_warned_edge_v_ignored s)
  then [Warn EdgeVIgnored] else [].

(** [self] after the [edge_v] check of [_prepare_inputs]. *)
Definition after_edge_v (s : GNNBackbone) (data : Batch.t) : GNNBackbone :=
  if is_some (Batch.edge_v data) && negb (_warned_edge_v_ignored s)
  then set_warned_edge_v_ignored true s else s.

(** *** Sample data *)

Definition sample_x : Tensor := Mat 3 [[1; 0; 2]; [0; 1; 1]]%Q.
Definition sample_edges : EdgeIndex := [(0, 1); (1, 0)].

(** A batch of two nodes and two edges with the given optional fields. *)
Definition sample_batch (edge_attr edge_v : option Tensor) : Batch.t :=
  Batch.mk sample_x sample_edges edge_attr None edge_v None.

(** A freshly constructed instance of the given kind and policy, with
    hidden widths [[4, 5]] and output width 2. *)
Definition sample_instance (ct policy : string) : GNNBackbone :=
  mkBackbone ct [4; 5] 2 (3 # 10) false "auto" policy
    false None false false None None.

(** *** What the builders and the layer loop produce *)

(** The class and edge width [_make_conv] gives a layer, if it builds one. *)
Definition layer_spec (ct : string) (edge_dim : option nat)
  : option (ConvClass * option nat) :=
  if ct ==? "gcn" then Some (GCNConv, None)
  else if ct ==? "gat" then Some (GATConv, None)
  else if ct ==? "gatv2" then Some (GATv2Conv, None)
  else if ct ==? "sage" then Some (SAGEConv, None)
  else if ct ==? "gin" then Some (GINConv, None)
  else if ct ==? "gine" then
    match edge_dim with
    | Some d => Some (GINEConv, Some d)
    | None => None
    end
  else None.

(** The stack built along [dims] from width [prev], with identities from
    [id0] on. *)
Fixpoint stack_of (c : ConvClass) (ed : option nat) (id0 prev : nat)
    (dims : list nat) : list ConvLayer :=
  match dims with
  | [] => []
  | d :: dims' => mkConv id0 c prev d ed :: stack_of c ed (S id0) d dims'
  end.

Section LayerLoop.
Context {L : TorchLib}.

(** The representation after one layer, activation and dropout. *)
Definition layer_out (p : Q) (conv : ConvLayer) (h : Tensor)
    (edge_index : EdgeIndex) (edge_attr edge_weight : option Tensor)
  : Tensor :=
  dropout p (act (conv_forward conv h edge_index
                    (edge_arg_for (conv_class conv) edge_attr edge_weight))).

(** The list [outs] of the layer loop. *)
Fixpoint conv_outs (p : Q) (layers : list ConvLayer) (h : Tensor)
    (edge_index : EdgeIndex) (edge_attr edge_weight : option Tensor)
  : list Tensor :=
  match layers with
  | [] => []
  | conv :: layers' =>
      let h' := layer_out p conv h edge_index edge_attr edge_weight in
      h' :: conv_outs p layers' h' edge_index edge_attr edge_weight
  end.

(** The layer invocations of the loop, in order. *)
Fixpoint conv_calls (p : Q) (layers : list ConvLayer) (h : Tensor)
    (edge_index : EdgeIndex) (edge_attr edge_weight : option Tensor)
  : list Event :=
  match layers with
  | [] => []
  | conv :: layers' =>
      ConvCall conv h edge_index
        (edge_arg_for (conv_class conv) edge_attr edge_weight)
      :: conv_calls p layers'
           (layer_out p conv h edge_index edge_attr edge_weight)
           edge_index edge_attr edge_weight
  end.

End LayerLoop.

(** The argument a logged layer invocation was given. *)
Definition call_arg (e : Event) : option EdgeArg :=
  match e with ConvCall _ _ _ a => Some a | _ => None end.

(** *** What [forward] computes once the inputs are adapted *)

(** The edge width the lazy build infers (when it can infer one). *)
Definition inferred_edge_dim (s : GNNBackbone) (edge_attr : option Tensor)
  : option nat :=
  if conv_type s ==? "gine" then
    match edge_attr with
    | Some ea => Some (if dim ea =? 2 then width ea else 1)
    | None => Some 1
    end
  else None.

(** The world after a successful lazy build from input width [in_dim]. *)
Definition built_world (w : World) (c : ConvClass) (ed' : option nat)
    (in_dim : nat) (edge_dim : option nat) : World :=
  let s := self w in
  let layers := stack_of c ed' (next_id w) in_dim (hidden_dims s) in
  let lin := mkLinear (next_id w + List.length (hidden_dims s))
               (list_sum (hidden_dims s)) (out_dim s) in
  mkWorld (set_built layers lin edge_dim s)
    (S (next_id w + List.length (hidden_dims s)))
    (log w ++ map MakeConv layers ++ [MakeReadout lin]).

Section ComposeValue.
Context {L : TorchLib}.

(** The edge attribute the layers are handed: the adapted one, or the
    zero placeholder of GINE under the [zeros] policy. *)
Definition effective_edge_attr (s : GNNBackbone) (inputs : Inputs)
  : option Tensor :=
  if (conv_type s ==? "gine") && negb (is_some (in_edge_attr inputs))
     && (gine_missing_edge_policy s ==? "zeros")
  then Some (zeros (List.length (in_edge_index inputs))
               (edge_dim_or_1 (_edge_dim s)))
  else in_edge_attr inputs.

(** The layer invocations of one call on a built instance. *)
Definition calls_of (s : GNNBackbone) (layers : list ConvLayer)
    (inputs : Inputs) : list Event :=
  conv_calls (dropout_p s) layers (in_x inputs) (in_edge_index inputs)
    (effective_edge_attr s inputs) (in_edge_weight inputs).

(** The value of one call on a built instance. *)
Definition compose_value (s : GNNBackbone) (layers : list ConvLayer)
    (lin : Linear) (inputs : Inputs) : result Tensor :=
  match conv_outs (dropout_p s) layers (in_x inputs) (in_edge_index inputs)
          (effective_edge_attr s inputs) (in_edge_weight inputs) with
  | [] => Raise (RuntimeError "torch.cat(): expected a non-empty list of Tensors")
  | o :: outs' =>
      let h_cat := cat_last o outs' in
      if residue_logits s then Ok (linear_forward lin h_cat)
      else Ok (linear_forward lin (global_mean_pool h_cat (in_batch inputs)))
  end.

End ComposeValue.

(** The world after the [edge_v] check of [_prepare_inputs]. *)
Definition after_edge_v_check (w : World) (data : Batch.t) : World :=
  mkWorld (after_edge_v (self w) data) (next_id w)
    (log w ++ edge_v_notices (self w) data).

(** The build state of an instance built for node features of width [F]:
    one layer per hidden width, chained from [F], each of the class and edge
    width of the instance's operator kind, and a readout from the sum of the
    hidden widths to the output width. *)
Definition stack_ok (F : nat) (s : GNNBackbone) : Prop :=
  _built s = true ->
  exists layers lin,
    convs s = Some layers /\
    readout s = Some lin /\
    chained F (hidden_dims s) layers /\
    Forall (fun l => layer_spec (conv_type s) (_edge_dim s)
                     = Some (conv_class l, conv_edge_dim l)) layers /\
    in_features lin = list_sum (hidden_dims s) /\
    out_features lin = out_dim s.

(** A batch without [edge_attr] and one with a one-column [edge_attr]. *)
Definition batch_without_attr : Batch.t := sample_batch None None.
Definition batch_with_attr : Batch.t :=
  sample_batch (Some (Mat 1 [[1]; [2]]%Q)) None.

(** *** Operators that take no edge input *)

(** The world after input adaptation for an operator that ignores
    [edge_attr]: the [edge_v] check, then the one-time "ignored" notice. *)
Definition after_ignored_check (w : World) (data : Batch.t) : World :=
  let w1 := after_edge_v_check w data in
  if is_some (Batch.edge_attr data) && negb (_warned_edge_ignored (self w1))
  then mkWorld (set_warned_edge_ignored true (self w1)) (next_id w1)
         (log w1 ++ [Warn (EdgeAttrIgnored (upper (conv_type (self w1))))])
  else w1.

(** The inputs such an operator is left with. *)
Definition inputs_without_attr (data : Batch.t) : Inputs :=
  mkInputs (Batch.x data) (Batch.edge_index data) None
    (Batch.edge_weight data) (batch_of data).

(** The world once the lazy build has run for node features of width [F]
    (for a kind that needs no edge width). *)
Definition settled (w : World) (F : nat) : World :=
  if _built (self w) then w
  else match layer_spec (conv_type (self w)) None with
       | Some (c, ed') => built_world w c ed' F None
       | None => w
       end.

Definition layers_of (s : GNNBackbone) : list ConvLayer :=
  match convs s with Some layers => layers | None => [] end.

(** The same batch with another [edge_attr] field. *)
Definition with_edge_attr (data : Batch.t) (ea : option Tensor) : Batch.t :=
  Batch.mk (Batch.x data) (Batch.edge_index data) ea
    (Batch.edge_weight data) (Batch.edge_v data) (Batch.batch data).

(** The layer invocations recorded in a log. *)
Definition conv_calls_in (l : list Event) : list Event := filter is_conv_call l.

(** Two worlds that agree on everything [forward] reads after input
    adaptation, and on the layer invocations so far. *)
Definition similar (u u' : World) : Prop :=
  same_config (self u) (self u') /\
  same_build (self u) (self u') /\
  next_id u' = next_id u /\
  conv_calls_in (log u') = conv_calls_in (log u).

(* ------------------------------------------------------------------ *)
(** ** Preconditions of the floating-point and library operations *)




(** *** The normaliser on a tensor of a given dtype *)

(** The dtype of a tensor, as far as the normaliser can tell: floating
    point, or integer. *)
Inductive DType : Type := Floating | Integral.

(** [edge_attr.mean(dim=-1)] (lines 34 and 37); on an integer tensor
    [mean] raises. *)
Definition mean_rows (dt : DType) (d : nat) (rows : list (list Q))
  : result (list Q) :=
  match dt with
  | Floating => Ok (map (Qmean d) rows)
  | Integral =>
      Raise (RuntimeError "mean(): could not infer output dtype")
  end.

(** [_edge_weight_from_attr] (lines 14-44) with the dtype of [edge_attr]
    made explicit.  Indexing, [squeeze], the sum with [eps] (which makes
    the tensor floating point) and the clamp accept both dtypes. *)
Definition _edge_weight_from_attr_typed (dt : DType) (edge_attr : Tensor)
    (mode : string) : result Tensor :=
  let finish (w : result (list Q)) :=
    match w with
    | Ok w => Ok (Vec (clamp0 w))
    | Raise e => Raise e
    end in
  match edge_attr with
  | Vec v => finish (Ok v)
  | Scalar _ => Raise (IndexError "size(-1): tensor has no dimensions")
  | Mat d rows =>
      if d =? 1 then finish (Ok (map (fun r => nth 0 r 0%Q) rows))
      else if mode ==? "first_inv" then
        match column0 d rows with
        | Ok col0 => finish (Ok (map (fun c => 1 / (c + eps))%Q col0))
        | Raise e => Raise e
        end
      else if mode ==? "mean_inv" then
        match mean_rows dt d rows with
        | Ok mean => finish (Ok (map (fun m => 1 / (m + eps))%Q mean))
        | Raise e => Raise e
        end
      else
        match mean_rows dt d rows with
        | Ok m => finish (auto_weights m)
        | Raise e => Raise e
        end
  end.

(* ------------------------------------------------------------------ *)
(** ** Vocabulary of the further properties *)

(** The layer, the node features and the connectivity of a logged layer
    invocation. *)
Definition call_layer (e : Event) : option ConvLayer :=
  match e with ConvCall l _ _ _ => Some l | _ => None end.

Definition call_h (e : Event) : option Tensor :=
  match e with ConvCall _ h _ _ => Some h | _ => None end.

Definition call_edge_index (e : Event) : option EdgeIndex :=
  match e with ConvCall _ _ ei _ => Some ei | _ => None end.

(** *** [_prepare_inputs] read as a function of the instance and the batch *)

(** The weight derivation GCN attempts: only without an explicit
    [edge_weight] and with an [edge_attr]. *)
Definition gcn_derivation (s : GNNBackbone) (data : Batch.t)
  : option (result Tensor) :=
  if conv_type s ==? "gcn" then
    match Batch.edge_weight data, Batch.edge_attr data with
    | None, Some ea => Some (_edge_weight_from_attr ea (gcn_edge_mode s))
    | _, _ => None
    end
  else None.

(** The edge weight the layers are given. *)
Definition adapted_edge_weight (s : GNNBackbone) (data : Batch.t)
  : option Tensor :=
  match gcn_derivation s data with
  | Some (Ok ew) => Some ew
  | Some (Raise _) => None
  | None => Batch.edge_weight data
  end.

(** The edge attribute that survives input adaptation. *)
Definition adapted_edge_attr (s : GNNBackbone) (data : Batch.t)
  : option Tensor :=
  if ignores_edges (conv_type s) then None else Batch.edge_attr data.

(** GINE without [edge_attr] under a policy other than ["zeros"]. *)
Definition gine_missing (s : GNNBackbone) (data : Batch.t) : bool :=
  (conv_type s ==? "gine") && negb (is_some (Batch.edge_attr data))
  && negb (gine_missing_edge_policy s ==? "zeros").

(** The notice guarded by [_warned_edge_ignored] that the batch calls
    for. *)
Definition edge_notice (s : GNNBackbone) (data : Batch.t) : option Notice :=
  match gcn_derivation s data with
  | Some (Raise _) => Some GcnEdgeWeightFailed
  | _ =>
      if ignores_edges (conv_type s) && is_some (Batch.edge_attr data)
      then Some (EdgeAttrIgnored (upper (conv_type s)))
      else None
  end.

(** The world after input adaptation. *)
Definition after_adapt (w : World) (data : Batch.t) : World :=
  let w1 := after_edge_v_check w data in
  match edge_notice (self w) data with
  | Some n =>
      if _warned_edge_ignored (self w1) then w1
      else mkWorld (set_warned_edge_ignored true (self w1)) (next_id w1)
             (log w1 ++ [Warn n])
  | None => w1
  end.

(** What input adaptation returns. *)
Definition adapted_inputs (s : GNNBackbone) (data : Batch.t) : result Inputs :=
  if gine_missing s data then
    Raise (ValueError "GINE needs edge_attr, or gine_missing_edge_policy='zeros'")
  else
    match Batch.batch data with
    | Some b =>
        Ok (mkInputs (Batch.x data) (Batch.edge_index data)
              (adapted_edge_attr s data) (adapted_edge_weight s data) b)
    | None =>
        match size_first (Batch.x data) with
        | Ok n =>
            Ok (mkInputs (Batch.x data) (Batch.edge_index data)
                  (adapted_edge_attr s data) (adapted_edge_weight s data)
                  (repeat 0 n))
        | Raise e => Raise e
        end
    end.

(** The world once the lazy build has run, for node features of width [F]
    and the adapted edge attribute [ea]. *)
Definition settled_for (w : World) (F : nat) (ea : option Tensor) : World :=
  if _built (self w) then w
  else match layer_spec (conv_type (self w))
               (inferred_edge_dim (self w) ea) with
       | Some (c, ed') =>
           built_world w c ed' F (inferred_edge_dim (self w) ea)
       | None => w
       end.

(** The edge argument [forward] hands a layer of an instance of kind [ct]:
    the weight for GCN, the attribute for GINE, nothing otherwise. *)
Definition edge_arg_of_kind (ct : string) (edge_attr edge_weight : option Tensor)
  : EdgeArg :=
  if ct ==? "gcn" then EdgeWeightArg edge_weight
  else if ct ==? "gine" then EdgeAttrArg edge_attr
  else NoEdgeArg.

(** What the GINE layers need of the edge attribute they are handed: rank
    2, and the edge width they were (or are about to be) built with.  With
    an [edge_attr], a built instance must have been built for its width;
    without one (the placeholder of the ["zeros"] policy, of width
    [_edge_dim or 1]), a built instance must have a positive edge width. *)
Definition gine_edge_attr_fits (s : GNNBackbone) (data : Batch.t) : Prop :=
  conv_type s = "gine" ->
  match Batch.edge_attr data with
  | Some ea => dim ea = 2 /\ (_built s = true -> _edge_dim s = Some (width ea))
  | None => _built s = true -> exists n, _edge_dim s = Some (S n)
  end.

(** *** More sample data *)

(** A batch with an explicit [edge_weight] and an [edge_attr] of rank 0. *)
Definition batch_with_weight : Batch.t :=
  Batch.mk sample_x sample_edges (Some (Scalar 1)) (Some (Vec [1; 2]%Q))
    None None.

(** A batch with a two-column [edge_attr]. *)
Definition batch_with_wide_attr : Batch.t :=
  sample_batch (Some (Mat 2 [[1; 3]; [0; 1]]%Q)) None.

(** A freshly constructed instance without hidden widths. *)
Definition instance_without_layers (ct : string) : GNNBackbone :=
  mkBackbone ct [] 2 (3 # 10) false "auto" "error"
    false None false false None None.

(* ================================================================== *)
(** * Properties *)

(* ------------------------------------------------------------------ *)
(** ** The normaliser *)

Section Normaliser.
Local Open Scope Q_scope.











Lemma clamp0_id (w : Q) : 0 <= w -> Qmax 0 w == w.
Proof. intros H. now apply Q.max_r. Qed.

End Normaliser.

Section NormaliserClaims.
Local Open Scope Q_scope.

Lemma clamp0_nth (ws : list Q) (i : nat) (w : Q) :
  nth_error ws i = Some w -> nth_error (clamp0 ws) i = Some (Qmax 0 w).
Proof. intros H. unfold clamp0. now rewrite nth_error_map, H. Qed.

Lemma wide_not_1 (d : nat) : (2 <= d)%nat -> (d =? 1)%nat = false.
Proof. intros H. apply Nat.eqb_neq. lia. Qed.

(** What the normaliser returns in mode [mean_inv], on every input:
    a matrix of width other than 1 is averaged, inverted and clamped; a
    vector or a one-column matrix is only clamped. *)
Lemma mean_inv_result (t : Tensor) :
  _edge_weight_from_attr t "mean_inv" =
  match t with
  | Scalar _ => Raise (IndexError "size(-1): tensor has no dimensions")
  | Vec v => Ok (Vec (clamp0 v))
  | Mat d rows =>
      if (d =? 1)%nat then Ok (Vec (clamp0 (map (fun r => nth 0 r 0) rows)))
      else Ok (Vec (clamp0 (map (fun r => 1 / (Qmean d r + eps)) rows)))
  end.
Proof. destruct t as [v|v|d rows]; reflexivity. Qed.

(** C5 (as amended).  In mode [mean_inv], on a tensor of shape [[E, D]]
    with [D >= 2], the normaliser returns one weight per row; the weight
    of a row [r] is [1/(mean(r)+1e-8)] when [mean(r)+1e-8] is positive and
    [0] (the clamp) when it is negative.  On a tensor of shape [[E, 1]] the
    weight of a row is its single entry, clamped at 0. *)
Theorem mean_inv_weight (d : nat) (rows : list (list Q)) (i : nat) (r : list Q) :
  nth_error rows i = Some r ->
  ((2 <= d)%nat -> 0 < Qmean d r + eps ->
     exists ws w,
       _edge_weight_from_attr (Mat d rows) "mean_inv" = Ok (Vec ws) /\
       List.length ws = List.length rows /\
       nth_error ws i = Some w /\
       w == 1 / (Qmean d r + eps)) /\
  ((2 <= d)%nat -> Qmean d r + eps < 0 ->
     exists ws w,
       _edge_weight_from_attr (Mat d rows) "mean_inv" = Ok (Vec ws) /\
       List.length ws = List.length rows /\
       nth_error ws i = Some w /\
       w == 0) /\
  (d = 1%nat ->
     exists ws w,
       _edge_weight_from_attr (Mat d rows) "mean_inv" = Ok (Vec ws) /\
       List.length ws = List.length rows /\
       nth_error ws i = Some w /\
       w == Qmax 0 (nth 0 r 0)).
Proof.
  intros Hr.
  assert (Hwide : (2 <= d)%nat ->
    exists ws w,
      _edge_weight_from_attr (Mat d rows) "mean_inv" = Ok (Vec ws) /\
      List.length ws = List.length rows /\
      nth_error ws i = Some w /\
      w = Qmax 0 (1 / (Qmean d r + eps))).
  { intros Hd. rewrite mean_inv_result, (wide_not_1 d Hd).
    eexists _, _. split; [reflexivity|].
    split; [unfold clamp0; now rewrite !length_map|].
    split; [apply clamp0_nth; rewrite nth_error_map, Hr; reflexivity|].
    reflexivity. }
  split; [|split].
  - intros Hd Hs. destruct (Hwide Hd) as (ws & w & E & Hl & Hn & ->).
    exists ws, (Qmax 0 (1 / (Qmean d r + eps))). repeat split; try assumption.
    apply clamp0_id. apply Qlt_le_weak.
    unfold Qdiv. rewrite Qmult_1_l. now apply Qinv_lt_0_compat.
  - intros Hd Hs. destruct (Hwide Hd) as (ws & w & E & Hl & Hn & ->).
    exists ws, (Qmax 0 (1 / (Qmean d r + eps))). repeat split; try assumption.
    apply Q.max_l. unfold Qdiv. rewrite Qmult_1_l.
    apply Qlt_le_weak.
    assert (H0 : 0 < / - (Qmean d r + eps)) by (apply Qinv_lt_0_compat; lra).
    assert (E' : / (Qmean d r + eps) == - / - (Qmean d r + eps)) by (field; lra).
    lra.
  - intros ->. rewrite mean_inv_result. simpl.
    eexists _, _. split; [reflexivity|].
    split; [unfold clamp0; now rewrite !length_map|].
    split; [apply clamp0_nth; rewrite nth_error_map, Hr; reflexivity|].
    reflexivity.
Qed.

Lemma mean_inv_weight_witness :
  (exists ws w,
     _edge_weight_from_attr (Mat 2 [[1; 3]; [0; 1]]) "mean_inv" = Ok (Vec ws) /\
     List.length ws = 2%nat /\
     nth_error ws 1 = Some w /\
     w == 1 / (Qmean 2 [0; 1] + eps)) /\
  (exists ws w,
     _edge_weight_from_attr (Mat 2 [[-1; -1]]) "mean_inv" = Ok (Vec ws) /\
     List.length ws = 1%nat /\
     nth_error ws 0 = Some w /\
     w == 0) /\
  (exists ws w,
     _edge_weight_from_attr (Mat 1 [[2]; [-3]]) "mean_inv" = Ok (Vec ws) /\
     List.length ws = 2%nat /\
     nth_error ws 1 = Some w /\
     w == Qmax 0 (nth 0 [-3] 0)).
Proof.
  split; [|split].
  - apply (proj1 (mean_inv_weight 2 [[1; 3]; [0; 1]] 1 [0; 1] eq_refl));
      [lia | reflexivity].
  - apply (proj1 (proj2 (mean_inv_weight 2 [[-1; -1]] 0 [-1; -1] eq_refl)));
      [lia | reflexivity].
  - apply (proj2 (proj2 (mean_inv_weight 1 [[2]; [-3]] 1 [-3] eq_refl)));
      reflexivity.
Defined.

(** C5, refuted as stated: the weight of the row [[2]] of a one-column
    tensor is [2], not [1/(2+1e-8)], and the weight of the row [[-1, -1]]
    is [0], not [1/(-1+1e-8)]. *)
Lemma mean_inv_not_always_inverse_mean :
  (_edge_weight_from_attr (Mat 1 [[2]]) "mean_inv" = Ok (Vec [2]) /\
   ~ 2 == 1 / (Qmean 1 [2] + eps)) /\
  (_edge_weight_from_attr (Mat 2 [[-1; -1]]) "mean_inv" = Ok (Vec [0]) /\
   ~ 0 == 1 / (Qmean 2 [-1; -1] + eps)).
Proof.
  split; (split; [vm_compute; reflexivity | vm_compute; discriminate]).
Qed.

End NormaliserClaims.

Section AutoMode.
Local Open Scope Q_scope.







End AutoMode.

(* ------------------------------------------------------------------ *)
(** ** How the world evolves *)

Lemma count_events_app (p : Event -> bool) (l1 l2 : list Event) :
  count_events p (l1 ++ l2) = count_events p l1 + count_events p l2.
Proof. unfold count_events. now rewrite filter_app, length_app. Qed.

Lemma count_events_one (p : Event -> bool) (e : Event) :
  count_events p [e] = if p e then 1 else 0.
Proof. unfold count_events. simpl. now destruct (p e). Qed.

Ltac evolves_simpl :=
  constructor; unfold build_kept, same_config, same_build; simpl;
  rewrite ?count_events_app, ?count_events_one; simpl;
  try solve [ auto | lia | congruence | eexists; reflexivity
            | exists nil; symmetry; apply app_nil_r
            | intros; congruence
            | intros; repeat split; solve [reflexivity | congruence | lia] ].

Section Evolution.
Variable m : Mode.

Lemma evolves_refl (w : World) : evolves_gen m w w.
Proof.
  constructor; unfold build_kept, same_config, same_build; auto.
  - repeat split.
  - exists nil. now rewrite app_nil_r.
Qed.

Lemma evolves_trans (w1 w2 w3 : World) :
  evolves_gen m w1 w2 -> evolves_gen m w2 w3 ->
  evolves_gen m w1 w3.
Proof.
  intros [C1 [e1 L1] I1 V1 VC1 E1 EC1 B1 F1] [C2 [e2 L2] I2 V2 VC2 E2 EC2 B2 F2].
  constructor.
  - unfold same_config in *. intuition congruence.
  - exists (e1 ++ e2). now rewrite L2, L1, app_assoc.
  - lia.
  - auto.
  - lia.
  - auto.
  - lia.
  - intros Hs Hb. destruct (B1 Hs Hb) as (S1 & N1 & M1).
    assert (Hb2 : _built (self w2) = true)
      by (unfold same_build in S1; destruct S1 as (-> & _); exact Hb).
    destruct (B2 Hs Hb2) as (S2 & N2 & M2).
    unfold build_kept, same_build in *. intuition congruence.
  - intros Hs. destruct (F1 Hs) as (S1 & N1 & M1).
    destruct (F2 Hs) as (S2 & N2 & M2).
    unfold build_kept, same_build in *. intuition congruence.
Qed.

Lemma evolves_bind {A B} (c : M A) (k : A -> M B) (w : World) :
  evolves_gen m w (fst (c w)) -> (forall a, preserves_gen m (k a)) ->
  evolves_gen m w (fst (bind c k w)).
Proof.
  intros Hc Hk. unfold bind.
  destruct (c w) as [w' [a|e]]; simpl in *.
  - eapply evolves_trans; [exact Hc | apply Hk].
  - exact Hc.
Qed.

(** Reading [self] and continuing: the continuation may use what it
    read. *)
Lemma evolves_get_self {B} (k : GNNBackbone -> M B) (w : World) :
  evolves_gen m w (fst (k (self w) w)) ->
  evolves_gen m w (fst (bind get_self k w)).
Proof. intros H. exact H. Qed.

(** A one-time notice: emitted only while its flag is down, which it then
    raises. *)
Lemma evolves_warn_edge_v (c : bool) (w : World) :
  evolves_gen m w
    (fst (when (c && negb (_warned_edge_v_ignored (self w)))
            (warn EdgeVIgnored ;;; set_self (set_warned_edge_v_ignored true)) w)).
Proof.
  destruct c, (_warned_edge_v_ignored (self w)) eqn:F; simpl;
    try apply evolves_refl.
  evolves_simpl; rewrite ?F; simpl; try lia; try congruence.
Qed.

Lemma evolves_warn_edge_ignored (c : bool) (n : Notice) (w : World) :
  is_edge_v_notice (Warn n) = false ->
  evolves_gen m w
    (fst (when (c && negb (_warned_edge_ignored (self w)))
            (warn n ;;; set_self (set_warned_edge_ignored true)) w)).
Proof.
  intros Hn.
  destruct c, (_warned_edge_ignored (self w)) eqn:F; simpl;
    try apply evolves_refl.
  evolves_simpl; rewrite ?F, ?Hn; simpl; try lia; try congruence.
  - simpl in Hn. rewrite Hn. lia.
  - destruct (is_edge_ignored_notice (Warn n)); lia.
Qed.

Lemma evolves_emit_call (l : ConvLayer) (h : Tensor) (ei : EdgeIndex)
    (a : EdgeArg) (w : World) :
  evolves_gen m w (fst (emit (ConvCall l h ei a) w)).
Proof. evolves_simpl. Qed.

End Evolution.

(** The builders construct. *)
Lemma evolves_fresh_id (w : World) : evolves_gen Building w (fst (fresh_id w)).
Proof. evolves_simpl. Qed.

Lemma evolves_emit_make_conv (l : ConvLayer) (w : World) :
  evolves_gen Building w (fst (emit (MakeConv l) w)).
Proof. evolves_simpl. Qed.

Lemma evolves_emit_make_readout (l : Linear) (w : World) :
  evolves_gen Building w (fst (emit (MakeReadout l) w)).
Proof. evolves_simpl. Qed.

Lemma evolves_set_built (layers : list ConvLayer) (lin : Linear)
    (ed : option nat) (w : World) :
  evolves_gen Building w (fst (set_self (set_built layers lin ed) w)).
Proof. evolves_simpl. Qed.

(** On an unbuilt instance, building is what [Lazy] allows. *)
Lemma evolves_unbuilt (w w' : World) :
  _built (self w) = false -> evolves_gen Building w w' -> evolves w w'.
Proof.
  intros Hb [C E I V VC F FC _ _]. constructor; try assumption.
  - intros _ Hb'. congruence.
  - discriminate.
Qed.

(** What never builds does not build a built instance either. *)
Lemma evolves_frozen_lazy (w w' : World) :
  evolves_gen Frozen w w' -> evolves w w'.
Proof.
  intros [C E I V VC F FC _ Fr]. constructor; try assumption.
  - intros _ _. now apply Fr.
  - discriminate.
Qed.

(** One step of the structural proof that a method only evolves the
    world. *)
Ltac evolves_step :=
  match goal with
  | |- preserves _ => intros ?w
  | |- preserves_gen _ _ => intros ?w
  | |- evolves _ _ => unfold evolves
  | |- evolves_gen _ ?w (fst (ret _ ?w)) => apply evolves_refl
  | |- evolves_gen _ ?w (fst (raise _ ?w)) => apply evolves_refl
  | |- evolves_gen _ ?w (fst (lift _ ?w)) => apply evolves_refl
  | |- evolves_gen _ ?w
         (fst (when (_ && negb (_warned_edge_v_ignored (self ?w))) _ ?w)) =>
      apply evolves_warn_edge_v
  | |- evolves_gen _ ?w
         (fst (when (_ && negb (_warned_edge_ignored (self ?w))) _ ?w)) =>
      apply evolves_warn_edge_ignored; reflexivity
  | |- evolves_gen _ ?w
         (fst (when (negb (_warned_edge_ignored (self ?w))) _ ?w)) =>
      apply (evolves_warn_edge_ignored _ true); reflexivity
  | |- evolves_gen _ ?w (fst (when ?b (raise _) ?w)) =>
      destruct b; apply evolves_refl
  | |- evolves_gen _ ?w (fst (emit (ConvCall _ _ _ _) ?w)) =>
      apply evolves_emit_call
  | |- evolves_gen Building ?w (fst (fresh_id ?w)) => apply evolves_fresh_id
  | |- evolves_gen Building ?w (fst (emit (MakeConv _) ?w)) =>
      apply evolves_emit_make_conv
  | |- evolves_gen Building ?w (fst (emit (MakeReadout _) ?w)) =>
      apply evolves_emit_make_readout
  | |- evolves_gen Building ?w (fst (set_self (set_built _ _ _) ?w)) =>
      apply evolves_set_built
  | |- evolves_gen _ ?w (fst ((let _ := _ in _) ?w)) => cbv zeta
  | |- evolves_gen _ ?w (fst (bind get_self _ ?w)) => apply evolves_get_self
  | |- evolves_gen _ ?w (fst (bind _ _ ?w)) => apply evolves_bind; [| intros ?a]
  | |- evolves_gen _ ?w (fst ((if ?b then _ else _) ?w)) => destruct b eqn:?
  | |- evolves_gen _ ?w (fst ((match ?x with _ => _ end) ?w)) => destruct x eqn:?
  end.

Lemma frozen_prepare_inputs (data : Batch.t) :
  preserves_gen Frozen (_prepare_inputs data).
Proof. unfold _prepare_inputs. repeat evolves_step. Qed.

Lemma preserves_prepare_inputs (data : Batch.t) :
  preserves (_prepare_inputs data).
Proof. intros w. apply evolves_frozen_lazy, frozen_prepare_inputs. Qed.

Lemma preserves_make_conv (i o : nat) (ed : option nat) :
  preserves_gen Building (_make_conv i o ed).
Proof. unfold _make_conv. repeat evolves_step. Qed.

Lemma preserves_make_convs (dims : list nat) (prev : nat) (ed : option nat) :
  preserves_gen Building (make_convs prev dims ed).
Proof.
  revert prev. induction dims as [|d dims IH]; intros prev; simpl.
  - repeat evolves_step.
  - intros w. apply evolves_bind; [apply preserves_make_conv|].
    intros l w1. apply evolves_bind; [apply IH|]. intros ls.
    repeat evolves_step.
Qed.

Lemma preserves_build_layers (i : nat) (ed : option nat) :
  preserves_gen Building (_build_layers i ed).
Proof.
  unfold _build_layers. intros w. apply evolves_get_self.
  apply evolves_bind; [apply preserves_make_convs|]. intros ls.
  repeat evolves_step.
Qed.

Section ForwardEvolves.
Context {L : TorchLib}.

Lemma preserves_ensure_built (x : Tensor) (ea : option Tensor) :
  preserves (ensure_built x ea).
Proof.
  intros w. unfold ensure_built. apply evolves_get_self.
  destruct (_built (self w)) eqn:Hb; simpl.
  - apply evolves_refl.
  - apply evolves_unbuilt; [exact Hb|].
    apply evolves_bind; [repeat evolves_step|]. intros d.
    intros w1. apply evolves_bind; [repeat evolves_step|]. intros e.
    apply preserves_build_layers.
Qed.

Lemma preserves_run_convs (m : Mode) (p : Q) (layers : list ConvLayer)
    (h : Tensor) (ei : EdgeIndex) (ea ew : option Tensor) :
  preserves_gen m (run_convs p layers h ei ea ew).
Proof.
  revert h. induction layers as [|l layers IH]; intros h; simpl.
  - repeat evolves_step.
  - intros w. apply evolves_bind; [repeat evolves_step|].
    intros _ w1. apply evolves_bind; [apply IH|]. intros outs.
    repeat evolves_step.
Qed.

(** The layer loop and the readout never build. *)
Lemma preserves_run_stack (m : Mode) (inputs : Inputs) :
  preserves_gen m (run_stack inputs).
Proof.
  unfold run_stack. intros w. apply evolves_get_self.
  apply evolves_bind; [repeat evolves_step|]. intros layers w2.
  apply evolves_bind; [apply preserves_run_convs|]. intros outs.
  repeat evolves_step.
Qed.

Lemma preserves_compose (inputs : Inputs) : preserves (compose inputs).
Proof.
  unfold compose. intros w. unfold evolves.
  apply evolves_bind; [apply preserves_ensure_built|]. intros _.
  apply preserves_run_stack.
Qed.

Lemma preserves_forward (data : Batch.t) : preserves (forward data).
Proof.
  unfold forward. intros w. unfold evolves.
  apply evolves_bind; [apply preserves_prepare_inputs|].
  intros inputs. apply preserves_compose.
Qed.

Lemma evolves_forward_all (datas : list Batch.t) (w : World) :
  evolves w (forward_all datas w).
Proof.
  revert w. induction datas as [|data datas IH]; intros w; simpl.
  - apply evolves_refl.
  - eapply evolves_trans; [apply preserves_forward | apply IH].
Qed.

End ForwardEvolves.

(* ------------------------------------------------------------------ *)
(** ** One-time notices *)

Lemma count_events_le (p q : Event -> bool) (l : list Event) :
  (forall e, p e = true -> q e = true) ->
  count_events p l <= count_events q l.
Proof.
  intros Hpq. unfold count_events. induction l as [|e l IH]; simpl; [lia|].
  destruct (p e) eqn:Ep.
  - rewrite (Hpq e Ep). simpl. lia.
  - destruct (q e); simpl; lia.
Qed.

Lemma count_events_map_warn_init (p : Event -> bool) (ns : list Notice) :
  (forall n, In n ns -> p (Warn n) = false) ->
  count_events p (map Warn ns) = 0.
Proof.
  intros H. unfold count_events. induction ns as [|n ns IH]; simpl; [reflexivity|].
  rewrite (H n (or_introl eq_refl)). apply IH. intros m Hm. apply H. now right.
Qed.

Lemma init_notices (ct : string) (hd : option (list nat)) (od : nat) (dp : Q)
    (rl : bool) (gm pol : string) (kw : kwargs) (ns : list Notice)
    (r : result GNNBackbone) :
  __init__ ct hd od dp rl gm pol kw = (ns, r) ->
  forall n, In n ns -> n = DimsDeprecated.
Proof.
  unfold __init__, resolve_hidden_dims. intros H n Hn.
  destruct hd as [l|]; [|destruct (kw_get "dims" kw) as [[l|]|]];
    inversion H; subst; simpl in Hn; intuition.
Qed.

Lemma init_state (ct : string) (hd : option (list nat)) (od : nat) (dp : Q)
    (rl : bool) (gm pol : string) (kw : kwargs) (ns : list Notice)
    (s : GNNBackbone) :
  __init__ ct hd od dp rl gm pol kw = (ns, Ok s) ->
  exists l,
    s = mkBackbone (lower ct) l od dp rl gm pol false None false false None None.
Proof.
  unfold __init__, resolve_hidden_dims. intros H.
  destruct hd as [l|]; [|destruct (kw_get "dims" kw) as [[l|]|]];
    inversion H; subst; eexists; reflexivity.
Qed.

Section Notices.
Context {L : TorchLib}.

(** C9.  Over the whole life of an instance - from its construction
    through any sequence of [forward] calls, whatever they are given and
    whether or not they raise - the "edge_attr is ignored" notice is
    emitted at most once and the "edge_v is ignored" notice is emitted at
    most once; and from any state on, a flag that is set stays set and its
    notice is not emitted again. *)
Theorem notices_at_most_once (ct : string) (hd : option (list nat))
    (od : nat) (dp : Q) (rl : bool) (gm pol : string) (kw : kwargs)
    (ns : list Notice) (s : GNNBackbone) :
  __init__ ct hd od dp rl gm pol kw = (ns, Ok s) ->
  (_warned_edge_ignored s = false /\ _warned_edge_v_ignored s = false) /\
  (forall datas,
     let w' := forward_all datas (new_world ns s) in
     count_events is_edge_attr_ignored_notice (log w') <= 1 /\
     count_events is_edge_v_notice (log w') <= 1) /\
  (forall w datas,
     let w' := forward_all datas w in
     (_warned_edge_ignored (self w) = true ->
      _warned_edge_ignored (self w') = true /\
      count_events is_edge_attr_ignored_notice (log w')
      = count_events is_edge_attr_ignored_notice (log w)) /\
     (_warned_edge_v_ignored (self w) = true ->
      _warned_edge_v_ignored (self w') = true /\
      count_events is_edge_v_notice (log w')
      = count_events is_edge_v_notice (log w))).
Proof.
  intros Hinit.
  destruct (init_state _ _ _ _ _ _ _ _ _ _ Hinit) as [l ->].
  split; [split; reflexivity|]. split.
  - intros datas w'.
    pose proof (evolves_forward_all datas
                  (new_world ns (mkBackbone (lower ct) l od dp rl gm pol
                                   false None false false None None))) as E.
    fold w' in E. destruct E as [_ _ _ _ VC _ EC _]. simpl in VC, EC.
    assert (Z1 : count_events is_edge_ignored_notice (map Warn ns) = 0).
    { apply count_events_map_warn_init. intros n Hn.
      now rewrite (init_notices _ _ _ _ _ _ _ _ _ _ Hinit n Hn). }
    assert (Z2 : count_events is_edge_v_notice (map Warn ns) = 0).
    { apply count_events_map_warn_init. intros n Hn.
      now rewrite (init_notices _ _ _ _ _ _ _ _ _ _ Hinit n Hn). }
    split; [|lia].
    pose proof (count_events_le is_edge_attr_ignored_notice
                  is_edge_ignored_notice (log w')) as Hle.
    assert (count_events is_edge_attr_ignored_notice (log w')
            <= count_events is_edge_ignored_notice (log w')).
    { apply Hle. intros e He. unfold is_edge_ignored_notice. now rewrite He. }
    lia.
  - intros w datas w'.
    pose proof (evolves_forward_all datas w) as E. fold w' in E.
    destruct E as [_ [evs Hlog] _ V VC F FC _].
    split; intros Hflag.
    + split; [now apply F|].
      rewrite Hflag in FC. simpl in FC.
      rewrite Hlog, count_events_app in *.
      assert (count_events is_edge_attr_ignored_notice evs
              <= count_events is_edge_ignored_notice evs).
      { apply count_events_le. intros e He.
        unfold is_edge_ignored_notice. now rewrite He. }
      lia.
    + split; [now apply V|].
      rewrite Hflag in VC. simpl in VC.
      rewrite Hlog, count_events_app in *. lia.
Qed.

End Notices.

Lemma notices_at_most_once_witness :
  let w' := @forward_all ZerosLib
              [sample_batch (Some (Vec [1; 2]%Q)) (Some (Vec [1; 2]%Q));
               sample_batch (Some (Vec [3; 4]%Q)) (Some (Vec [1; 2]%Q));
               sample_batch None None]
              (new_world [] (sample_instance "gat" "error")) in
  count_events is_edge_attr_ignored_notice (log w') <= 1 /\
  count_events is_edge_v_notice (log w') <= 1.
Proof.
  exact (proj1 (proj2
           (@notices_at_most_once ZerosLib "GAT" (Some [4; 5]) 2 (3 # 10)%Q
              false "auto" "error" [] [] (sample_instance "gat" "error")
              eq_refl)) _).
Defined.

(* ------------------------------------------------------------------ *)
(** ** GCN: a failing weight derivation *)

Ltac run_monad :=
  unfold bind, when, warn, emit, set_self, get_self, ret, raise, lift; simpl.

Lemma size_first_ok (t : Tensor) : dim t <> 0 -> size_first t = Ok (nrows t).
Proof. destruct t; simpl; congruence. Qed.

Lemma size_last_ok (t : Tensor) : dim t <> 0 -> exists d, size_last t = Ok d.
Proof. destruct t; simpl; intros H; [congruence | eauto | eauto]. Qed.

Section GcnFallback.
Context {L : TorchLib}.

(** C7.  For a [gcn] instance and a batch without [edge_weight] whose
    [edge_attr] makes the normaliser raise, input adaptation catches the
    exception: it returns normally, with no edge weight and the edge
    attribute untouched, and [forward] goes on with these inputs; the
    failure notice is emitted only if the instance had not warned before,
    after which the flag is set.  Over any sequence of calls the notice is
    emitted at most once more than it already was, and not at all once the
    flag is set. *)
Theorem gcn_derivation_failure_absorbed :
  (forall (w : World) (data : Batch.t) (ea : Tensor) (e : exn),
     conv_type (self w) = "gcn" ->
     Batch.edge_weight data = None ->
     Batch.edge_attr data = Some ea ->
     _edge_weight_from_attr ea (gcn_edge_mode (self w)) = Raise e ->
     dim (Batch.x data) <> 0 ->
     let inputs := mkInputs (Batch.x data) (Batch.edge_index data)
                     (Some ea) None (batch_of data) in
     let w1 := mkWorld
                 (set_warned_edge_ignored true (after_edge_v (self w) data))
                 (next_id w)
                 (log w ++ edge_v_notices (self w) data
                        ++ (if _warned_edge_ignored (self w) then []
                            else [Warn GcnEdgeWeightFailed])) in
     _prepare_inputs data w = (w1, Ok inputs) /\
     forward data w = compose inputs w1) /\
  (forall (w : World) (datas : list Batch.t),
     count_events is_gcn_failed_notice (log (forward_all datas w))
     <= count_events is_gcn_failed_notice (log w)
        + budget (_warned_edge_ignored (self w))).
Proof.
  split.
  - intros w data ea e Hct Hew Hea Hraise Hx inputs w1.
    assert (Hprep : _prepare_inputs data w = (w1, Ok inputs)).
    { subst inputs w1. unfold _prepare_inputs, batch_of, edge_v_notices,
        after_edge_v.
      destruct w as [s nid lg]. simpl in *.
      run_monad. rewrite Hew, Hea.
      destruct (is_some (Batch.edge_v data) && negb (_warned_edge_v_ignored s))
        eqn:Ev; simpl; rewrite Hct; simpl; rewrite Hraise; simpl;
        destruct (_warned_edge_ignored s) eqn:Fe; simpl;
        rewrite ?Hct; simpl;
        destruct (Batch.batch data) as [b|]; simpl;
        rewrite ?(size_first_ok _ Hx); simpl;
        rewrite <- ?app_assoc, ?app_nil_r; simpl;
        try reflexivity.
      all: destruct s; simpl in *; subst; reflexivity. }
    split; [exact Hprep|].
    unfold forward, bind. now rewrite Hprep.
  - intros w datas.
    pose proof (evolves_forward_all datas w) as [_ [evs Hlog] _ _ _ _ FC _].
    rewrite Hlog, count_events_app in *.
    assert (count_events is_gcn_failed_notice evs
            <= count_events is_edge_ignored_notice evs).
    { apply count_events_le. intros ev He.
      unfold is_edge_ignored_notice. rewrite He. apply orb_true_r. }
    pose proof (count_events_le is_gcn_failed_notice is_edge_ignored_notice
                  (log w)).
    unfold budget in *.
    destruct (_warned_edge_ignored (self w)),
             (_warned_edge_ignored (self (forward_all datas w))); lia.
Qed.

End GcnFallback.

Lemma gcn_derivation_failure_absorbed_witness :
  exists w1 inputs,
    _prepare_inputs (sample_batch (Some (Scalar 1)) None)
      (new_world [] (sample_instance "gcn" "error")) = (w1, Ok inputs) /\
    in_edge_weight inputs = None /\
    _warned_edge_ignored (self w1) = true /\
    log w1 = [Warn GcnEdgeWeightFailed].
Proof.
  eexists _, _. split; [|split; [|split]].
  - apply (proj1 (@gcn_derivation_failure_absorbed ZerosLib)
             (new_world [] (sample_instance "gcn" "error"))
             (sample_batch (Some (Scalar 1)) None)
             (Scalar 1) (IndexError "size(-1): tensor has no dimensions"));
      [reflexivity | reflexivity | reflexivity | reflexivity | discriminate].
  - reflexivity.
  - reflexivity.
  - reflexivity.
Defined.

(* ------------------------------------------------------------------ *)
(** ** The builders and the layer loop, in closed form *)

Lemma make_conv_ok (i o : nat) (ed ed' : option nat) (c : ConvClass) (w : World) :
  layer_spec (conv_type (self w)) ed = Some (c, ed') ->
  _make_conv i o ed w =
  (mkWorld (self w) (S (next_id w))
     (log w ++ [MakeConv (mkConv (next_id w) c i o ed')]),
   Ok (mkConv (next_id w) c i o ed')).
Proof.
  unfold layer_spec, _make_conv. run_monad.
  repeat (destruct (conv_type (self w) ==? _);
          [intros H; inversion H; subst; reflexivity|]).
  destruct (conv_type (self w) ==? "gine"); [|discriminate].
  destruct ed; intros H; inversion H; subst; reflexivity.
Qed.

Lemma recognized_false (ct : string) :
  recognized ct = false ->
  (ct ==? "gcn") = false /\ (ct ==? "gat") = false /\
  (ct ==? "gatv2") = false /\ (ct ==? "sage") = false /\
  (ct ==? "gin") = false /\ (ct ==? "gine") = false.
Proof.
  unfold recognized, ignores_edges. intros H.
  rewrite !orb_false_iff in H. intuition.
Qed.

Lemma make_conv_unsupported (i o : nat) (ed : option nat) (w : World) :
  recognized (conv_type (self w)) = false ->
  _make_conv i o ed w =
  (w, Raise (ValueError ("Unsupported conv_type: " ++ conv_type (self w)))).
Proof.
  intros H. apply recognized_false in H as (H1 & H2 & H3 & H4 & H5 & H6).
  unfold _make_conv. run_monad. now rewrite H1, H2, H3, H4, H5, H6.
Qed.

Lemma make_convs_ok (dims : list nat) (prev : nat) (ed ed' : option nat)
    (c : ConvClass) (w : World) :
  layer_spec (conv_type (self w)) ed = Some (c, ed') ->
  make_convs prev dims ed w =
  (mkWorld (self w) (next_id w + List.length dims)
     (log w ++ map MakeConv (stack_of c ed' (next_id w) prev dims)),
   Ok (stack_of c ed' (next_id w) prev dims)).
Proof.
  revert prev w. induction dims as [|d dims IH]; intros prev w Hs; simpl.
  - unfold ret. rewrite Nat.add_0_r, app_nil_r. now destruct w.
  - unfold bind at 1. rewrite (make_conv_ok prev d ed ed' c w Hs).
    unfold bind at 1. rewrite IH by exact Hs. simpl.
    unfold ret. rewrite <- app_assoc. simpl.
    now rewrite Nat.add_succ_r.
Qed.

Lemma stack_of_length (c : ConvClass) (ed : option nat) (dims : list nat)
    (id0 prev : nat) :
  List.length (stack_of c ed id0 prev dims) = List.length dims.
Proof.
  revert id0 prev. induction dims as [|d dims IH]; intros; simpl; auto.
Qed.

Lemma stack_of_chained (c : ConvClass) (ed : option nat) (dims : list nat)
    (id0 prev : nat) :
  chained prev dims (stack_of c ed id0 prev dims).
Proof.
  revert id0 prev. induction dims as [|d dims IH]; intros; simpl; auto.
Qed.

Lemma stack_of_class (c : ConvClass) (ed : option nat) (dims : list nat)
    (id0 prev : nat) :
  Forall (fun l => conv_class l = c /\ conv_edge_dim l = ed)
    (stack_of c ed id0 prev dims).
Proof.
  revert id0 prev. induction dims as [|d dims IH]; intros; simpl;
    constructor; auto.
Qed.

Section LoopClosedForm.
Context {L : TorchLib}.

Lemma run_convs_spec (p : Q) (layers : list ConvLayer) (h : Tensor)
    (ei : EdgeIndex) (ea ew : option Tensor) (w : World) :
  run_convs p layers h ei ea ew w =
  (mkWorld (self w) (next_id w) (log w ++ conv_calls p layers h ei ea ew),
   Ok (conv_outs p layers h ei ea ew)).
Proof.
  revert h w. induction layers as [|l layers IH]; intros h w; simpl.
  - unfold ret. rewrite app_nil_r. now destruct w.
  - run_monad. rewrite IH. simpl. now rewrite <- app_assoc.
Qed.

Lemma conv_outs_length (p : Q) (layers : list ConvLayer) (h : Tensor)
    (ei : EdgeIndex) (ea ew : option Tensor) :
  List.length (conv_outs p layers h ei ea ew) = List.length layers.
Proof. revert h. induction layers; intros; simpl; auto. Qed.

(** What the lazy build does to an unbuilt instance of a kind that
    [_make_conv] can construct. *)
Lemma build_layers_ok (in_dim : nat) (edge_dim ed' : option nat)
    (c : ConvClass) (w : World) :
  layer_spec (conv_type (self w))
    (if conv_type (self w) ==? "gine" then edge_dim else None) = Some (c, ed') ->
  let layers := stack_of c ed' (next_id w) in_dim (hidden_dims (self w)) in
  let lin := mkLinear (next_id w + List.length (hidden_dims (self w)))
               (list_sum (hidden_dims (self w))) (out_dim (self w)) in
  _build_layers in_dim edge_dim w =
  (mkWorld (set_built layers lin edge_dim (self w))
     (S (next_id w + List.length (hidden_dims (self w))))
     (log w ++ map MakeConv layers ++ [MakeReadout lin]),
   Ok tt).
Proof.
  intros Hs layers lin. unfold _build_layers.
  unfold bind at 1. unfold get_self at 1.
  unfold bind at 1. rewrite (make_convs_ok _ _ _ ed' c w Hs).
  run_monad. now rewrite <- app_assoc.
Qed.

End LoopClosedForm.

Section ComposeClosedForm.
Context {L : TorchLib}.

Lemma ensure_built_built (x : Tensor) (ea : option Tensor) (w : World) :
  _built (self w) = true -> ensure_built x ea w = (w, Ok tt).
Proof. intros H. unfold ensure_built. run_monad. now rewrite H. Qed.

Lemma ensure_built_unbuilt (x : Tensor) (ea : option Tensor) (w : World)
    (d : nat) (c : ConvClass) (ed' : option nat) :
  _built (self w) = false ->
  size_last x = Ok d ->
  (conv_type (self w) ==? "gine") && negb (is_some ea)
    && negb (gine_missing_edge_policy (self w) ==? "zeros") = false ->
  layer_spec (conv_type (self w)) (inferred_edge_dim (self w) ea)
    = Some (c, ed') ->
  ensure_built x ea w
  = (built_world w c ed' d (inferred_edge_dim (self w) ea), Ok tt).
Proof.
  intros Hb Hx Hpol Hs. unfold ensure_built.
  unfold bind at 1. unfold get_self at 1. rewrite Hb. simpl.
  unfold bind at 1. unfold lift at 1. rewrite Hx.
  unfold inferred_edge_dim in *.
  destruct (conv_type (self w) ==? "gine") eqn:Eg.
  - destruct ea as [t|]; simpl in *.
    + destruct t as [v|v|k rows]; simpl in *;
        unfold bind at 1; simpl;
        (rewrite build_layers_ok with (c := c) (ed' := ed');
         [reflexivity | now rewrite Eg]).
    + apply negb_false_iff in Hpol. rewrite Hpol.
      unfold bind at 1; simpl.
      rewrite build_layers_ok with (c := c) (ed' := ed');
        [reflexivity | now rewrite Eg].
  - unfold bind at 1; simpl.
    rewrite build_layers_ok with (c := c) (ed' := ed');
      [reflexivity | now rewrite Eg].
Qed.

(** One call on a built instance: the layers run, nothing else changes. *)
Lemma compose_built (inputs : Inputs) (w : World) (layers : list ConvLayer)
    (lin : Linear) :
  _built (self w) = true ->
  convs (self w) = Some layers ->
  readout (self w) = Some lin ->
  compose inputs w =
  (mkWorld (self w) (next_id w) (log w ++ calls_of (self w) layers inputs),
   compose_value (self w) layers lin inputs).
Proof.
  intros Hb Hc Hr. unfold compose.
  unfold bind at 1. rewrite (ensure_built_built _ _ w Hb).
  unfold run_stack.
  unfold bind at 1. unfold get_self at 1.
  unfold bind at 1. rewrite Hc. unfold ret at 1.
  unfold bind at 1. rewrite run_convs_spec. simpl.
  unfold compose_value, calls_of, effective_edge_attr.
  destruct (conv_outs _ _ _ _ _ _) as [|o outs']; [reflexivity|].
  run_monad. rewrite Hr. now destruct (residue_logits (self w)).
Qed.

(** The first call builds, then runs as on a built instance. *)
Lemma compose_after_build (inputs : Inputs) (w wb : World) :
  ensure_built (in_x inputs) (in_edge_attr inputs) w = (wb, Ok tt) ->
  _built (self wb) = true ->
  compose inputs w = compose inputs wb.
Proof.
  intros He Hb. unfold compose.
  unfold bind at 1. rewrite He.
  symmetry. unfold bind at 1. now rewrite (ensure_built_built _ _ wb Hb).
Qed.

End ComposeClosedForm.

(* ------------------------------------------------------------------ *)
(** ** GINE: edge attributes are required *)

Lemma after_edge_v_fields (s : GNNBackbone) (data : Batch.t) :
  same_config s (after_edge_v s data) /\ same_build s (after_edge_v s data) /\
  _warned_edge_ignored (after_edge_v s data) = _warned_edge_ignored s.
Proof.
  unfold after_edge_v, same_config, same_build.
  destruct (_ && _); simpl; repeat split.
Qed.

Lemma after_edge_v_id (s : GNNBackbone) (data : Batch.t) :
  Batch.edge_v data = None \/ _warned_edge_v_ignored s = true ->
  after_edge_v s data = s /\ edge_v_notices s data = [].
Proof.
  unfold after_edge_v, edge_v_notices.
  intros [-> | ->]; simpl; rewrite ?andb_false_r; auto.
Qed.

Lemma prepare_gine_missing (w : World) (data : Batch.t) :
  conv_type (self w) = "gine" ->
  (gine_missing_edge_policy (self w) ==? "zeros") = false ->
  Batch.edge_attr data = None ->
  _prepare_inputs data w =
  (after_edge_v_check w data,
   Raise (ValueError "GINE needs edge_attr, or gine_missing_edge_policy='zeros'")).
Proof.
  intros Hct Hpol Hea.
  unfold _prepare_inputs, after_edge_v_check, after_edge_v, edge_v_notices.
  destruct w as [s nid lg]. simpl in *. run_monad. rewrite Hea.
  destruct (is_some (Batch.edge_v data) && negb (_warned_edge_v_ignored s));
    simpl; rewrite Hct; simpl; rewrite Hpol; simpl;
    rewrite ?app_nil_r; reflexivity.
Qed.

Lemma prepare_gine_present (w : World) (data : Batch.t) (ea : Tensor) :
  conv_type (self w) = "gine" ->
  Batch.edge_attr data = Some ea ->
  dim (Batch.x data) <> 0 ->
  _prepare_inputs data w =
  (after_edge_v_check w data,
   Ok (mkInputs (Batch.x data) (Batch.edge_index data) (Some ea)
         (Batch.edge_weight data) (batch_of data))).
Proof.
  intros Hct Hea Hx.
  unfold _prepare_inputs, after_edge_v_check, after_edge_v, edge_v_notices,
    batch_of.
  destruct w as [s nid lg]. simpl in *. run_monad. rewrite Hea.
  destruct (is_some (Batch.edge_v data) && negb (_warned_edge_v_ignored s));
    simpl; rewrite Hct; simpl;
    destruct (Batch.batch data); simpl;
    rewrite ?(size_first_ok _ Hx); simpl;
    rewrite ?app_nil_r; reflexivity.
Qed.

Section ComposeUnbuilt.
Context {L : TorchLib}.

(** The first successful call: the stack is built from the inputs, then
    run. *)
Lemma compose_unbuilt (inputs : Inputs) (w : World) (d : nat)
    (c : ConvClass) (ed' : option nat) :
  _built (self w) = false ->
  size_last (in_x inputs) = Ok d ->
  (conv_type (self w) ==? "gine") && negb (is_some (in_edge_attr inputs))
    && negb (gine_missing_edge_policy (self w) ==? "zeros") = false ->
  layer_spec (conv_type (self w))
    (inferred_edge_dim (self w) (in_edge_attr inputs)) = Some (c, ed') ->
  let wb := built_world w c ed' d
              (inferred_edge_dim (self w) (in_edge_attr inputs)) in
  let layers := stack_of c ed' (next_id w) d (hidden_dims (self w)) in
  let lin := mkLinear (next_id w + List.length (hidden_dims (self w)))
               (list_sum (hidden_dims (self w))) (out_dim (self w)) in
  compose inputs w =
  (mkWorld (self wb) (next_id wb) (log wb ++ calls_of (self wb) layers inputs),
   compose_value (self wb) layers lin inputs).
Proof.
  intros Hb Hx Hpol Hs wb layers lin.
  rewrite (compose_after_build inputs w wb).
  - apply compose_built; reflexivity.
  - now apply ensure_built_unbuilt.
  - reflexivity.
Qed.

Lemma compose_value_ok (s : GNNBackbone) (layers : list ConvLayer)
    (lin : Linear) (inputs : Inputs) :
  layers <> [] -> exists out, compose_value s layers lin inputs = Ok out.
Proof.
  intros Hne. unfold compose_value.
  destruct (conv_outs _ _ _ _ _ _) as [|o outs'] eqn:E.
  - apply (f_equal (@List.length _)) in E. rewrite conv_outs_length in E.
    destruct layers; simpl in *; congruence.
  - destruct (residue_logits s); eauto.
Qed.

(** C3 (as amended).  For a [gine] instance whose policy is not [zeros],
    every [forward] call on a batch without [edge_attr] - first call or
    not, built or not - raises [ValueError] in input adaptation: no layer
    is built, none is run, and the instance is left as it was except that
    the one-time [edge_v] notice may have been emitted and its flag set;
    in particular the build state is untouched, and nothing at all changes
    when the batch has no [edge_v] or the notice was already given.  On an
    instance that is still unbuilt (with hidden widths), a later call on a
    batch with node features of rank 2 that carries an [edge_attr] of
    rank 2 - the shape the GINE layers are then built for - builds the
    layers and returns. *)
Theorem gine_missing_edge_attr_raises :
  (forall (w : World) (data : Batch.t),
     conv_type (self w) = "gine" ->
     (gine_missing_edge_policy (self w) ==? "zeros") = false ->
     Batch.edge_attr data = None ->
     forward data w =
     (after_edge_v_check w data,
      Raise (ValueError "GINE needs edge_attr, or gine_missing_edge_policy='zeros'")) /\
     same_build (self w) (self (after_edge_v_check w data)) /\
     same_config (self w) (self (after_edge_v_check w data)) /\
     next_id (after_edge_v_check w data) = next_id w /\
     count_events is_make (log (after_edge_v_check w data))
     = count_events is_make (log w) /\
     count_events is_conv_call (log (after_edge_v_check w data))
     = count_events is_conv_call (log w) /\
     (Batch.edge_v data = None \/ _warned_edge_v_ignored (self w) = true ->
      after_edge_v_check w data = w)) /\
  (forall (w : World) (data1 data2 : Batch.t) (ea : Tensor),
     conv_type (self w) = "gine" ->
     (gine_missing_edge_policy (self w) ==? "zeros") = false ->
     _built (self w) = false ->
     hidden_dims (self w) <> [] ->
     Batch.edge_attr data1 = None ->
     Batch.edge_attr data2 = Some ea ->
     dim ea = 2 ->
     dim (Batch.x data2) = 2 ->
     _built (self (fst (forward data1 w))) = false /\
     exists w2 out,
       forward data2 (fst (forward data1 w)) = (w2, Ok out) /\
       _built (self w2) = true).
Proof.
  assert (Hfail : forall (w : World) (data : Batch.t),
     conv_type (self w) = "gine" ->
     (gine_missing_edge_policy (self w) ==? "zeros") = false ->
     Batch.edge_attr data = None ->
     forward data w =
     (after_edge_v_check w data,
      Raise (ValueError "GINE needs edge_attr, or gine_missing_edge_policy='zeros'"))).
  { intros w data Hct Hpol Hea. unfold forward, bind.
    now rewrite (prepare_gine_missing w data Hct Hpol Hea). }
  split.
  - intros w data Hct Hpol Hea.
    destruct (after_edge_v_fields (self w) data) as (Hc & Hb & _).
    split; [now apply Hfail|].
    split; [exact Hb|]. split; [exact Hc|]. split; [reflexivity|].
    unfold after_edge_v_check, edge_v_notices; simpl.
    split; [|split].
    + rewrite count_events_app.
      destruct (_ && _); unfold count_events; simpl; lia.
    + rewrite count_events_app.
      destruct (_ && _); unfold count_events; simpl; lia.
    + intros H. destruct (after_edge_v_id (self w) data H) as [E1 E2].
      unfold edge_v_notices in E2. rewrite E1, E2, app_nil_r. now destruct w.
  - intros w data1 data2 ea Hct Hpol Hb Hhd Hea1 Hea2 _ Hx2.
    assert (Hx : dim (Batch.x data2) <> 0) by (rewrite Hx2; discriminate).
    rewrite (Hfail w data1 Hct Hpol Hea1). simpl.
    destruct (after_edge_v_fields (self w) data1)
      as ((Hct' & Hhd' & _ & _ & _ & _ & Hpol') & (Hb' & _) & _).
    split; [congruence|].
    set (w1 := after_edge_v_check w data1).
    assert (Hct1 : conv_type (self w1) = "gine")
      by (unfold w1, after_edge_v_check; cbn [self]; congruence).
    unfold forward, bind.
    rewrite (prepare_gine_present w1 data2 ea Hct1 Hea2 Hx).
    set (w1' := after_edge_v_check w1 data2).
    destruct (after_edge_v_fields (self w1) data2)
      as ((Hct2 & Hhd2 & _) & (Hb2 & _) & _).
    destruct (size_last_ok _ Hx) as [d Hd].
    set (ed := Some (if dim ea =? 2 then width ea else 1)).
    assert (Hct3 : conv_type (self w1') = "gine")
      by (unfold w1', after_edge_v_check; cbn [self]; congruence).
    assert (Hb3 : _built (self w1') = false)
      by (unfold w1', w1, after_edge_v_check in *; cbn [self] in *; congruence).
    assert (Hhd3 : hidden_dims (self w1') <> [])
      by (unfold w1', w1, after_edge_v_check in *; cbn [self] in *; congruence).
    rewrite (compose_unbuilt _ w1' d GINEConv ed).
    + match goal with
      | |- context [compose_value ?s ?ls ?lin ?inp] =>
          destruct (compose_value_ok s ls lin inp) as [out Hout]
      end.
      { intros E. apply (f_equal (@List.length _)) in E.
        rewrite stack_of_length in E.
        destruct (hidden_dims (self w1')); [congruence | discriminate E]. }
      rewrite Hout. eexists _, out. split; reflexivity.
    + exact Hb3.
    + exact Hd.
    + simpl. now rewrite andb_false_r.
    + unfold inferred_edge_dim, layer_spec. rewrite Hct3. reflexivity.
Qed.

End ComposeUnbuilt.

(* ------------------------------------------------------------------ *)
(** ** The build state is well formed *)

Lemma layer_spec_gine_only (ct : string) (ed : option nat) :
  layer_spec ct (if ct ==? "gine" then ed else None) = layer_spec ct ed.
Proof.
  unfold layer_spec.
  repeat (destruct (ct ==? _); [reflexivity|]).
  destruct (ct ==? "gine"); reflexivity.
Qed.

Lemma make_conv_inv (i o : nat) (ed : option nat) (w w' : World)
    (r : result ConvLayer) :
  _make_conv i o ed w = (w', r) ->
  self w' = self w /\
  forall l, r = Ok l ->
    conv_in l = i /\ conv_out l = o /\
    layer_spec (conv_type (self w)) ed = Some (conv_class l, conv_edge_dim l).
Proof.
  unfold _make_conv, layer_spec. run_monad.
  repeat (destruct (conv_type (self w) ==? _);
          [intros H; inversion H; subst; simpl; split; [reflexivity|];
           intros l Hl; inversion Hl; subst; simpl; auto|]).
  destruct (conv_type (self w) ==? "gine").
  - destruct ed; intros H; inversion H; subst; simpl; (split; [reflexivity|]);
      intros l Hl; inversion Hl; subst; simpl; auto.
  - intros H; inversion H; subst. split; [reflexivity|]. discriminate.
Qed.

Lemma make_convs_inv (dims : list nat) (prev : nat) (ed : option nat)
    (w w' : World) (r : result (list ConvLayer)) :
  make_convs prev dims ed w = (w', r) ->
  self w' = self w /\
  forall layers, r = Ok layers ->
    chained prev dims layers /\
    Forall (fun l => layer_spec (conv_type (self w)) ed
                     = Some (conv_class l, conv_edge_dim l)) layers.
Proof.
  revert prev w w' r. induction dims as [|d dims IH]; intros prev w w' r; simpl.
  - unfold ret. intros H; inversion H; subst. split; [reflexivity|].
    intros layers Hl; inversion Hl; subst. simpl. auto.
  - unfold bind at 1.
    destruct (_make_conv prev d ed w) as [w1 [l|e]] eqn:E1.
    + destruct (make_conv_inv _ _ _ _ _ _ E1) as [Hs1 Hl1].
      destruct (Hl1 l eq_refl) as (Hi & Ho & Hsp).
      unfold bind at 1.
      destruct (make_convs d dims ed w1) as [w2 [ls|e]] eqn:E2.
      * destruct (IH _ _ _ _ E2) as [Hs2 Hl2].
        destruct (Hl2 ls eq_refl) as [Hch Hall].
        unfold ret. intros H; inversion H; subst.
        split; [congruence|].
        intros layers Hl; inversion Hl; subst. simpl.
        rewrite Hs1 in Hall. auto.
      * destruct (IH _ _ _ _ E2) as [Hs2 _].
        intros H; inversion H; subst. split; [congruence | discriminate].
    + destruct (make_conv_inv _ _ _ _ _ _ E1) as [Hs1 _].
      intros H; inversion H; subst. split; [assumption | discriminate].
Qed.

(** [_build_layers] either completes and installs a well-formed stack, or
    raises and leaves [self] as it was. *)
Lemma build_layers_inv (in_dim : nat) (edge_dim : option nat) (w : World) :
  let w' := fst (_build_layers in_dim edge_dim w) in
  (self w' = self w /\ is_ok (snd (_build_layers in_dim edge_dim w)) = false) \/
  (exists layers lin,
     self w' = set_built layers lin edge_dim (self w) /\
     chained in_dim (hidden_dims (self w)) layers /\
     Forall (fun l => layer_spec (conv_type (self w)) edge_dim
                      = Some (conv_class l, conv_edge_dim l)) layers /\
     in_features lin = list_sum (hidden_dims (self w)) /\
     out_features lin = out_dim (self w)).
Proof.
  cbv zeta. unfold _build_layers, bind, get_self.
  destruct (make_convs in_dim (hidden_dims (self w))
              (if conv_type (self w) ==? "gine" then edge_dim else None) w)
    as [w1 [layers|e]] eqn:E.
  - destruct (make_convs_inv _ _ _ _ _ _ E) as [Hs Hl].
    destruct (Hl layers eq_refl) as [Hch Hall].
    rewrite layer_spec_gine_only in Hall.
    right. run_monad. rewrite Hs. eexists _, _. split; [reflexivity|].
    simpl. auto.
  - destruct (make_convs_inv _ _ _ _ _ _ E) as [Hs _].
    left. simpl. auto.
Qed.

Lemma stack_ok_same (F : nat) (s s' : GNNBackbone) :
  same_config s s' -> same_build s s' -> stack_ok F s -> stack_ok F s'.
Proof.
  unfold same_config, same_build, stack_ok.
  intros (C1 & C2 & C3 & _) (B1 & B2 & B3 & B4) H Hb.
  rewrite B1, B2, B3, B4, C1, C2, C3 in *. auto.
Qed.

Lemma stack_ok_frozen (F : nat) (w w' : World) :
  evolves_gen Frozen w w' -> stack_ok F (self w) -> stack_ok F (self w').
Proof.
  intros [C _ _ _ _ _ _ _ Fr] H. destruct (Fr eq_refl) as (B & _).
  eapply stack_ok_same; eassumption.
Qed.

(** Sequencing for a property of the world. *)
Lemma bind_inv {A B} (P : World -> Prop) (c : M A) (k : A -> M B) (w : World) :
  P (fst (c w)) -> (forall a w1, P w1 -> P (fst (k a w1))) ->
  P (fst (bind c k w)).
Proof.
  intros Hc Hk. unfold bind. destruct (c w) as [w1 [a|e]]; simpl in *; auto.
Qed.

Section StackInvariant.
Context {L : TorchLib}.

Lemma ensure_built_stack_ok (F : nat) (x : Tensor) (ea : option Tensor)
    (w : World) :
  (forall d, size_last x = Ok d -> d = F) ->
  stack_ok F (self w) ->
  stack_ok F (self (fst (ensure_built x ea w))).
Proof.
  intros HF Hok. unfold ensure_built.
  unfold bind at 1. unfold get_self at 1.
  destruct (_built (self w)) eqn:Hb; simpl; [exact Hok|].
  unfold bind at 1. unfold lift at 1.
  destruct (size_last x) as [d|e] eqn:Ex; simpl; [|exact Hok].
  rewrite (HF d eq_refl).
  assert (Hbuild : forall ed w1, self w1 = self w ->
            stack_ok F (self (fst (_build_layers F ed w1)))).
  { intros ed w1 Hs1.
    destruct (build_layers_inv F ed w1) as [[Hs _] | (ls & lin & Hs & Hch & Hall & Hi & Ho)].
    - rewrite Hs, Hs1. exact Hok.
    - rewrite Hs. intros _. exists ls, lin. simpl. repeat split; assumption. }
  unfold bind at 1.
  destruct (conv_type (self w) ==? "gine").
  - destruct ea as [t|].
    + destruct (dim t =? 2).
      * unfold bind at 1, lift at 1.
        destruct (size_last t); simpl; [now apply Hbuild | exact Hok].
      * simpl. now apply Hbuild.
    + destruct (gine_missing_edge_policy (self w) ==? "zeros"); simpl;
        [now apply Hbuild | exact Hok].
  - simpl. now apply Hbuild.
Qed.

Lemma compose_stack_ok (F : nat) (inputs : Inputs) (w : World) :
  (forall d, size_last (in_x inputs) = Ok d -> d = F) ->
  stack_ok F (self w) ->
  stack_ok F (self (fst (compose inputs w))).
Proof.
  intros HF Hok. unfold compose.
  apply (bind_inv (fun w => stack_ok F (self w))).
  - now apply ensure_built_stack_ok.
  - intros u w1 H1. eapply stack_ok_frozen; [|exact H1].
    apply preserves_run_stack.
Qed.

Lemma prepare_inputs_x (data : Batch.t) (w w' : World) (inputs : Inputs) :
  _prepare_inputs data w = (w', Ok inputs) -> in_x inputs = Batch.x data.
Proof.
  unfold _prepare_inputs. run_monad.
  repeat match goal with
         | |- context [match ?c with _ => _ end] => destruct c; simpl
         end;
    intros H; inversion H; reflexivity.
Qed.

(** A [forward] call on a batch of node-feature width [F] keeps the build
    state well formed for [F] - and makes it so when it builds. *)
Lemma forward_stack_ok (F : nat) (data : Batch.t) (w : World) :
  (forall d, size_last (Batch.x data) = Ok d -> d = F) ->
  stack_ok F (self w) ->
  stack_ok F (self (fst (forward data w))).
Proof.
  intros HF Hok. unfold forward. unfold bind.
  destruct (_prepare_inputs data w) as [w1 [inputs|e]] eqn:E.
  - apply compose_stack_ok.
    + now rewrite (prepare_inputs_x _ _ _ _ E).
    + eapply stack_ok_frozen; [|exact Hok].
      pose proof (frozen_prepare_inputs data w) as H. now rewrite E in H.
  - simpl. eapply stack_ok_frozen; [|exact Hok].
    pose proof (frozen_prepare_inputs data w) as H. now rewrite E in H.
Qed.

End StackInvariant.

(* ------------------------------------------------------------------ *)
(** ** The layer stack is built once *)

Lemma chained_length (dims : list nat) (prev : nat) (layers : list ConvLayer) :
  chained prev dims layers -> List.length layers = List.length dims.
Proof.
  revert prev layers. induction dims as [|d dims IH]; intros prev [|l ls]; simpl;
    try tauto.
  intros (_ & _ & H). f_equal. eapply IH; eassumption.
Qed.

Lemma chained_outs (dims : list nat) (prev : nat) (layers : list ConvLayer) :
  chained prev dims layers -> map conv_out layers = dims.
Proof.
  revert prev layers. induction dims as [|d dims IH]; intros prev [|l ls]; simpl;
    try tauto.
  intros (_ & Ho & H). f_equal; [exact Ho | eapply IH; eassumption].
Qed.

Section BuiltOnce.
Context {L : TorchLib}.

Lemma ensure_built_ok_built (x : Tensor) (ea : option Tensor) (w w1 : World)
    (u : unit) :
  ensure_built x ea w = (w1, Ok u) -> _built (self w1) = true.
Proof.
  unfold ensure_built. unfold bind at 1. unfold get_self at 1.
  destruct (_built (self w)) eqn:Hb; simpl.
  - unfold ret. intros H; inversion H; subst. exact Hb.
  - assert (Hbuild : forall F ed w0,
              _build_layers F ed w0 = (w1, Ok u) -> _built (self w1) = true).
    { intros F ed w0 H.
      destruct (build_layers_inv F ed w0) as [[_ Hr] | (ls & lin & Hs & _)];
        rewrite H in *; simpl in *; [discriminate|].
      now rewrite Hs. }
    unfold bind at 1, lift at 1.
    destruct (size_last x) as [d|e]; [|discriminate].
    unfold bind at 1.
    destruct (conv_type (self w) ==? "gine").
    + destruct ea as [t|].
      * destruct (dim t =? 2).
        -- unfold bind at 1, lift at 1.
           destruct (size_last t); simpl; [apply Hbuild | discriminate].
        -- simpl. apply Hbuild.
      * destruct (gine_missing_edge_policy (self w) ==? "zeros"); simpl;
          [apply Hbuild | discriminate].
    + simpl. apply Hbuild.
Qed.

Lemma compose_ok_built (inputs : Inputs) (w : World) :
  is_ok (snd (compose inputs w)) = true ->
  _built (self (fst (compose inputs w))) = true.
Proof.
  unfold compose, bind.
  destruct (ensure_built (in_x inputs) (in_edge_attr inputs) w)
    as [w1 [u|e]] eqn:E; [|discriminate].
  intros _.
  destruct (preserves_run_stack Frozen inputs w1) as [_ _ _ _ _ _ _ _ Fr].
  destruct (Fr eq_refl) as ((Hb & _) & _).
  rewrite Hb. eapply ensure_built_ok_built; eassumption.
Qed.

(** A call that returns leaves the instance built. *)
Lemma forward_ok_built (data : Batch.t) (w : World) :
  is_ok (snd (forward data w)) = true ->
  _built (self (fst (forward data w))) = true.
Proof.
  unfold forward, bind.
  destruct (_prepare_inputs data w) as [w1 [inputs|e]]; [|discriminate].
  apply compose_ok_built.
Qed.

(** C2 (as amended).  The layer stack is built at most once, by the first
    [forward] call that gets as far as completing the lazy build - the
    first call, when that call returns.  When a call on a batch of
    node-feature width [F] leaves a so far unbuilt instance built, there is
    one layer per hidden width, the widths are chained from [F] along the
    hidden widths, and the readout takes the sum of the hidden widths;
    from then on, whatever batches later calls are given and whether or not
    they raise, the layer objects, the readout, the edge width, the hidden
    widths and the operator kind stay the same, no layer or readout is
    constructed and no object identity is allocated. *)
Theorem layer_stack_built_once (w : World) (data : Batch.t) (F : nat) :
  _built (self w) = false ->
  size_last (Batch.x data) = Ok F ->
  let w1 := fst (forward data w) in
  (is_ok (snd (forward data w)) = true -> _built (self w1) = true) /\
  (_built (self w1) = true ->
   (exists layers lin,
      convs (self w1) = Some layers /\
      readout (self w1) = Some lin /\
      List.length layers = List.length (hidden_dims (self w1)) /\
      chained F (hidden_dims (self w1)) layers /\
      map conv_out layers = hidden_dims (self w1) /\
      in_features lin = list_sum (hidden_dims (self w1))) /\
   forall datas,
     let w2 := forward_all datas w1 in
     _built (self w2) = true /\
     convs (self w2) = convs (self w1) /\
     readout (self w2) = readout (self w1) /\
     _edge_dim (self w2) = _edge_dim (self w1) /\
     hidden_dims (self w2) = hidden_dims (self w1) /\
     conv_type (self w2) = conv_type (self w1) /\
     next_id w2 = next_id w1 /\
     count_events is_make (log w2) = count_events is_make (log w1)).
Proof.
  intros Hb HF w1. split; [apply forward_ok_built|].
  intros Hb1. split.
  - assert (Hok : stack_ok F (self w1)).
    { apply forward_stack_ok.
      - intros d Hd. congruence.
      - intros Hb'. congruence. }
    destruct (Hok Hb1) as (layers & lin & Hc & Hr & Hch & _ & Hi & _).
    exists layers, lin. repeat split; try assumption.
    + eapply chained_length; eassumption.
    + eapply chained_outs; eassumption.
  - intros datas w2.
    destruct (evolves_forward_all datas w1)
      as [(Hct & Hhd & _) _ _ _ _ _ _ B _].
    destruct (B eq_refl Hb1) as ((B1 & B2 & B3 & B4) & Hid & Hmk).
    fold w2 in B1, B2, B3, B4, Hid, Hmk, Hct, Hhd.
    repeat split; congruence.
Qed.

End BuiltOnce.

(* ------------------------------------------------------------------ *)
(** ** Construction *)

Lemma prepare_unrecognized (w : World) (data : Batch.t) :
  recognized (conv_type (self w)) = false ->
  dim (Batch.x data) <> 0 ->
  _prepare_inputs data w =
  (after_edge_v_check w data,
   Ok (mkInputs (Batch.x data) (Batch.edge_index data) (Batch.edge_attr data)
         (Batch.edge_weight data) (batch_of data))).
Proof.
  intros Hct Hx.
  pose proof (recognized_false _ Hct) as (H1 & H2 & H3 & H4 & H5 & H6).
  unfold _prepare_inputs, after_edge_v_check, after_edge_v, edge_v_notices,
    batch_of, ignores_edges.
  destruct w as [s nid lg]. simpl in *. run_monad.
  destruct (is_some (Batch.edge_v data) && negb (_warned_edge_v_ignored s));
    simpl; rewrite H1, H2, H3, H4, H5, H6; simpl;
    destruct (Batch.batch data); simpl;
    rewrite ?(size_first_ok _ Hx); simpl;
    rewrite ?app_nil_r; reflexivity.
Qed.

Section Construction.
Context {L : TorchLib}.

(** C1 (as amended).  The constructor does not look at the operator kind:
    with a hidden-width list it succeeds for an unrecognised kind too, and
    leaves the instance unbuilt.  The kind is rejected by the lazy build:
    on such an instance (with at least one hidden width) every [forward]
    call on a batch with node features raises [ValueError] "Unsupported
    conv_type" before any layer is constructed or run, and the instance
    stays unbuilt. *)
Theorem unrecognized_kind_rejected_at_build (ct : string) :
  recognized (lower ct) = false ->
  (forall hd od dp rl gm pol kw l,
     snd (resolve_hidden_dims hd kw) = Some l ->
     exists s,
       snd (__init__ ct hd od dp rl gm pol kw) = Ok s /\
       conv_type s = lower ct /\ hidden_dims s = l /\
       _built s = false /\ convs s = None) /\
  (forall (w : World) (data : Batch.t),
     conv_type (self w) = lower ct ->
     _built (self w) = false ->
     hidden_dims (self w) <> [] ->
     dim (Batch.x data) <> 0 ->
     forward data w =
     (after_edge_v_check w data,
      Raise (ValueError ("Unsupported conv_type: " ++ lower ct))) /\
     _built (self (after_edge_v_check w data)) = false /\
     convs (self (after_edge_v_check w data)) = convs (self w) /\
     count_events is_make (log (after_edge_v_check w data))
     = count_events is_make (log w) /\
     count_events is_conv_call (log (after_edge_v_check w data))
     = count_events is_conv_call (log w)).
Proof.
  intros Hct. split.
  - intros hd od dp rl gm pol kw l Hl. unfold __init__.
    destruct (resolve_hidden_dims hd kw) as [ns o]. simpl in Hl. subst o.
    eexists. split; [reflexivity|]. simpl. auto.
  - intros w data Hw Hb Hhd Hx.
    destruct (after_edge_v_fields (self w) data)
      as ((Hc1 & Hc2 & _ & _ & _ & _ & Hc7) & (Hb1 & Hb2 & _) & _).
    split; [|split; [|split; [|split]]].
    + unfold forward. unfold bind at 1.
      rewrite prepare_unrecognized by (rewrite ?Hw; assumption).
      set (w1 := after_edge_v_check w data).
      assert (Hct1 : conv_type (self w1) = lower ct)
        by (unfold w1, after_edge_v_check; cbn [self]; congruence).
      assert (Hb3 : _built (self w1) = false)
        by (unfold w1, after_edge_v_check; cbn [self]; congruence).
      assert (Hhd3 : hidden_dims (self w1) <> [])
        by (unfold w1, after_edge_v_check; cbn [self]; congruence).
      pose proof (recognized_false _ Hct) as (_ & _ & _ & _ & _ & Hg).
      destruct (size_last_ok _ Hx) as [d Hd].
      unfold compose. unfold bind at 1. cbn [in_x in_edge_attr].
      unfold ensure_built. unfold bind at 1. unfold get_self at 1.
      rewrite Hb3. cbn [negb]. unfold bind at 1. unfold lift at 1.
      rewrite Hd. unfold bind at 1. rewrite Hct1, Hg. unfold ret at 1.
      unfold _build_layers. unfold bind at 1. unfold get_self at 1.
      unfold bind at 1.
      destruct (hidden_dims (self w1)) as [|h hs] eqn:Eh; [congruence|].
      cbn [make_convs]. unfold bind at 1.
      rewrite make_conv_unsupported by (rewrite Hct1; exact Hct).
      now rewrite Hct1.
    + simpl. congruence.
    + simpl. congruence.
    + unfold after_edge_v_check, edge_v_notices; simpl.
      rewrite count_events_app.
      destruct (_ && _); unfold count_events; simpl; lia.
    + unfold after_edge_v_check, edge_v_notices; simpl.
      rewrite count_events_app.
      destruct (_ && _); unfold count_events; simpl; lia.
Qed.

(** C4 (as amended).  The constructor raises - a [ValueError] - exactly
    when no hidden-width list reaches it under either name: [hidden_dims]
    is [None] and the legacy keyword [dims] is absent or [None].  A list
    given through [dims] while [hidden_dims] is [None] is used, with a
    deprecation warning.  The length of the list is not examined. *)
Theorem init_raises_iff_no_hidden_dims (ct : string)
    (hd : option (list nat)) (od : nat) (dp : Q) (rl : bool)
    (gm pol : string) (kw : kwargs) :
  ((exists e, snd (__init__ ct hd od dp rl gm pol kw) = Raise e) <->
   hd = None /\ (kw_get "dims" kw = None \/ kw_get "dims" kw = Some None)) /\
  (forall e, snd (__init__ ct hd od dp rl gm pol kw) = Raise e ->
             exists msg, e = ValueError msg) /\
  (forall l, hd = None -> kw_get "dims" kw = Some (Some l) ->
             exists s, __init__ ct hd od dp rl gm pol kw
                       = ([DimsDeprecated], Ok s) /\ hidden_dims s = l) /\
  (forall l, hd = Some l ->
             exists s, __init__ ct hd od dp rl gm pol kw = ([], Ok s) /\
                       hidden_dims s = l).
Proof.
  unfold __init__, resolve_hidden_dims.
  destruct hd as [l|]; [|destruct (kw_get "dims" kw) as [[l|]|]]; simpl.
  all: split; [split; [intros [e He]; discriminate || auto
                      | intros [H1 H2]; try discriminate;
                        try (destruct H2; discriminate); eauto]|].
  all: split; [intros e He; inversion He; eauto|].
  all: split; intros l' H; try discriminate; try intros H';
       try discriminate; try (inversion H; subst); try (inversion H'; subst);
       eexists; split; reflexivity.
Qed.

End Construction.

(** C1, refuted as stated: constructing a backbone of the unknown kind
    ["transformer"] succeeds. *)
Lemma unrecognized_kind_is_constructed :
  recognized (lower "transformer") = false /\
  exists s,
    __init__ "transformer" (Some [64; 64]) 1 (3 # 10)%Q false "auto" "error" []
    = ([], Ok s).
Proof. split; [reflexivity | eexists; reflexivity]. Qed.

(** C4, refuted as stated: an empty hidden-width list is accepted, and so
    is a missing [hidden_dims] when the legacy [dims] is given. *)
Lemma empty_hidden_dims_is_constructed :
  (exists s, __init__ "gcn" (Some []) 1 (3 # 10)%Q false "auto" "error" []
             = ([], Ok s) /\ hidden_dims s = []) /\
  (exists s, __init__ "gcn" None 1 (3 # 10)%Q false "auto" "error"
               [("dims", Some [64])]
             = ([DimsDeprecated], Ok s) /\ hidden_dims s = [64]).
Proof. split; eexists; split; reflexivity. Qed.

Lemma unrecognized_kind_rejected_at_build_witness :
  (exists s,
     snd (__init__ "Transformer" (Some [4; 5]) 2 (3 # 10)%Q false "auto" "error" [])
     = Ok s /\
     conv_type s = "transformer" /\ hidden_dims s = [4; 5] /\
     _built s = false /\ convs s = None) /\
  (let w := new_world [] (sample_instance "transformer" "error") in
   @forward ZerosLib batch_with_attr w =
   (after_edge_v_check w batch_with_attr,
    Raise (ValueError "Unsupported conv_type: transformer"))).
Proof.
  pose proof (@unrecognized_kind_rejected_at_build ZerosLib "Transformer" eq_refl)
    as [H1 H2].
  split.
  - apply (H1 (Some [4; 5]) 2 (3 # 10)%Q false "auto" "error" [] [4; 5] eq_refl).
  - apply (H2 (new_world [] (sample_instance "transformer" "error"))
              batch_with_attr eq_refl eq_refl);
      [discriminate | discriminate].
Defined.

(** C2, refuted as stated: on a [gine] instance under the fail policy, a
    first call on a batch without [edge_attr] raises and builds nothing; the
    second call, on a batch of the same node-feature width that carries
    [edge_attr], builds the stack.  The stack after the first call is not
    the stack after the second. *)
Lemma stack_not_always_built_by_first_call :
  let w0 := new_world [] (sample_instance "gine" "error") in
  let w1 := fst (@forward ZerosLib batch_without_attr w0) in
  let w2 := fst (@forward ZerosLib batch_with_attr w1) in
  size_last (Batch.x batch_without_attr) = size_last (Batch.x batch_with_attr) /\
  _built (self w1) = false /\ convs (self w1) = None /\
  _built (self w2) = true /\ convs (self w2) <> convs (self w1).
Proof. vm_compute. repeat split; discriminate. Qed.

Lemma layer_stack_built_once_witness :
  let w := new_world [] (sample_instance "gcn" "error") in
  let w1 := fst (@forward ZerosLib batch_with_attr w) in
  _built (self w1) = true /\
  forall datas,
    let w2 := @forward_all ZerosLib datas w1 in
    _built (self w2) = true /\
    convs (self w2) = convs (self w1) /\
    readout (self w2) = readout (self w1) /\
    _edge_dim (self w2) = _edge_dim (self w1) /\
    hidden_dims (self w2) = hidden_dims (self w1) /\
    conv_type (self w2) = conv_type (self w1) /\
    next_id w2 = next_id w1 /\
    count_events is_make (log w2) = count_events is_make (log w1).
Proof.
  intros w w1.
  pose proof (@layer_stack_built_once ZerosLib w batch_with_attr 3
                eq_refl eq_refl) as [H1 H2].
  split; [exact (H1 eq_refl)|].
  exact (proj2 (H2 (H1 eq_refl))).
Defined.

(** C3, refuted as stated: the failing call does change the instance when
    the batch carries [edge_v] (the one-time notice is emitted and its flag
    set before the check raises), and it does not leave unbuilt an instance
    that an earlier call had built. *)
Lemma failed_gine_call_changes_state :
  (let w0 := new_world [] (sample_instance "gine" "error") in
   let r := @forward ZerosLib (sample_batch None (Some (Vec [1; 2]%Q))) w0 in
   is_ok (snd r) = false /\
   self (fst r) <> self w0 /\
   _warned_edge_v_ignored (self (fst r)) = true /\
   log (fst r) = [Warn EdgeVIgnored]) /\
  (let w0 := new_world [] (sample_instance "gine" "error") in
   let w1 := fst (@forward ZerosLib batch_with_attr w0) in
   let r := @forward ZerosLib batch_without_attr w1 in
   is_ok (snd r) = false /\ _built (self (fst r)) = true).
Proof. vm_compute. repeat split; discriminate. Qed.

Lemma gine_missing_edge_attr_raises_witness :
  (let w := new_world [] (sample_instance "gine" "error") in
   @forward ZerosLib batch_without_attr w =
   (w, Raise (ValueError "GINE needs edge_attr, or gine_missing_edge_policy='zeros'"))) /\
  (let w := new_world [] (sample_instance "gine" "error") in
   _built (self (fst (@forward ZerosLib batch_without_attr w))) = false /\
   exists w2 out,
     @forward ZerosLib batch_with_attr (fst (@forward ZerosLib batch_without_attr w))
     = (w2, Ok out) /\
     _built (self w2) = true).
Proof.
  pose proof (@gine_missing_edge_attr_raises ZerosLib) as [H1 H2].
  split.
  - exact (proj1 (H1 (new_world [] (sample_instance "gine" "error"))
                    batch_without_attr eq_refl eq_refl eq_refl)).
  - apply (H2 (new_world [] (sample_instance "gine" "error"))
              batch_without_attr batch_with_attr (Mat 1 [[1]; [2]]%Q)
              eq_refl eq_refl eq_refl);
      [discriminate | reflexivity | reflexivity | reflexivity | reflexivity].
Defined.

(* ------------------------------------------------------------------ *)
(** ** Operators that ignore edge attributes *)

Lemma ignores_edges_cases (ct : string) :
  ignores_edges ct = true ->
  ct = "gat" \/ ct = "gatv2" \/ ct = "sage" \/ ct = "gin".
Proof.
  unfold ignores_edges. rewrite !orb_true_iff, !String.eqb_eq. tauto.
Qed.

Lemma layer_spec_ignoring (ct : string) :
  ignores_edges ct = true ->
  (ct ==? "gine") = false /\
  exists c,
    (forall ed, layer_spec ct ed = Some (c, None)) /\
    (forall ea ew, edge_arg_for c ea ew = NoEdgeArg).
Proof.
  intros H. destruct (ignores_edges_cases _ H) as [ -> | [ -> | [ -> | -> ]]];
    (split; [reflexivity|]); eexists; split; reflexivity.
Qed.

Lemma prepare_ignoring (w : World) (data : Batch.t) :
  ignores_edges (conv_type (self w)) = true ->
  dim (Batch.x data) <> 0 ->
  _prepare_inputs data w =
  (after_ignored_check w data, Ok (inputs_without_attr data)).
Proof.
  intros Hct Hx.
  unfold _prepare_inputs, after_ignored_check, after_edge_v_check,
    after_edge_v, edge_v_notices, inputs_without_attr, batch_of.
  destruct w as [s nid lg]. cbn [self next_id log] in *.
  destruct (ignores_edges_cases _ Hct) as [E|[E|[E|E]]];
    run_monad;
    destruct (is_some (Batch.edge_v data) && negb (_warned_edge_v_ignored s));
    simpl; rewrite ?E; simpl;
    destruct (is_some (Batch.edge_attr data) && negb (_warned_edge_ignored s));
    simpl; rewrite ?E; simpl;
    destruct (Batch.batch data); simpl;
    rewrite ?(size_first_ok _ Hx); simpl;
    rewrite ?app_nil_r; reflexivity.
Qed.

Section Ignoring.
Context {L : TorchLib}.

(** Every layer of class [c] is called with the argument of that class. *)
Lemma conv_calls_args (c : ConvClass) (p : Q) (layers : list ConvLayer)
    (h : Tensor) (ei : EdgeIndex) (ea ew : option Tensor) :
  Forall (fun l => conv_class l = c) layers ->
  Forall (fun e => call_arg e = Some (edge_arg_for c ea ew))
    (conv_calls p layers h ei ea ew).
Proof.
  revert h. induction layers as [|l ls IH]; intros h Hall; simpl; constructor.
  - inversion Hall; subst. simpl. congruence.
  - inversion Hall; subst. now apply IH.
Qed.

Lemma conv_calls_all_calls (p : Q) (layers : list ConvLayer)
    (h : Tensor) (ei : EdgeIndex) (ea ew : option Tensor) :
  filter is_conv_call (conv_calls p layers h ei ea ew)
  = conv_calls p layers h ei ea ew.
Proof.
  revert h. induction layers as [|l ls IH]; intros h; simpl; [reflexivity|].
  now rewrite IH.
Qed.

Lemma conv_calls_length (p : Q) (layers : list ConvLayer)
    (h : Tensor) (ei : EdgeIndex) (ea ew : option Tensor) :
  List.length (conv_calls p layers h ei ea ew) = List.length layers.
Proof. revert h. induction layers; intros; simpl; auto. Qed.

(** One [forward] call of an operator that ignores edge attributes, in
    closed form. *)
Lemma forward_ignoring (w : World) (data : Batch.t) (F : nat) :
  ignores_edges (conv_type (self w)) = true ->
  size_last (Batch.x data) = Ok F ->
  stack_ok F (self w) ->
  let wb := settled (after_ignored_check w data) F in
  exists lin,
    readout (self wb) = Some lin /\
    _built (self wb) = true /\
    forward data w =
    (mkWorld (self wb) (next_id wb)
       (log wb ++ calls_of (self wb) (layers_of (self wb))
                    (inputs_without_attr data)),
     compose_value (self wb) (layers_of (self wb)) lin
       (inputs_without_attr data)).
Proof.
  intros Hct HF Hok wb.
  assert (Hx : dim (Batch.x data) <> 0)
    by (destruct (Batch.x data); simpl in *; congruence).
  unfold forward. unfold bind at 1.
  rewrite (prepare_ignoring w data Hct Hx).
  set (wp := after_ignored_check w data) in *.
  assert (Hs : same_config (self w) (self wp) /\ same_build (self w) (self wp)).
  { unfold wp, after_ignored_check, after_edge_v_check.
    destruct (after_edge_v_fields (self w) data) as (C & B & _).
    cbn [self]. destruct (_ && _); cbn [self]; [|auto].
    unfold same_config, same_build in *; simpl; auto. }
  destruct Hs as [(C1 & C2 & C3 & C4 & C5 & C6 & C7) (B1 & B2 & B3 & B4)].
  assert (Hctp : ignores_edges (conv_type (self wp)) = true) by congruence.
  unfold settled in wb.
  destruct (_built (self wp)) eqn:Hb.
  - assert (Hokp : stack_ok F (self wp)).
    { eapply stack_ok_same; [| |exact Hok];
        unfold same_config, same_build; repeat split; congruence. }
    destruct (Hokp Hb) as (layers & lin & Hc & Hr & _).
    exists lin. split; [exact Hr|]. split; [exact Hb|].
    unfold wb, layers_of. rewrite Hc.
    now apply compose_built.
  - destruct (layer_spec_ignoring _ Hctp) as (Hg & c & Hls & _).
    unfold wb. rewrite (Hls None).
    eexists. split; [reflexivity|]. split; [reflexivity|].
    rewrite (compose_unbuilt (inputs_without_attr data) wp F c None).
    + unfold inferred_edge_dim. rewrite Hg. reflexivity.
    + exact Hb.
    + exact HF.
    + rewrite Hg. reflexivity.
    + apply Hls.
Qed.

End Ignoring.

Lemma shape_zeros (E D : nat) : shape (zeros E D) = [E; D].
Proof. unfold zeros; simpl. now rewrite repeat_length. Qed.

Lemma shape_rank2 (t : Tensor) (N d : nat) :
  shape t = [N; d] -> nrows t = N /\ width t = d.
Proof. destruct t; simpl; intros H; inversion H; auto. Qed.

(** The stand-in honours the shape contract. *)
Lemma ZerosLib_shapes : TorchLibShapes ZerosLib.
Proof.
  constructor; simpl; intros.
  - apply shape_rank2 in H as [-> _]. apply shape_zeros.
  - reflexivity.
  - reflexivity.
  - inversion H as [|? ? [d Hd] _]; subst.
    apply shape_rank2 in Hd as [-> _]. apply shape_zeros.
  - apply shape_rank2 in H as [_ ->]. apply shape_zeros.
  - apply shape_rank2 in H as [-> _]. apply shape_zeros.
Qed.

Lemma filter_make_convs (layers : list ConvLayer) :
  filter is_conv_call (map MakeConv layers) = [].
Proof. induction layers; simpl; auto. Qed.

Lemma not_calls_make_convs (layers : list ConvLayer) :
  Forall (fun e => is_conv_call e = false) (map MakeConv layers).
Proof. induction layers; simpl; constructor; auto. Qed.

Section Shapes.
Context {L : TorchLib} {LS : TorchLibShapes L}.

Lemma layer_out_shape (p : Q) (l : ConvLayer) (h : Tensor) (ei : EdgeIndex)
    (ea ew : option Tensor) (N : nat) :
  shape h = [N; conv_in l] ->
  shape (layer_out p l h ei ea ew) = [N; conv_out l].
Proof.
  intros H. unfold layer_out.
  rewrite dropout_shape, act_shape. now apply conv_shape.
Qed.

Lemma conv_outs_shapes (p : Q) (dims : list nat) (layers : list ConvLayer)
    (F N : nat) (h : Tensor) (ei : EdgeIndex) (ea ew : option Tensor) :
  chained F dims layers ->
  shape h = [N; F] ->
  Forall (fun o => exists d, shape o = [N; d]) (conv_outs p layers h ei ea ew) /\
  map width (conv_outs p layers h ei ea ew) = dims.
Proof.
  revert layers F h. induction dims as [|d dims IH]; intros [|l ls] F h; simpl;
    try tauto.
  - intros _ _. split; [constructor | reflexivity].
  - intros (Hi & Ho & Hch) Hh.
    assert (Hs : shape (layer_out p l h ei ea ew) = [N; d]).
    { rewrite <- Ho. apply layer_out_shape. now rewrite Hi. }
    destruct (IH ls d _ Hch Hs) as [Hall Hw].
    split.
    + constructor; [eauto | exact Hall].
    + rewrite Hw. f_equal. now apply shape_rank2 in Hs as [_ ->].
Qed.

(** The output of one call on a well-formed stack has the documented
    shape. *)
Lemma compose_value_shape (s : GNNBackbone) (layers : list ConvLayer)
    (lin : Linear) (inputs : Inputs) (F N : nat) :
  chained F (hidden_dims s) layers ->
  hidden_dims s <> [] ->
  shape (in_x inputs) = [N; F] ->
  in_features lin = list_sum (hidden_dims s) ->
  out_features lin = out_dim s ->
  exists out,
    compose_value s layers lin inputs = Ok out /\
    shape out = if residue_logits s then [N; out_dim s]
                else [num_graphs (in_batch inputs); out_dim s].
Proof.
  intros Hch Hne Hx Hi Ho. unfold compose_value.
  destruct (conv_outs_shapes (dropout_p s) _ _ F N (in_x inputs)
              (in_edge_index inputs) (effective_edge_attr s inputs)
              (in_edge_weight inputs) Hch Hx) as [Hall Hw].
  destruct (conv_outs _ _ _ _ _ _) as [|o outs'].
  - simpl in Hw. congruence.
  - assert (Hcat : shape (cat_last o outs') = [N; in_features lin]).
    { rewrite (cat_shape o outs' N Hall), Hw. congruence. }
    destruct (residue_logits s).
    + eexists. split; [reflexivity|].
      rewrite <- Ho. now apply linear_shape.
    + eexists. split; [reflexivity|].
      rewrite <- Ho. apply linear_shape.
      now apply pool_shape with (N := N).
Qed.

End Shapes.

Section NonInterference.
Context {L : TorchLib}.

Lemma compose_value_ext (s s' : GNNBackbone) (layers : list ConvLayer)
    (lin : Linear) (inputs : Inputs) :
  same_config s s' -> _edge_dim s' = _edge_dim s ->
  compose_value s' layers lin inputs = compose_value s layers lin inputs /\
  calls_of s' layers inputs = calls_of s layers inputs.
Proof.
  intros (C1 & _ & _ & C4 & C5 & _ & C7) E.
  unfold compose_value, calls_of, effective_edge_attr.
  now rewrite C1, C4, C5, C7, E.
Qed.

Lemma similar_after_ignored (w : World) (data : Batch.t) (ea' : option Tensor) :
  similar (after_ignored_check w data)
          (after_ignored_check w (with_edge_attr data ea')).
Proof.
  unfold similar, after_ignored_check, after_edge_v_check, with_edge_attr,
    after_edge_v, edge_v_notices, same_config, same_build, conv_calls_in.
  cbn [Batch.edge_attr Batch.edge_v self next_id log].
  destruct (is_some (Batch.edge_v data) && negb (_warned_edge_v_ignored (self w)));
    cbn [_warned_edge_ignored set_warned_edge_v_ignored];
    destruct (is_some (Batch.edge_attr data) && negb (_warned_edge_ignored (self w)));
    destruct (is_some ea' && negb (_warned_edge_ignored (self w)));
    simpl; rewrite ?filter_app; simpl; rewrite ?app_nil_r;
    repeat split; reflexivity.
Qed.

Lemma similar_settled (u u' : World) (F : nat) :
  similar u u' -> similar (settled u F) (settled u' F).
Proof.
  intros ((C1 & C2 & C3 & C4 & C5 & C6 & C7) & (B1 & B2 & B3 & B4) & N & Lg).
  unfold settled. rewrite B1, C1.
  destruct (_built (self u)) eqn:Hb.
  - unfold similar, same_config, same_build. repeat split; congruence.
  - destruct (layer_spec (conv_type (self u)) None) as [[c ed']|].
    + unfold similar, same_config, same_build, built_world, conv_calls_in in *.
      cbn [self next_id log]. rewrite N, C2, C3.
      simpl. rewrite !filter_app, !filter_make_convs. simpl.
      rewrite Lg. repeat split; congruence.
    + unfold similar, same_config, same_build. repeat split; congruence.
Qed.

Lemma settled_log (w : World) (data : Batch.t) (F : nat) :
  exists pre,
    log (settled (after_ignored_check w data) F) = log w ++ pre /\
    Forall (fun e => is_conv_call e = false) pre.
Proof.
  assert (H1 : exists pre,
            log (after_ignored_check w data) = log w ++ pre /\
            Forall (fun e => is_conv_call e = false) pre).
  { unfold after_ignored_check, after_edge_v_check, edge_v_notices.
    cbn [self log].
    destruct (is_some (Batch.edge_v data) && _);
      destruct (is_some (Batch.edge_attr data) && _);
      cbn [log]; rewrite <- ?app_assoc;
      eexists; (split; [reflexivity|]); repeat constructor. }
  destruct H1 as (pre & Hl & Hp).
  unfold settled. destruct (_built _); [eauto|].
  destruct (layer_spec _ None) as [[c ed']|]; [|eauto].
  unfold built_world. cbn [log]. rewrite Hl, <- app_assoc.
  eexists. split; [reflexivity|].
  apply Forall_app. split; [exact Hp|].
  apply Forall_app. split; [apply not_calls_make_convs | repeat constructor].
Qed.

End NonInterference.

Section EdgeBlind.
Context {L : TorchLib} {LS : TorchLibShapes L}.

(** C8.  For an operator kind that ignores edge attributes ([gat],
    [gatv2], [sage], [gin]), an instance with at least one hidden width
    that is unbuilt or was built for node features of width [F], and a
    batch whose node features have shape [[N, F]] - with or without
    [edge_attr] - [forward] returns; the output has shape [[B, out_dim]]
    at graph level ([[N, out_dim]] at node level); one layer per hidden
    width is invoked and none is handed an edge argument; and replacing the
    [edge_attr] field of the batch by anything else changes neither the
    output, nor the layer invocations (layer, node features, edges,
    argument), nor the layers and the readout of the instance. *)
Theorem edge_attr_ignored_by_edge_blind_kinds (w : World) (data : Batch.t)
    (ea' : option Tensor) (F : nat) (rows : list (list Q)) :
  ignores_edges (conv_type (self w)) = true ->
  Batch.x data = Mat F rows ->
  stack_ok F (self w) ->
  hidden_dims (self w) <> [] ->
  let r := forward data w in
  let r' := forward (with_edge_attr data ea') w in
  (exists out,
     snd r = Ok out /\
     shape out = if residue_logits (self w)
                 then [List.length rows; out_dim (self w)]
                 else [num_graphs (batch_of data); out_dim (self w)]) /\
  (exists evs,
     log (fst r) = log w ++ evs /\
     count_events is_conv_call evs = List.length (hidden_dims (self w)) /\
     Forall (fun e => is_conv_call e = true -> call_arg e = Some NoEdgeArg) evs) /\
  snd r' = snd r /\
  conv_calls_in (log (fst r')) = conv_calls_in (log (fst r)) /\
  convs (self (fst r')) = convs (self (fst r)) /\
  readout (self (fst r')) = readout (self (fst r)).
Proof.
  intros Hct Hx Hok Hne r r'.
  assert (HF : size_last (Batch.x data) = Ok F) by (rewrite Hx; reflexivity).
  assert (HF' : forall d, size_last (Batch.x data) = Ok d -> d = F)
    by (intros d Hd; congruence).
  pose proof (forward_stack_ok F data w HF' Hok) as Hok1.
  destruct (preserves_forward data w) as [(C1 & C2 & C3 & C4 & C5 & _) _ _ _ _ _ _ _ _].
  destruct (forward_ignoring w data F Hct HF Hok) as (lin & Hr & Hb & E).
  destruct (forward_ignoring w (with_edge_attr data ea') F Hct HF Hok)
    as (lin' & Hr' & Hb' & E').
  change (inputs_without_attr (with_edge_attr data ea'))
    with (inputs_without_attr data) in E'.
  set (wb := settled (after_ignored_check w data) F) in *.
  set (wb' := settled (after_ignored_check w (with_edge_attr data ea')) F) in *.
  assert (Hsim : similar wb wb').
  { apply similar_settled, similar_after_ignored. }
  destruct Hsim as (SC & (_ & SB2 & SB3 & SB4) & SN & SL).
  fold r in E, C1, C2, C3, C5, Hok1. fold r' in E'.
  assert (Hs1 : self (fst r) = self wb) by (rewrite E; reflexivity).
  rewrite Hs1 in Hok1, C1, C2, C3, C5.
  destruct (Hok1 Hb) as (layers & lin0 & Hc & Hr0 & Hch & Hall & Hi & Ho).
  rewrite Hr in Hr0. injection Hr0 as <-.
  assert (Hl : layers_of (self wb) = layers) by (unfold layers_of; now rewrite Hc).
  assert (Hl' : layers_of (self wb') = layers)
    by (unfold layers_of; now rewrite SB2, Hc).
  assert (Hlin : lin' = lin) by congruence. subst lin'.
  rewrite Hl in E. rewrite Hl' in E'.
  destruct (compose_value_ext (self wb) (self wb') layers lin
              (inputs_without_attr data) SC SB4) as [EV EC].
  rewrite EV, EC in E'.
  split; [|split; [|split; [|split; [|split]]]].
  - destruct (compose_value_shape (self wb) layers lin
                (inputs_without_attr data) F (List.length rows))
      as (out & Hout & Hsh); try assumption.
    + congruence.
    + simpl. now rewrite Hx.
    + exists out. rewrite E. simpl. split; [exact Hout|].
      rewrite Hsh, C3, C5. reflexivity.
  - destruct (settled_log w data F) as (pre & Hpre & Hnc). fold wb in Hpre.
    exists (pre ++ calls_of (self wb) layers (inputs_without_attr data)).
    rewrite E. cbn [fst log]. rewrite Hpre, <- app_assoc.
    split; [reflexivity|]. split.
    + rewrite count_events_app. unfold count_events, calls_of.
      rewrite conv_calls_all_calls, conv_calls_length.
      rewrite (chained_length _ _ _ Hch), C2.
      assert (Hz : filter is_conv_call pre = []).
      { clear - Hnc. induction Hnc as [|e l He _ IH]; simpl; [reflexivity|].
        now rewrite He. }
      now rewrite Hz.
    + apply Forall_app. split.
      * eapply Forall_impl; [|exact Hnc]. intros e He Hc'. congruence.
      * rewrite <- C1 in Hct.
        destruct (layer_spec_ignoring _ Hct) as (_ & c & Hls & Harg).
        assert (Hcls : Forall (fun l => conv_class l = c) layers).
        { eapply Forall_impl; [|exact Hall]. intros l Hl0.
          rewrite Hls in Hl0. congruence. }
        unfold calls_of.
        eapply Forall_impl;
          [|apply (conv_calls_args c); exact Hcls].
        intros e He _. rewrite He. now rewrite Harg.
  - rewrite E, E'. reflexivity.
  - rewrite E, E'. cbn [fst log]. unfold conv_calls_in in *.
    rewrite !filter_app. now rewrite SL.
  - rewrite E, E'. cbn [fst self]. congruence.
  - rewrite E, E'. cbn [fst self]. congruence.
Qed.

End EdgeBlind.

Lemma edge_attr_ignored_by_edge_blind_kinds_witness :
  let w := new_world [] (sample_instance "sage" "error") in
  let r := @forward ZerosLib batch_with_attr w in
  let r' := @forward ZerosLib batch_without_attr w in
  (exists out, snd r = Ok out /\ shape out = [1; 2]) /\
  snd r' = snd r /\
  conv_calls_in (log (fst r')) = conv_calls_in (log (fst r)).
Proof.
  intros w r r'.
  pose proof (@edge_attr_ignored_by_edge_blind_kinds ZerosLib ZerosLib_shapes
                w batch_with_attr None 3 [[1; 0; 2]; [0; 1; 1]]%Q
                eq_refl eq_refl
                (fun H : _built (self w) = true =>
                   False_ind _ (Bool.diff_false_true H))
                ltac:(discriminate))
    as (H1 & _ & H3 & H4 & _).
  split; [exact H1 | split; [exact H3 | exact H4]].
Defined.

(* ------------------------------------------------------------------ *)
(** ** GINE: a one-dimensional edge attribute *)

Section GinePassThrough.
Context {L : TorchLib}.

(** On an unbuilt [gine] instance, a batch that carries [edge_attr] has
    that very tensor handed to every layer, whatever its rank. *)
Lemma gine_edge_attr_handed_as_is (w : World) (data : Batch.t) (ea : Tensor) :
  conv_type (self w) = "gine" ->
  _built (self w) = false ->
  Batch.edge_attr data = Some ea ->
  dim (Batch.x data) <> 0 ->
  exists evs,
    log (fst (forward data w)) = log w ++ evs /\
    count_events is_conv_call evs = List.length (hidden_dims (self w)) /\
    Forall (fun e => is_conv_call e = true ->
                     call_arg e = Some (EdgeAttrArg (Some ea))) evs.
Proof.
  intros Hct Hb Hea Hx.
  unfold forward. unfold bind at 1.
  rewrite (prepare_gine_present w data ea Hct Hea Hx).
  set (w1 := after_edge_v_check w data).
  destruct (after_edge_v_fields (self w) data)
    as ((C1 & C2 & _) & (B1 & _) & _).
  assert (Hct1 : conv_type (self w1) = "gine")
    by (unfold w1, after_edge_v_check; cbn [self]; congruence).
  assert (Hb1 : _built (self w1) = false)
    by (unfold w1, after_edge_v_check; cbn [self]; congruence).
  assert (Hh1 : hidden_dims (self w1) = hidden_dims (self w))
    by (unfold w1, after_edge_v_check; cbn [self]; congruence).
  destruct (size_last_ok _ Hx) as [d Hd].
  set (ed := Some (if dim ea =? 2 then width ea else 1)).
  rewrite (compose_unbuilt _ w1 d GINEConv ed);
    [ | exact Hb1 | exact Hd | cbn; now rewrite andb_false_r
      | unfold inferred_edge_dim, layer_spec; rewrite Hct1; reflexivity ].
  cbn [fst log built_world self next_id in_edge_attr].
  unfold w1 at 1, after_edge_v_check at 1. cbn [log].
  rewrite <- !app_assoc.
  eexists. split; [reflexivity|].
  unfold calls_of, effective_edge_attr.
  cbn [in_edge_attr is_some negb andb set_built conv_type].
  rewrite andb_false_r. cbn [andb].
  split.
  - rewrite !count_events_app. unfold count_events at 3 4.
    rewrite conv_calls_all_calls, conv_calls_length, stack_of_length.
    assert (Z1 : count_events is_conv_call (edge_v_notices (self w) data) = 0)
      by (unfold edge_v_notices; destruct (_ && _); reflexivity).
    assert (Z2 : forall ls, count_events is_conv_call (map MakeConv ls) = 0)
      by (intros ls; unfold count_events; now rewrite filter_make_convs).
    rewrite Z1, Z2, Hh1. simpl. lia.
  - repeat (apply Forall_app; split).
    + unfold edge_v_notices. destruct (_ && _); repeat constructor; discriminate.
    + eapply Forall_impl; [|apply not_calls_make_convs]. intros e He H. congruence.
    + repeat constructor. discriminate.
    + eapply Forall_impl;
        [|apply (conv_calls_args GINEConv);
          eapply Forall_impl; [|apply stack_of_class]; intros l [Hl _]; exact Hl].
      intros e He _. exact He.
Qed.

End GinePassThrough.

(** C6, where the code departs from it: a [gine] instance is given a batch
    of two edges whose [edge_attr] is the one-dimensional tensor [[1, 2]]
    (shape [[2]]).  The lazy build takes the edge width to be 1, and both
    layers are built with [edge_dim = 1]; but each layer is then handed the
    tensor as it came, of shape [[2]] - it is not reshaped to [[2, 1]]. *)
Theorem gine_vector_edge_attr_not_reshaped :
  let ea := Vec [1; 2]%Q in
  let w0 := new_world [] (sample_instance "gine" "error") in
  let w1 := fst (@forward ZerosLib (sample_batch (Some ea) None) w0) in
  List.length sample_edges = 2 /\
  map conv_edge_dim (layers_of (self w1)) = [Some 1; Some 1] /\
  map call_arg (conv_calls_in (log w1))
  = [Some (EdgeAttrArg (Some ea)); Some (EdgeAttrArg (Some ea))] /\
  shape ea = [2] /\ shape ea <> [2; 1].
Proof. vm_compute. repeat split. discriminate. Qed.

(* ================================================================== *)
(** * Further properties of the normaliser *)

Section NormaliserMore.
Local Open Scope Q_scope.






(** On a floating-point tensor the dtype plays no part. *)
Lemma typed_floating (t : Tensor) (mode : string) :
  _edge_weight_from_attr_typed Floating t mode = _edge_weight_from_attr t mode.
Proof.
  destruct t as [q|v|d rows]; simpl; try reflexivity.
  destruct (d =? 1)%nat; [reflexivity|].
  destruct (mode ==? "first_inv"); [reflexivity|].
  destruct (mode ==? "mean_inv"); [|reflexivity].
  simpl. now rewrite map_map.
Qed.

(** X2.  On a tensor of rank at most 2, of a floating-point or an integer
    dtype, the normaliser raises in exactly these situations: the tensor has
    rank 0; the tensor has no columns and the mode is [first_inv]; or the
    tensor has rank 2 and a width other than 1, the mode is not
    [first_inv], and either the dtype is an integer one ([mean] raises) or
    the tensor has no rows and the mode is not [mean_inv] (the [min()] of
    the [auto] branch).  On a floating-point tensor it is the function
    [_edge_weight_from_attr] of the other statements. *)
Theorem normaliser_raises_iff (dt : DType) (t : Tensor) (mode : string) :
  (is_ok (_edge_weight_from_attr_typed dt t mode) = false <->
   dim t = 0%nat \/
   (exists rows, t = Mat 0 rows /\ mode = "first_inv"%string) \/
   (exists d rows, t = Mat d rows /\ d <> 1%nat /\
                   mode <> "first_inv"%string /\
                   (dt = Integral \/
                    (rows = [] /\ mode <> "mean_inv"%string)))) /\
  _edge_weight_from_attr_typed Floating t mode = _edge_weight_from_attr t mode.
Proof.
  split; [|apply typed_floating].
  destruct t as [q|v|d rows]; simpl.
  - split; auto.
  - split; [discriminate|].
    intros [H|[(rows & H & _)|(d & rows & H & _)]]; discriminate.
  - destruct (d =? 1)%nat eqn:Ed.
    + apply Nat.eqb_eq in Ed. subst d. simpl. split; [discriminate|].
      intros [H|[(rows' & H & _)|(d & rows' & H & Hd & _)]]; try discriminate.
      inversion H; subst. congruence.
    + apply Nat.eqb_neq in Ed.
      destruct (mode ==? "first_inv") eqn:Ef.
      * apply String.eqb_eq in Ef. subst mode.
        destruct d as [|d']; simpl.
        -- split; [intros _; right; left; eauto | reflexivity].
        -- split; [discriminate|].
           intros [H|[(rows' & H & _)|(d & rows' & _ & _ & H & _)]];
             try discriminate; congruence.
      * apply String.eqb_neq in Ef.
        destruct dt.
        -- destruct (mode ==? "mean_inv") eqn:Em.
           ++ apply String.eqb_eq in Em. subst mode. simpl.
              split; [discriminate|].
              intros [H|[(rows' & _ & H)|(d0 & rows' & _ & _ & _ & H)]];
                try discriminate.
              destruct H as [H|[_ H]]; [discriminate | congruence].
           ++ apply String.eqb_neq in Em. simpl.
              destruct rows as [|r rows']; simpl.
              ** split; [|reflexivity].
                 intros _. right; right. exists d, nil.
                 split; [reflexivity|]. split; [exact Ed|].
                 split; [exact Ef|]. right. split; [reflexivity | exact Em].
              ** destruct (Qgtb _ _); simpl; (split; [discriminate|]);
                   intros [H|[(rows0 & _ & H)|(d0 & rows0 & H & _ & _ & H')]];
                   try discriminate; try congruence;
                   destruct H' as [H'|[H' _]]; try discriminate;
                   inversion H; subst; discriminate.
        -- destruct (mode ==? "mean_inv"); simpl;
             (split; [|reflexivity]);
             intros _; right; right; exists d, rows;
             (split; [reflexivity|]); (split; [exact Ed|]);
             (split; [exact Ef|]); left; reflexivity.
Qed.

(** Clamping twice is clamping once. *)
Lemma clamp0_idempotent (v : list Q) : clamp0 (clamp0 v) = clamp0 v.
Proof.
  unfold clamp0. rewrite map_map. apply map_ext. intros w.
  unfold Qmax, GenericMinMax.gmax.
  destruct (0 ?= w) eqn:E; try reflexivity.
  now rewrite E.
Qed.

(** X3.  The normaliser is idempotent: a weight vector it produced, fed
    back to it as the edge attribute, is returned unchanged in every mode. *)
Theorem normaliser_idempotent (t : Tensor) (mode mode' : string) (r : Tensor) :
  _edge_weight_from_attr t mode = Ok r ->
  _edge_weight_from_attr r mode' = Ok r.
Proof.
  intros H.
  assert (Hr : exists v, r = Vec (clamp0 v)).
  { destruct t as [q|v|d rows]; simpl in H.
    - discriminate.
    - inversion H; eauto.
    - destruct (d =? 1)%nat; [inversion H; eauto|].
      destruct (mode ==? "first_inv");
        [destruct d; simpl in H; inversion H; eauto|].
      destruct (mode ==? "mean_inv"); [inversion H; eauto|].
      destruct (auto_weights _); inversion H; eauto. }
  destruct Hr as [v ->]. simpl. now rewrite clamp0_idempotent.
Qed.

Lemma normaliser_idempotent_witness :
  _edge_weight_from_attr (Vec (clamp0 [1 / (2 + eps); 1 / (0 + eps)])) "auto"
  = Ok (Vec (clamp0 [1 / (2 + eps); 1 / (0 + eps)])).
Proof.
  exact (normaliser_idempotent (Mat 2 [[2; 5]; [0; 1]]) "first_inv" "auto"
           _ eq_refl).
Defined.

(** X4.  In mode [first_inv], on a tensor with at least two columns, the
    weight of a row is [1/(c+1e-8)] for its first entry [c] when [c+1e-8] is
    positive, and 0 when it is negative; the other columns play no part. *)
Theorem first_inv_weight (d : nat) (rows : list (list Q)) (i : nat)
    (c : Q) (rest : list Q) :
  (2 <= d)%nat ->
  nth_error rows i = Some (c :: rest) ->
  exists ws w,
    _edge_weight_from_attr (Mat d rows) "first_inv" = Ok (Vec ws) /\
    nth_error ws i = Some w /\
    (0 < c + eps -> w == 1 / (c + eps)) /\
    (c + eps < 0 -> w == 0).
Proof.
  intros Hd Hi. simpl. rewrite (wide_not_1 d Hd).
  destruct d as [|d']; [lia|]. simpl.
  eexists _, _. split; [reflexivity|].
  split; [apply clamp0_nth; rewrite !nth_error_map, Hi; reflexivity|].
  simpl. split; intros Hs.
  - apply clamp0_id. apply Qlt_le_weak.
    unfold Qdiv. rewrite Qmult_1_l. now apply Qinv_lt_0_compat.
  - apply Q.max_l. unfold Qdiv. rewrite Qmult_1_l. apply Qlt_le_weak.
    assert (H0 : 0 < / - (c + eps)) by (apply Qinv_lt_0_compat; lra).
    assert (E' : / (c + eps) == - / - (c + eps)) by (field; lra).
    lra.
Qed.

Lemma first_inv_weight_witness :
  exists ws w,
    _edge_weight_from_attr (Mat 2 [[2; 5]; [-1; 7]]) "first_inv" = Ok (Vec ws) /\
    nth_error ws 0 = Some w /\
    (0 < 2 + eps -> w == 1 / (2 + eps)) /\
    (2 + eps < 0 -> w == 0).
Proof.
  apply (first_inv_weight 2 [[2; 5]; [-1; 7]] 0 2 [5]); [lia | reflexivity].
Defined.



End NormaliserMore.

(* ================================================================== *)
(** * Further properties of the backbone *)

(* ------------------------------------------------------------------ *)
(** ** Input adaptation in closed form *)

Ltac split_matches :=
  repeat match goal with
         | |- context [match ?c with _ => _ end] => destruct c eqn:?; simpl
         end.

Lemma prepare_closed (data : Batch.t) (w : World) :
  _prepare_inputs data w = (after_adapt w data, adapted_inputs (self w) data).
Proof.
  destruct w as [s nid lg].
  destruct s as [ct hd od dp rl gm pol b ed we wv cs ro].
  destruct data as [x ei ea ew ev bt].
  unfold _prepare_inputs, after_adapt, adapted_inputs, edge_notice,
    adapted_edge_weight, adapted_edge_attr, gine_missing,
    after_edge_v_check, after_edge_v, edge_v_notices.
  unfold gcn_derivation.
  cbn [self next_id log conv_type gcn_edge_mode gine_missing_edge_policy
       _warned_edge_ignored _warned_edge_v_ignored
       Batch.x Batch.edge_index Batch.edge_attr Batch.edge_weight
       Batch.edge_v Batch.batch].
  destruct (ct ==? "gcn") eqn:Eg.
  - apply String.eqb_eq in Eg. subst ct.
    run_monad.
    destruct (is_some ev && negb wv); simpl;
      destruct ew as [ew|]; simpl;
      destruct ea as [ea|]; simpl;
      try destruct (_edge_weight_from_attr ea gm); simpl;
      try destruct we; simpl;
      destruct bt; simpl;
      try destruct (size_first x); simpl;
      rewrite ?app_nil_r; reflexivity.
  - destruct (ignores_edges ct) eqn:Ei.
    + pose proof (proj1 (layer_spec_ignoring _ Ei)) as Hg.
      run_monad. rewrite ?Eg, ?Ei, ?Hg.
      destruct (is_some ev && negb wv); simpl; rewrite ?Eg, ?Ei, ?Hg; simpl;
        destruct ea as [ea|]; simpl;
        try destruct we; simpl; rewrite ?Eg, ?Ei, ?Hg; simpl;
        destruct bt; simpl;
        try destruct (size_first x); simpl;
        rewrite ?app_nil_r; reflexivity.
    + run_monad. rewrite ?Eg, ?Ei.
      destruct (is_some ev && negb wv); simpl; rewrite ?Eg, ?Ei; simpl;
        destruct (ct ==? "gine"); simpl;
        destruct ea as [ea|]; simpl;
        destruct (pol ==? "zeros"); simpl;
        destruct bt; simpl;
        try destruct (size_first x); simpl;
        rewrite ?app_nil_r; reflexivity.
Qed.

Lemma after_adapt_fields (w : World) (data : Batch.t) :
  same_config (self w) (self (after_adapt w data)) /\
  same_build (self w) (self (after_adapt w data)) /\
  next_id (after_adapt w data) = next_id w /\
  exists ns, log (after_adapt w data) = log w ++ map Warn ns.
Proof.
  unfold after_adapt, after_edge_v_check, after_edge_v, edge_v_notices.
  cbn [self next_id log].
  destruct (edge_notice (self w) data) as [n|];
    destruct (is_some (Batch.edge_v data) && negb (_warned_edge_v_ignored (self w)));
    cbn [_warned_edge_ignored set_warned_edge_v_ignored];
    try destruct (_warned_edge_ignored (self w));
    cbn [self next_id log]; unfold same_config, same_build; simpl;
    (repeat split; try reflexivity);
    rewrite <- ?app_assoc; simpl.
  all: first [ exists nil; simpl; now rewrite app_nil_r
             | exists [EdgeVIgnored]; reflexivity
             | exists [n]; reflexivity
             | exists [EdgeVIgnored; n]; reflexivity ].
Qed.

Lemma not_calls_warns (ns : list Notice) :
  Forall (fun e => is_conv_call e = false) (map Warn ns).
Proof. induction ns; simpl; constructor; auto. Qed.

Lemma recognized_cases (ct : string) :
  recognized ct = true ->
  ct = "gcn" \/ ignores_edges ct = true \/ ct = "gine".
Proof.
  unfold recognized. rewrite !orb_true_iff, !String.eqb_eq. tauto.
Qed.

(** A recognised kind always gets its layer built once the edge width is
    inferred. *)
Lemma layer_spec_recognized (s : GNNBackbone) (ea : option Tensor) :
  recognized (conv_type s) = true ->
  exists c ed',
    layer_spec (conv_type s) (inferred_edge_dim s ea) = Some (c, ed').
Proof.
  intros H. unfold inferred_edge_dim.
  destruct (recognized_cases _ H) as [E|[E|E]].
  - rewrite E. unfold layer_spec. simpl. eauto.
  - destruct (layer_spec_ignoring _ E) as (Hg & c & Hc & _).
    rewrite Hg, Hc. eauto.
  - rewrite E. unfold layer_spec. simpl. destruct ea; simpl; eauto.
Qed.

Lemma adapted_inputs_fields (s : GNNBackbone) (data : Batch.t) (inputs : Inputs) :
  adapted_inputs s data = Ok inputs ->
  gine_missing s data = false /\
  in_x inputs = Batch.x data /\
  in_edge_index inputs = Batch.edge_index data /\
  in_edge_attr inputs = adapted_edge_attr s data /\
  in_edge_weight inputs = adapted_edge_weight s data /\
  (Batch.batch data = None -> dim (Batch.x data) <> 0%nat) /\
  in_batch inputs = batch_of data.
Proof.
  unfold adapted_inputs, batch_of.
  destruct (gine_missing s data); [discriminate|].
  destruct (Batch.batch data) as [b|].
  - intros H; inversion H; subst; simpl. repeat split; congruence.
  - destruct (Batch.x data) as [q|v|d rows] eqn:Ex; simpl;
      intros H; inversion H; subst; simpl; rewrite ?Ex;
      repeat split; try reflexivity; intros _; simpl; discriminate.
Qed.

Section ForwardClosed.
Context {L : TorchLib}.

(** One [forward] call of a recognised operator kind, in closed form. *)
Lemma forward_closed (w : World) (data : Batch.t) (inputs : Inputs) (F : nat) :
  recognized (conv_type (self w)) = true ->
  adapted_inputs (self w) data = Ok inputs ->
  size_last (Batch.x data) = Ok F ->
  stack_ok F (self w) ->
  let wb := settled_for (after_adapt w data) F (in_edge_attr inputs) in
  exists lin,
    readout (self wb) = Some lin /\
    _built (self wb) = true /\
    stack_ok F (self wb) /\
    same_config (self w) (self wb) /\
    forward data w =
    (mkWorld (self wb) (next_id wb)
       (log wb ++ calls_of (self wb) (layers_of (self wb)) inputs),
     compose_value (self wb) (layers_of (self wb)) lin inputs).
Proof.
  intros Hct Hin HF Hok wb.
  destruct (adapted_inputs_fields _ _ _ Hin)
    as (Hgm & Hx & Hei & Hea & Hew & _ & Hbt).
  assert (HF' : forall d, size_last (Batch.x data) = Ok d -> d = F)
    by (intros d Hd; congruence).
  pose proof (forward_stack_ok F data w HF' Hok) as Hok1.
  destruct (preserves_forward data w) as [Hcfg _ _ _ _ _ _ _ _].
  revert Hok1 Hcfg.
  unfold forward. unfold bind at 1 2 3. rewrite prepare_closed, Hin.
  set (wp := after_adapt w data) in *.
  destruct (after_adapt_fields w data)
    as ((C1 & C2 & C3 & C4 & C5 & C6 & C7) & (B1 & B2 & B3 & B4) & _).
  fold wp in C1, C2, C3, C4, C5, C6, C7, B1, B2, B3, B4.
  unfold settled_for in wb.
  destruct (_built (self wp)) eqn:Hb.
  - assert (Hokp : stack_ok F (self wp)).
    { eapply stack_ok_same; [| |exact Hok];
        unfold same_config, same_build; repeat split; congruence. }
    destruct (Hokp Hb) as (layers & lin & Hc & Hr & _).
    rewrite (compose_built inputs wp layers lin Hb Hc Hr).
    cbn [fst self]. intros Hok1 Hcfg.
    exists lin. unfold wb, layers_of. rewrite Hc.
    repeat split; assumption.
  - assert (Hrec : recognized (conv_type (self wp)) = true) by congruence.
    destruct (layer_spec_recognized (self wp) (in_edge_attr inputs) Hrec)
      as (c & ed' & Hls).
    rewrite (compose_unbuilt inputs wp F c ed');
      [ | exact Hb | now rewrite Hx
        | | exact Hls ].
    + cbn [fst self]. intros Hok1 Hcfg.
      unfold wb. rewrite Hls.
      eexists. split; [reflexivity|]. split; [reflexivity|].
      split; [exact Hok1|]. split; [exact Hcfg | reflexivity].
    + unfold gine_missing, adapted_edge_attr in *. rewrite Hea, C1, C7.
      destruct (ignores_edges (conv_type (self w))) eqn:Ei; [|exact Hgm].
      now rewrite (proj1 (layer_spec_ignoring _ Ei)).
Qed.

(** The events a call adds before its layer invocations are no layer
    invocations. *)
Lemma settled_for_log (w : World) (data : Batch.t) (F : nat)
    (ea : option Tensor) :
  exists pre,
    log (settled_for (after_adapt w data) F ea) = log w ++ pre /\
    Forall (fun e => is_conv_call e = false) pre.
Proof.
  destruct (after_adapt_fields w data) as (_ & _ & _ & ns & Hl).
  unfold settled_for. destruct (_built _).
  - exists (map Warn ns). split; [exact Hl | apply not_calls_warns].
  - destruct (layer_spec _ _) as [[c ed']|].
    + unfold built_world. cbn [log]. rewrite Hl, <- app_assoc.
      eexists. split; [reflexivity|].
      apply Forall_app. split; [apply not_calls_warns|].
      apply Forall_app. split; [apply not_calls_make_convs | repeat constructor].
    + exists (map Warn ns). split; [exact Hl | apply not_calls_warns].
Qed.

End ForwardClosed.

(* ------------------------------------------------------------------ *)
(** ** What the layers are called with *)

Lemma adapted_inputs_ok (s : GNNBackbone) (data : Batch.t) :
  gine_missing s data = false ->
  dim (Batch.x data) <> 0 ->
  adapted_inputs s data =
  Ok (mkInputs (Batch.x data) (Batch.edge_index data)
        (adapted_edge_attr s data) (adapted_edge_weight s data)
        (batch_of data)).
Proof.
  intros Hg Hx. unfold adapted_inputs, batch_of. rewrite Hg.
  destruct (Batch.batch data); [reflexivity|].
  now rewrite (size_first_ok _ Hx).
Qed.

Section LayerCalls.
Context {L : TorchLib}.

Lemma conv_calls_layers (p : Q) (layers : list ConvLayer) (h : Tensor)
    (ei : EdgeIndex) (ea ew : option Tensor) :
  map call_layer (conv_calls p layers h ei ea ew) = map Some layers.
Proof.
  revert h. induction layers as [|l ls IH]; intros h; simpl; [reflexivity|].
  now rewrite IH.
Qed.

Lemma conv_calls_edge_index (p : Q) (layers : list ConvLayer) (h : Tensor)
    (ei : EdgeIndex) (ea ew : option Tensor) :
  Forall (fun e => call_edge_index e = Some ei)
    (conv_calls p layers h ei ea ew).
Proof.
  revert h. induction layers as [|l ls IH]; intros h; simpl; constructor;
    [reflexivity | apply IH].
Qed.

Lemma conv_calls_first (p : Q) (layers : list ConvLayer) (h : Tensor)
    (ei : EdgeIndex) (ea ew : option Tensor) :
  match conv_calls p layers h ei ea ew with
  | e :: _ => call_h e = Some h
  | [] => layers = []
  end.
Proof. destruct layers; simpl; reflexivity. Qed.

(** X6.  A [forward] call of a recognised kind that is not stopped by the
    GINE check, on node features of shape [[N, F]] and an instance unbuilt
    or built for width [F], with an edge attribute that fits the GINE
    layers, invokes every layer of the stack exactly once,
    in stack order, after whatever else it logs; each invocation is given
    the batch's [edge_index] unchanged, and the first one the batch's node
    features unchanged. *)
Theorem forward_invokes_stack_in_order (w : World) (data : Batch.t) (F : nat)
    (rows : list (list Q)) :
  recognized (conv_type (self w)) = true ->
  gine_missing (self w) data = false ->
  Batch.x data = Mat F rows ->
  stack_ok F (self w) ->
  gine_edge_attr_fits (self w) data ->
  let w' := fst (forward data w) in
  exists pre calls layers,
    log w' = log w ++ pre ++ calls /\
    Forall (fun e => is_conv_call e = false) pre /\
    convs (self w') = Some layers /\
    List.length layers = List.length (hidden_dims (self w)) /\
    map call_layer calls = map Some layers /\
    Forall (fun e => call_edge_index e = Some (Batch.edge_index data)) calls /\
    match calls with
    | e :: _ => call_h e = Some (Batch.x data)
    | [] => layers = []
    end.
Proof.
  intros Hct Hgm Hx Hok _ w'.
  assert (Hd : dim (Batch.x data) <> 0) by (rewrite Hx; discriminate).
  assert (HF : size_last (Batch.x data) = Ok F) by (rewrite Hx; reflexivity).
  pose proof (adapted_inputs_ok _ _ Hgm Hd) as Hin.
  destruct (forward_closed w data _ F Hct Hin HF Hok)
    as (lin & Hr & Hb & Hokb & (_ & C2 & _) & E).
  cbn [in_edge_attr] in *.
  set (wb := settled_for (after_adapt w data) F (adapted_edge_attr (self w) data)) in *.
  destruct (Hokb Hb) as (layers & lin0 & Hc & _ & Hch & _).
  destruct (settled_for_log w data F (adapted_edge_attr (self w) data))
    as (pre & Hpre & Hnc). fold wb in Hpre.
  unfold w'. rewrite E. cbn [fst log self].
  unfold layers_of. rewrite Hc.
  eexists pre, _, layers. rewrite Hpre, <- app_assoc.
  split; [reflexivity|]. split; [exact Hnc|]. split; [reflexivity|].
  split; [rewrite (chained_length _ _ _ Hch); congruence|].
  unfold calls_of. cbn [in_x in_edge_index in_edge_weight].
  split; [apply conv_calls_layers|].
  split; [apply conv_calls_edge_index | apply conv_calls_first].
Qed.

Lemma conv_calls_args_by_layer (a : EdgeArg) (p : Q) (layers : list ConvLayer)
    (h : Tensor) (ei : EdgeIndex) (ea ew : option Tensor) :
  Forall (fun l => edge_arg_for (conv_class l) ea ew = a) layers ->
  Forall (fun e => call_arg e = Some a) (conv_calls p layers h ei ea ew).
Proof.
  revert h. induction layers as [|l ls IH]; intros h Hall; simpl; constructor.
  - inversion Hall; subst. simpl. congruence.
  - inversion Hall; subst. now apply IH.
Qed.

Lemma edge_arg_of_layer_spec (ct : string) (ed ed' : option nat)
    (c : ConvClass) (ea ew : option Tensor) :
  layer_spec ct ed = Some (c, ed') ->
  edge_arg_for c ea ew = edge_arg_of_kind ct ea ew.
Proof.
  unfold layer_spec, edge_arg_of_kind.
  destruct (ct ==? "gcn") eqn:E1;
    [intros H; inversion H; reflexivity|].
  destruct (ct ==? "gat") eqn:E2;
    [apply String.eqb_eq in E2; subst; intros H; inversion H; reflexivity|].
  destruct (ct ==? "gatv2") eqn:E3;
    [apply String.eqb_eq in E3; subst; intros H; inversion H; reflexivity|].
  destruct (ct ==? "sage") eqn:E4;
    [apply String.eqb_eq in E4; subst; intros H; inversion H; reflexivity|].
  destruct (ct ==? "gin") eqn:E5;
    [apply String.eqb_eq in E5; subst; intros H; inversion H; reflexivity|].
  destruct (ct ==? "gine"); [|discriminate].
  destruct ed; intros H; inversion H; reflexivity.
Qed.

(** The argument every layer is given, and the edge width the instance
    ends up with. *)
Lemma forward_call_args (w : World) (data : Batch.t) (F : nat)
    (rows : list (list Q)) :
  recognized (conv_type (self w)) = true ->
  gine_missing (self w) data = false ->
  Batch.x data = Mat F rows ->
  stack_ok F (self w) ->
  let w' := fst (forward data w) in
  let inputs := mkInputs (Batch.x data) (Batch.edge_index data)
                  (adapted_edge_attr (self w) data)
                  (adapted_edge_weight (self w) data) (batch_of data) in
  exists pre calls,
    log w' = log w ++ pre ++ calls /\
    Forall (fun e => is_conv_call e = false) pre /\
    List.length calls = List.length (hidden_dims (self w)) /\
    _built (self w') = true /\
    same_config (self w) (self w') /\
    (_built (self w) = true -> _edge_dim (self w') = _edge_dim (self w)) /\
    (_built (self w) = false ->
     _edge_dim (self w')
     = inferred_edge_dim (self w) (adapted_edge_attr (self w) data)) /\
    Forall (fun l => layer_spec (conv_type (self w)) (_edge_dim (self w'))
                     = Some (conv_class l, conv_edge_dim l))
      (layers_of (self w')) /\
    Forall (fun e => call_arg e
                     = Some (edge_arg_of_kind (conv_type (self w))
                               (effective_edge_attr (self w') inputs)
                               (adapted_edge_weight (self w) data))) calls /\
    List.length (layers_of (self w')) = List.length (hidden_dims (self w)).
Proof.
  intros Hct Hgm Hx Hok w' inputs.
  assert (Hd : dim (Batch.x data) <> 0) by (rewrite Hx; discriminate).
  assert (HF : size_last (Batch.x data) = Ok F) by (rewrite Hx; reflexivity).
  pose proof (adapted_inputs_ok _ _ Hgm Hd) as Hin. fold inputs in Hin.
  destruct (forward_closed w data _ F Hct Hin HF Hok)
    as (lin & Hr & Hb & Hokb & Hcfg & E).
  cbn [in_edge_attr inputs] in *.
  set (wb := settled_for (after_adapt w data) F (adapted_edge_attr (self w) data)) in *.
  destruct (Hokb Hb) as (layers & lin0 & Hc & _ & Hch & Hall & _).
  destruct (settled_for_log w data F (adapted_edge_attr (self w) data))
    as (pre & Hpre & Hnc). fold wb in Hpre.
  assert (Hs : self w' = self wb) by (unfold w'; rewrite E; reflexivity).
  assert (Hl : log w' = log wb ++ calls_of (self wb) layers inputs).
  { unfold w'. rewrite E. cbn [fst log]. unfold layers_of. now rewrite Hc. }
  pose proof Hcfg as (C1 & C2 & Crest).
  destruct (after_adapt_fields w data)
    as ((A1 & _ & _ & _ & _ & _ & A7) & (AB1 & _ & _ & AB4) & _).
  assert (Hed : (_built (self w) = true -> _edge_dim (self wb) = _edge_dim (self w)) /\
                (_built (self w) = false ->
                 _edge_dim (self wb)
                 = inferred_edge_dim (self w) (adapted_edge_attr (self w) data))).
  { unfold wb, settled_for. rewrite AB1.
    destruct (_built (self w)) eqn:Hbw.
    - split; [intros _; exact AB4 | discriminate].
    - split; [discriminate|]. intros _.
      assert (Hrec : recognized (conv_type (self (after_adapt w data))) = true)
        by congruence.
      destruct (layer_spec_recognized (self (after_adapt w data))
                  (adapted_edge_attr (self w) data) Hrec) as (c0 & e0 & Hls0).
      rewrite Hls0. cbn [built_world self set_built _edge_dim].
      unfold inferred_edge_dim. now rewrite A1. }
  rewrite C1 in Hall.
  exists pre, (calls_of (self wb) layers inputs).
  rewrite Hs, Hl, Hpre, <- app_assoc.
  split; [reflexivity|]. split; [exact Hnc|].
  split; [unfold calls_of; rewrite conv_calls_length,
            (chained_length _ _ _ Hch); congruence|].
  split; [exact Hb|]. split; [exact Hcfg|].
  split; [tauto|]. split; [tauto|].
  split; [unfold layers_of; rewrite Hc; exact Hall|].
  split.
  - unfold calls_of. cbn [in_x in_edge_index in_edge_weight inputs].
    apply conv_calls_args_by_layer.
    eapply Forall_impl; [|exact Hall]. intros l Hl0.
    eapply edge_arg_of_layer_spec. exact Hl0.
  - unfold layers_of. rewrite Hc, (chained_length _ _ _ Hch). congruence.
Qed.

End LayerCalls.

Section EdgePolicies.
Context {L : TorchLib}.

Lemma conv_calls_no_notice (p : Q) (layers : list ConvLayer) (h : Tensor)
    (ei : EdgeIndex) (ea ew : option Tensor) :
  count_events is_edge_ignored_notice (conv_calls p layers h ei ea ew) = 0.
Proof.
  unfold count_events. revert h.
  induction layers as [|l ls IH]; intros h; simpl; auto.
Qed.

Lemma make_convs_no_notice (layers : list ConvLayer) :
  count_events is_edge_ignored_notice (map MakeConv layers) = 0.
Proof. unfold count_events. induction layers; simpl; auto. Qed.

(** A call for which the batch asks for no edge notice emits none. *)
Lemma forward_no_edge_notice (w : World) (data : Batch.t) (F : nat)
    (rows : list (list Q)) :
  recognized (conv_type (self w)) = true ->
  gine_missing (self w) data = false ->
  Batch.x data = Mat F rows ->
  stack_ok F (self w) ->
  edge_notice (self w) data = None ->
  count_events is_edge_ignored_notice (log (fst (forward data w)))
  = count_events is_edge_ignored_notice (log w) /\
  _warned_edge_ignored (self (fst (forward data w)))
  = _warned_edge_ignored (self w).
Proof.
  intros Hct Hgm Hx Hok Hn.
  assert (Hd : dim (Batch.x data) <> 0) by (rewrite Hx; discriminate).
  assert (HF : size_last (Batch.x data) = Ok F) by (rewrite Hx; reflexivity).
  pose proof (adapted_inputs_ok _ _ Hgm Hd) as Hin.
  destruct (forward_closed w data _ F Hct Hin HF Hok) as (lin & _ & _ & _ & _ & E).
  rewrite E. cbn [fst log self in_edge_attr].
  unfold settled_for, after_adapt. rewrite Hn.
  unfold after_edge_v_check, after_edge_v, edge_v_notices, calls_of.
  cbn [self next_id log].
  destruct (is_some (Batch.edge_v data) && negb (_warned_edge_v_ignored (self w)));
    cbn [_built set_warned_edge_v_ignored conv_type];
    destruct (_built (self w)); cbn [log self];
    try destruct (layer_spec _ _) as [[c ed']|];
    unfold built_world; cbn [log self set_built _warned_edge_ignored
                              set_warned_edge_v_ignored];
    rewrite ?count_events_app, ?conv_calls_no_notice, ?make_convs_no_notice;
    unfold count_events; simpl; split; (lia || reflexivity).
Qed.

(** X7.  GCN with an explicit [edge_weight]: every layer is given that
    very tensor; the edge attribute is not consulted, so that no
    "derivation failed" notice is emitted and the flag is untouched, even
    for an [edge_attr] on which the normaliser would raise. *)
Theorem gcn_explicit_weight_used (w : World) (data : Batch.t) (ew : Tensor)
    (F : nat) (rows : list (list Q)) :
  conv_type (self w) = "gcn" ->
  Batch.edge_weight data = Some ew ->
  Batch.x data = Mat F rows ->
  stack_ok F (self w) ->
  let w' := fst (forward data w) in
  (exists pre calls,
     log w' = log w ++ pre ++ calls /\
     Forall (fun e => is_conv_call e = false) pre /\
     List.length calls = List.length (hidden_dims (self w)) /\
     Forall (fun e => call_arg e = Some (EdgeWeightArg (Some ew))) calls) /\
  count_events is_edge_ignored_notice (log w')
  = count_events is_edge_ignored_notice (log w) /\
  _warned_edge_ignored (self w') = _warned_edge_ignored (self w).
Proof.
  intros Hct Hew Hx Hok w'.
  assert (Hrec : recognized (conv_type (self w)) = true) by (now rewrite Hct).
  assert (Hgm : gine_missing (self w) data = false)
    by (unfold gine_missing; now rewrite Hct).
  assert (Hw : adapted_edge_weight (self w) data = Some ew)
    by (unfold adapted_edge_weight, gcn_derivation; now rewrite Hct, Hew).
  assert (Hn : edge_notice (self w) data = None)
    by (unfold edge_notice, gcn_derivation; now rewrite Hct, Hew).
  split.
  - destruct (forward_call_args w data F rows Hrec Hgm Hx Hok)
      as (pre & calls & Hl & Hnc & Hlen & _ & _ & _ & _ & _ & Hargs & _).
    exists pre, calls. repeat split; try assumption.
    eapply Forall_impl; [|exact Hargs]. intros e He.
    rewrite He, Hw, Hct. reflexivity.
  - now apply (forward_no_edge_notice w data F rows).
Qed.

(** X8.  GCN without an explicit [edge_weight]: when the batch carries an
    [edge_attr] on which the normaliser returns, every layer is given the
    normaliser's result and no notice is emitted; when the batch carries no
    [edge_attr] either, every layer is called with no weight. *)
Theorem gcn_derived_weight_used (w : World) (data : Batch.t)
    (F : nat) (rows : list (list Q)) :
  conv_type (self w) = "gcn" ->
  Batch.edge_weight data = None ->
  Batch.x data = Mat F rows ->
  stack_ok F (self w) ->
  let w' := fst (forward data w) in
  (forall ea t,
     Batch.edge_attr data = Some ea ->
     _edge_weight_from_attr ea (gcn_edge_mode (self w)) = Ok t ->
     (exists pre calls,
        log w' = log w ++ pre ++ calls /\
        Forall (fun e => is_conv_call e = false) pre /\
        List.length calls = List.length (hidden_dims (self w)) /\
        Forall (fun e => call_arg e = Some (EdgeWeightArg (Some t))) calls) /\
     count_events is_edge_ignored_notice (log w')
     = count_events is_edge_ignored_notice (log w)) /\
  (Batch.edge_attr data = None ->
   exists pre calls,
     log w' = log w ++ pre ++ calls /\
     Forall (fun e => is_conv_call e = false) pre /\
     List.length calls = List.length (hidden_dims (self w)) /\
     Forall (fun e => call_arg e = Some (EdgeWeightArg None)) calls).
Proof.
  intros Hct Hew Hx Hok w'.
  assert (Hrec : recognized (conv_type (self w)) = true) by (now rewrite Hct).
  assert (Hgm : gine_missing (self w) data = false)
    by (unfold gine_missing; now rewrite Hct).
  destruct (forward_call_args w data F rows Hrec Hgm Hx Hok)
    as (pre & calls & Hl & Hnc & Hlen & _ & _ & _ & _ & _ & Hargs & _).
  split.
  - intros ea t Hea Ht.
    assert (Hw : adapted_edge_weight (self w) data = Some t)
      by (unfold adapted_edge_weight, gcn_derivation;
          now rewrite Hct, Hew, Hea, Ht).
    assert (Hn : edge_notice (self w) data = None)
      by (unfold edge_notice, gcn_derivation;
          now rewrite Hct, Hew, Hea, Ht).
    split.
    + exists pre, calls. repeat split; try assumption.
      eapply Forall_impl; [|exact Hargs]. intros e He.
      rewrite He, Hw, Hct. reflexivity.
    + now apply (forward_no_edge_notice w data F rows).
  - intros Hea.
    assert (Hw : adapted_edge_weight (self w) data = None)
      by (unfold adapted_edge_weight, gcn_derivation;
          now rewrite Hct, Hew, Hea).
    exists pre, calls. repeat split; try assumption.
    eapply Forall_impl; [|exact Hargs]. intros e He.
    rewrite He, Hw, Hct. reflexivity.
Qed.


(** X10.  A [gine] instance takes its edge width from the first batch that
    gets it built: the width [D] of a two-dimensional [edge_attr], 1 for an
    [edge_attr] of any other rank, and 1 when there is none (["zeros"]
    policy).  Every layer is a [GINEConv] built with that edge width, and
    the width is recorded in [_edge_dim]. *)
Theorem gine_edge_dim_inferred (w : World) (data : Batch.t)
    (F : nat) (rows : list (list Q)) :
  conv_type (self w) = "gine" ->
  _built (self w) = false ->
  gine_missing (self w) data = false ->
  Batch.x data = Mat F rows ->
  let w' := fst (forward data w) in
  let d := match Batch.edge_attr data with
           | Some ea => if dim ea =? 2 then width ea else 1
           | None => 1
           end in
  _built (self w') = true /\
  _edge_dim (self w') = Some d /\
  List.length (layers_of (self w')) = List.length (hidden_dims (self w)) /\
  Forall (fun l => conv_class l = GINEConv /\ conv_edge_dim l = Some d)
    (layers_of (self w')).
Proof.
  intros Hct Hb Hgm Hx w' d.
  assert (Hrec : recognized (conv_type (self w)) = true) by (now rewrite Hct).
  assert (Hok : stack_ok F (self w)) by (intros H; congruence).
  destruct (forward_call_args w data F rows Hrec Hgm Hx Hok)
    as (pre & calls & _ & _ & _ & Hb' & _ & _ & Hb0 & Hlay & _ & Hlen).
  fold w' in Hb', Hb0, Hlay, Hlen.
  assert (Hd : _edge_dim (self w') = Some d).
  { rewrite (Hb0 Hb). unfold inferred_edge_dim, adapted_edge_attr.
    rewrite Hct. simpl. unfold d. now destruct (Batch.edge_attr data). }
  split; [exact Hb'|]. split; [exact Hd|].
  split; [exact Hlen|].
  eapply Forall_impl; [|exact Hlay]. intros l Hl0.
  rewrite Hd, Hct in Hl0. unfold layer_spec in Hl0. simpl in Hl0.
  now inversion Hl0.
Qed.

End EdgePolicies.

(* ------------------------------------------------------------------ *)
(** ** Outcome of a call *)

Lemma layer_spec_some_recognized (ct : string) (ed : option nat)
    (x : ConvClass * option nat) :
  layer_spec ct ed = Some x -> recognized ct = true.
Proof.
  unfold layer_spec, recognized, ignores_edges.
  destruct (ct ==? "gcn"); [reflexivity|].
  destruct (ct ==? "gat"); [reflexivity|].
  destruct (ct ==? "gatv2"); [reflexivity|].
  destruct (ct ==? "sage"); [reflexivity|].
  destruct (ct ==? "gin"); [reflexivity|].
  destruct (ct ==? "gine"); [reflexivity | discriminate].
Qed.

Lemma chained_nil (F : nat) (layers : list ConvLayer) :
  chained F [] layers -> layers = [].
Proof. destruct layers; simpl; tauto. Qed.

Section Outcome.
Context {L : TorchLib}.

(** With no hidden width the lazy build succeeds, with an empty stack. *)
Lemma ensure_built_empty (x : Tensor) (ea : option Tensor) (w : World) (d : nat) :
  _built (self w) = false ->
  hidden_dims (self w) = [] ->
  size_last x = Ok d ->
  (conv_type (self w) ==? "gine") && negb (is_some ea)
    && negb (gine_missing_edge_policy (self w) ==? "zeros") = false ->
  exists wb lin,
    ensure_built x ea w = (wb, Ok tt) /\
    _built (self wb) = true /\
    convs (self wb) = Some [] /\
    readout (self wb) = Some lin /\
    same_config (self w) (self wb).
Proof.
  intros Hb Hh Hx Hpol.
  assert (Hbuild : forall ed,
            exists wb lin,
              _build_layers d ed w = (wb, Ok tt) /\
              _built (self wb) = true /\ convs (self wb) = Some [] /\
              readout (self wb) = Some lin /\ same_config (self w) (self wb)).
  { intros ed. unfold _build_layers. unfold bind at 1. unfold get_self at 1.
    rewrite Hh. cbn [make_convs]. run_monad.
    eexists _, _. split; [reflexivity|].
    unfold same_config. simpl. repeat split. }
  unfold ensure_built. unfold bind at 1. unfold get_self at 1.
  rewrite Hb. cbn [negb]. unfold bind at 1, lift at 1. rewrite Hx.
  unfold bind at 1.
  destruct (conv_type (self w) ==? "gine").
  - destruct ea as [t|]; simpl in Hpol.
    + destruct t; simpl; apply Hbuild.
    + apply negb_false_iff in Hpol. rewrite Hpol. simpl. apply Hbuild.
  - simpl. apply Hbuild.
Qed.

Lemma compose_value_empty (s : GNNBackbone) (lin : Linear) (inputs : Inputs) :
  compose_value s [] lin inputs
  = Raise (RuntimeError "torch.cat(): expected a non-empty list of Tensors").
Proof. reflexivity. Qed.

(** An unknown kind with at least one hidden width stops the lazy build. *)
Lemma compose_unsupported (inputs : Inputs) (w : World) (d : nat) :
  recognized (conv_type (self w)) = false ->
  _built (self w) = false ->
  hidden_dims (self w) <> [] ->
  size_last (in_x inputs) = Ok d ->
  compose inputs w =
  (w, Raise (ValueError ("Unsupported conv_type: " ++ conv_type (self w)))).
Proof.
  intros Hct Hb Hh Hx.
  pose proof (recognized_false _ Hct) as (_ & _ & _ & _ & _ & Hg).
  unfold compose. unfold bind at 1.
  unfold ensure_built. unfold bind at 1. unfold get_self at 1.
  rewrite Hb. cbn [negb]. unfold bind at 1. unfold lift at 1.
  rewrite Hx. unfold bind at 1. rewrite Hg. unfold ret at 1.
  unfold _build_layers. unfold bind at 1. unfold get_self at 1.
  unfold bind at 1.
  destruct (hidden_dims (self w)) as [|h hs] eqn:Eh; [congruence|].
  cbn [make_convs]. unfold bind at 1.
  now rewrite make_conv_unsupported by exact Hct.
Qed.

(** X11.  What a [forward] call on node features of shape [[N, F]] comes
    to, for an instance unbuilt or built for width [F].  It raises the GINE
    [ValueError] when a [gine] instance not under the ["zeros"] policy is
    given no [edge_attr]; otherwise it raises the [RuntimeError] of
    [torch.cat] when the instance has no hidden width (and leaves it built,
    with an empty stack); otherwise it raises ["Unsupported conv_type"] when
    the instance is unbuilt and of an unknown kind; and in every other case
    - the edge attribute fitting the GINE layers, and layer evaluation
    itself returning - it returns. *)
Theorem forward_outcome (w : World) (data : Batch.t) (F : nat)
    (rows : list (list Q)) :
  Batch.x data = Mat F rows ->
  stack_ok F (self w) ->
  let r := forward data w in
  (gine_missing (self w) data = true ->
   snd r = Raise (ValueError
                    "GINE needs edge_attr, or gine_missing_edge_policy='zeros'")) /\
  (gine_missing (self w) data = false -> hidden_dims (self w) = [] ->
   snd r = Raise (RuntimeError
                    "torch.cat(): expected a non-empty list of Tensors") /\
   _built (self (fst r)) = true /\ convs (self (fst r)) = Some []) /\
  (gine_missing (self w) data = false -> hidden_dims (self w) <> [] ->
   _built (self w) = false -> recognized (conv_type (self w)) = false ->
   snd r = Raise (ValueError ("Unsupported conv_type: " ++ conv_type (self w))) /\
   _built (self (fst r)) = false) /\
  (gine_missing (self w) data = false -> hidden_dims (self w) <> [] ->
   gine_edge_attr_fits (self w) data ->
   _built (self w) = true \/ recognized (conv_type (self w)) = true ->
   is_ok (snd r) = true).
Proof.
  intros Hx Hok r.
  assert (Hd : dim (Batch.x data) <> 0) by (rewrite Hx; discriminate).
  assert (HF : size_last (Batch.x data) = Ok F) by (rewrite Hx; reflexivity).
  destruct (after_adapt_fields w data)
    as ((C1 & C2 & C3 & C4 & C5 & C6 & C7) & (B1 & B2 & B3 & B4) & _).
  set (wp := after_adapt w data) in *.
  split; [|split; [|split]].
  - intros Hgm. unfold r, forward, bind.
    rewrite prepare_closed. unfold adapted_inputs. now rewrite Hgm.
  - intros Hgm Hh.
    pose proof (adapted_inputs_ok _ _ Hgm Hd) as Hin.
    unfold r, forward, bind. rewrite prepare_closed, Hin.
    fold wp.
    assert (Hokp : stack_ok F (self wp)).
    { eapply stack_ok_same; [| |exact Hok];
        unfold same_config, same_build; repeat split; congruence. }
    destruct (_built (self wp)) eqn:Hb.
    + destruct (Hokp Hb) as (layers & lin & Hc & Hr & Hch & _).
      rewrite C2, Hh in Hch. apply chained_nil in Hch. subst layers.
      rewrite (compose_built _ wp [] lin Hb Hc Hr).
      cbn [fst snd self]. auto.
    + destruct (ensure_built_empty (Batch.x data)
                  (adapted_edge_attr (self w) data) wp F Hb)
        as (wb & lin & He & Hbb & Hcb & Hrb & _); try congruence.
      { unfold gine_missing, adapted_edge_attr in *. rewrite C1, C7.
        destruct (ignores_edges (conv_type (self w))) eqn:Ei; [|exact Hgm].
        now rewrite (proj1 (layer_spec_ignoring _ Ei)). }
      rewrite (compose_after_build
                 (mkInputs (Batch.x data) (Batch.edge_index data)
                    (adapted_edge_attr (self w) data)
                    (adapted_edge_weight (self w) data) (batch_of data))
                 wp wb He Hbb).
      rewrite (compose_built _ wb [] lin Hbb Hcb Hrb).
      cbn [fst snd self]. auto.
  - intros Hgm Hh Hb Hct.
    pose proof (adapted_inputs_ok _ _ Hgm Hd) as Hin.
    unfold r, forward, bind. rewrite prepare_closed, Hin.
    fold wp.
    rewrite (compose_unsupported _ wp F); try congruence; [|exact HF].
    cbn [fst snd]. split; congruence.
  - intros Hgm Hh _ Hcase. subst wp.
    assert (Hrec : recognized (conv_type (self w)) = true).
    { destruct Hcase as [Hb|Hrec]; [|exact Hrec].
      destruct (Hok Hb) as (layers & lin & _ & _ & Hch & Hall & _).
      destruct layers as [|l ls].
      - destruct (hidden_dims (self w)); [congruence | simpl in Hch; tauto].
      - inversion Hall as [|? ? Hl _]; subst.
        eapply layer_spec_some_recognized; eassumption. }
    pose proof (adapted_inputs_ok _ _ Hgm Hd) as Hin.
    destruct (forward_closed w data _ F Hrec Hin HF Hok)
      as (lin & Hr & Hb & Hokb & (_ & C2' & _) & E).
    unfold r. rewrite E. cbn [snd].
    destruct (Hokb Hb) as (layers & lin0 & Hc & _ & Hch & _).
    unfold layers_of. rewrite Hc.
    destruct (compose_value_ok
                (self (settled_for (after_adapt w data) F
                         (in_edge_attr
                            (mkInputs (Batch.x data) (Batch.edge_index data)
                               (adapted_edge_attr (self w) data)
                               (adapted_edge_weight (self w) data)
                               (batch_of data)))))
                layers lin
                (mkInputs (Batch.x data) (Batch.edge_index data)
                   (adapted_edge_attr (self w) data)
                   (adapted_edge_weight (self w) data) (batch_of data)))
      as [out Hout].
    { intros El. subst layers. apply chained_length in Hch.
      cbn [in_edge_attr] in C2', Hch. rewrite C2' in Hch.
      destruct (hidden_dims (self w)); [congruence|discriminate]. }
    now rewrite Hout.
Qed.

(** X12.  What no sequence of [forward] calls undoes, whether the calls
    return or raise: the configuration of the instance (operator kind,
    hidden widths, output width, dropout probability, output granularity,
    GCN edge mode and GINE policy) stays as it is, and neither notice flag,
    nor [_built], is ever reset. *)
Theorem forward_never_undoes (datas : list Batch.t) (w : World) :
  let w' := forward_all datas w in
  same_config (self w) (self w') /\
  (_warned_edge_v_ignored (self w) = true ->
   _warned_edge_v_ignored (self w') = true) /\
  (_warned_edge_ignored (self w) = true ->
   _warned_edge_ignored (self w') = true) /\
  (_built (self w) = true -> _built (self w') = true).
Proof.
  intros w'.
  destruct (evolves_forward_all datas w) as [Hc _ _ Hv _ He _ Hb _].
  split; [exact Hc|]. split; [exact Hv|]. split; [exact He|].
  intros B. destruct (Hb eq_refl B) as ((Hbb & _) & _).
  unfold w'. congruence.
Qed.

End Outcome.

Section OutputShape.
Context {L : TorchLib} {LS : TorchLibShapes L}.

(** The output of a call that gets through input adaptation. *)
Lemma forward_returns_shape (w : World) (data : Batch.t) (F : nat)
    (rows : list (list Q)) :
  recognized (conv_type (self w)) = true ->
  gine_missing (self w) data = false ->
  Batch.x data = Mat F rows ->
  stack_ok F (self w) ->
  hidden_dims (self w) <> [] ->
  exists out,
    snd (forward data w) = Ok out /\
    shape out = if residue_logits (self w)
                then [List.length rows; out_dim (self w)]
                else [num_graphs (batch_of data); out_dim (self w)].
Proof.
  intros Hct Hgm Hx Hok Hh.
  assert (Hd : dim (Batch.x data) <> 0) by (rewrite Hx; discriminate).
  assert (HF : size_last (Batch.x data) = Ok F) by (rewrite Hx; reflexivity).
  pose proof (adapted_inputs_ok _ _ Hgm Hd) as Hin.
  destruct (forward_closed w data _ F Hct Hin HF Hok)
    as (lin & Hr & Hb & Hokb & (_ & C2 & C3 & _ & C5 & _) & E).
  destruct (Hokb Hb) as (layers & lin0 & Hc & Hr0 & Hch & _ & Hi & Ho).
  rewrite Hr in Hr0. injection Hr0 as <-.
  rewrite E. cbn [snd]. unfold layers_of. rewrite Hc.
  match goal with
  | |- context [compose_value ?s layers lin ?inp] =>
      destruct (compose_value_shape s layers lin inp F (List.length rows))
        as (out & Hout & Hsh)
  end; try assumption.
  - congruence.
  - simpl. now rewrite Hx.
  - exists out. split; [exact Hout|].
    rewrite Hsh, C3, C5. reflexivity.
Qed.

(** X13.  For every recognised kind - GCN and GINE included - a call that
    is not stopped by the GINE check, on node features of shape [[N, F]],
    on an instance with at least one hidden width that is unbuilt or built
    for width [F], with an edge attribute that fits the GINE layers,
    returns a tensor of shape [[N, out_dim]] at node level
    and [[B, out_dim]] at graph level, [B] being the number of graphs of the
    batch's assignment vector, or of the all-zero vector of length [N] when
    the batch has none. *)
Theorem forward_output_shape (w : World) (data : Batch.t) (F : nat)
    (rows : list (list Q)) :
  recognized (conv_type (self w)) = true ->
  gine_missing (self w) data = false ->
  Batch.x data = Mat F rows ->
  stack_ok F (self w) ->
  hidden_dims (self w) <> [] ->
  gine_edge_attr_fits (self w) data ->
  (exists out,
     snd (forward data w) = Ok out /\
     shape out = if residue_logits (self w)
                 then [List.length rows; out_dim (self w)]
                 else [num_graphs (batch_of data); out_dim (self w)]) /\
  (Batch.batch data = None ->
   batch_of data = repeat 0 (List.length rows)).
Proof.
  intros Hct Hgm Hx Hok Hh _.
  split; [now apply (forward_returns_shape w data F rows)|].
  intros Hb. unfold batch_of. now rewrite Hb, Hx.
Qed.

(* ------------------------------------------------------------------ *)
(** ** From construction to the first batch *)

Lemma chained_ins (dims : list nat) (prev : nat) (layers : list ConvLayer) :
  chained prev dims layers -> map conv_in layers = removelast (prev :: dims).
Proof.
  revert prev layers.
  induction dims as [|d dims IH]; intros prev [|l ls]; simpl; try tauto.
  intros (Hi & _ & H). f_equal; [exact Hi|].
  apply IH in H. exact H.
Qed.

(** What a successful construction leaves in the instance. *)
Lemma init_ok_fields (ct : string) (hd : option (list nat)) (od : nat)
    (dp : Q) (rl : bool) (gm pol : string) (kw : kwargs)
    (ns : list Notice) (s : GNNBackbone) :
  __init__ ct hd od dp rl gm pol kw = (ns, Ok s) ->
  conv_type s = lower ct /\ out_dim s = od /\ residue_logits s = rl /\
  dropout_p s = dp /\ gcn_edge_mode s = gm /\
  gine_missing_edge_policy s = pol /\ _built s = false /\
  _warned_edge_ignored s = false /\ _warned_edge_v_ignored s = false /\
  (forall h, hd = Some h -> hidden_dims s = h /\ ns = []) /\
  (hd = None ->
   kw_get "dims" kw = Some (Some (hidden_dims s)) /\ ns = [DimsDeprecated]).
Proof.
  unfold __init__, resolve_hidden_dims.
  destruct hd as [h|].
  - intros H. inversion H; subst. cbn.
    do 9 (split; [reflexivity|]).
    split; [|discriminate].
    intros h' E. inversion E. split; reflexivity.
  - destruct (kw_get "dims" kw) as [[h|]|] eqn:Ek; intros H; inversion H; subst.
    cbn. do 9 (split; [reflexivity|]).
    split; [discriminate|]. intros _. split; reflexivity.
Qed.

(** X14.  From construction to the first batch.  An instance constructed
    with an operator kind that is one of the six names in any letter case,
    and with at least one hidden width, serves a first batch with node
    features of shape [[N, F]] (not stopped by the GINE check, the edge
    attribute fitting the GINE layers): the call returns a tensor of shape
    [[N, out_dim]] or [[B, out_dim]] as the constructor's [residue_logits]
    says, and leaves the instance built with one layer per hidden width,
    the first taking width [F], each next one the width its predecessor
    gives, every one of the class the kind names, and a readout from the
    sum of the hidden widths to [out_dim].  An explicit [hidden_dims] is
    the one used, without a warning. *)
Theorem construct_then_forward (ct : string) (hd : option (list nat))
    (od : nat) (dp : Q) (rl : bool) (gm pol : string) (kw : kwargs)
    (ns : list Notice) (s : GNNBackbone) (data : Batch.t) (F : nat)
    (rows : list (list Q)) :
  __init__ ct hd od dp rl gm pol kw = (ns, Ok s) ->
  recognized (lower ct) = true ->
  hidden_dims s <> [] ->
  Batch.x data = Mat F rows ->
  gine_missing s data = false ->
  gine_edge_attr_fits s data ->
  let r := forward data (new_world ns s) in
  (exists out,
     snd r = Ok out /\
     shape out = if rl then [List.length rows; od]
                 else [num_graphs (batch_of data); od]) /\
  _built (self (fst r)) = true /\
  map conv_in (layers_of (self (fst r))) = removelast (F :: hidden_dims s) /\
  map conv_out (layers_of (self (fst r))) = hidden_dims s /\
  Forall (fun l => layer_spec (lower ct) (_edge_dim (self (fst r)))
                   = Some (conv_class l, conv_edge_dim l))
    (layers_of (self (fst r))) /\
  (exists lin,
     readout (self (fst r)) = Some lin /\
     in_features lin = list_sum (hidden_dims s) /\
     out_features lin = od) /\
  (forall h, hd = Some h -> hidden_dims s = h /\ ns = []).
Proof.
  intros Hinit Hrec Hh Hx Hgm _ r.
  destruct (init_ok_fields _ _ _ _ _ _ _ _ _ _ Hinit)
    as (Hct & Hod & Hrl & _ & _ & _ & Hb0 & _ & _ & Hhd & _).
  set (w := new_world ns s) in *.
  assert (Hs : self w = s) by reflexivity.
  assert (Hok : stack_ok F (self w))
    by (intros Hb; rewrite Hs in Hb; congruence).
  assert (Hd : dim (Batch.x data) <> 0) by (rewrite Hx; discriminate).
  assert (HF : size_last (Batch.x data) = Ok F) by (rewrite Hx; reflexivity).
  assert (Hrec' : recognized (conv_type (self w)) = true)
    by (rewrite Hs, Hct; exact Hrec).
  assert (Hgm' : gine_missing (self w) data = false) by (rewrite Hs; exact Hgm).
  assert (Hh' : hidden_dims (self w) <> []) by (rewrite Hs; exact Hh).
  split.
  { destruct (forward_returns_shape w data F rows Hrec' Hgm' Hx Hok Hh')
      as (out & Hout & Hsh).
    exists out. split; [exact Hout|]. rewrite Hsh, Hs, Hrl, Hod. reflexivity. }
  pose proof (adapted_inputs_ok _ _ Hgm' Hd) as Hin.
  destruct (forward_closed w data _ F Hrec' Hin HF Hok)
    as (lin & Hr & Hb & Hokb & (C1 & C2 & C3 & _) & E).
  destruct (Hokb Hb) as (layers & lin0 & Hc & Hr0 & Hch & Hall & Hi & Ho).
  unfold r. rewrite E. cbn [fst self].
  unfold layers_of. rewrite Hc.
  rewrite C2, Hs in Hch. rewrite C2, Hs in Hi. rewrite C3, Hs, Hod in Ho.
  rewrite C1, Hs, Hct in Hall.
  split; [exact Hb|].
  split; [now apply chained_ins|].
  split; [eapply chained_outs; eassumption|].
  split; [exact Hall|].
  split; [exists lin0; auto | exact Hhd].
Qed.

End OutputShape.

(* ------------------------------------------------------------------ *)
(** ** The further properties at work *)

Lemma fresh_stack_ok (F : nat) (s : GNNBackbone) :
  _built s = false -> stack_ok F s.
Proof. intros Hb H. congruence. Qed.

Lemma forward_invokes_stack_in_order_witness :
  let w := new_world [] (sample_instance "gine" "error") in
  let w' := fst (@forward ZerosLib batch_with_attr w) in
  exists pre calls layers,
    log w' = log w ++ pre ++ calls /\
    Forall (fun e => is_conv_call e = false) pre /\
    convs (self w') = Some layers /\
    List.length layers = 2 /\
    map call_layer calls = map Some layers /\
    Forall (fun e => call_edge_index e = Some sample_edges) calls /\
    match calls with
    | e :: _ => call_h e = Some sample_x
    | [] => layers = []
    end.
Proof.
  intros w.
  apply (@forward_invokes_stack_in_order ZerosLib w batch_with_attr 3
           [[1; 0; 2]; [0; 1; 1]]%Q);
    [reflexivity | reflexivity | reflexivity | now apply fresh_stack_ok
    | intros _; split; [reflexivity | intros H; discriminate H]].
Defined.

Lemma gcn_explicit_weight_used_witness :
  let w := new_world [] (sample_instance "gcn" "error") in
  let w' := fst (@forward ZerosLib batch_with_weight w) in
  (exists pre calls,
     log w' = log w ++ pre ++ calls /\
     Forall (fun e => is_conv_call e = false) pre /\
     List.length calls = 2 /\
     Forall (fun e => call_arg e = Some (EdgeWeightArg (Some (Vec [1; 2]%Q))))
       calls) /\
  count_events is_edge_ignored_notice (log w')
  = count_events is_edge_ignored_notice (log w) /\
  _warned_edge_ignored (self w') = _warned_edge_ignored (self w).
Proof.
  intros w.
  apply (@gcn_explicit_weight_used ZerosLib w batch_with_weight (Vec [1; 2]%Q) 3
           [[1; 0; 2]; [0; 1; 1]]%Q);
    [reflexivity | reflexivity | reflexivity | now apply fresh_stack_ok].
Defined.

Lemma gcn_derived_weight_used_witness :
  let w := new_world [] (sample_instance "gcn" "error") in
  let w' := fst (@forward ZerosLib batch_with_wide_attr w) in
  exists pre calls t,
    _edge_weight_from_attr (Mat 2 [[1; 3]; [0; 1]]%Q) "auto" = Ok t /\
    log w' = log w ++ pre ++ calls /\
    List.length calls = 2 /\
    Forall (fun e => call_arg e = Some (EdgeWeightArg (Some t))) calls.
Proof.
  intros w w'.
  destruct (proj1 (@gcn_derived_weight_used ZerosLib w batch_with_wide_attr 3
                     [[1; 0; 2]; [0; 1; 1]]%Q eq_refl eq_refl eq_refl
                     ltac:(apply fresh_stack_ok; reflexivity))
              (Mat 2 [[1; 3]; [0; 1]]%Q) _ eq_refl eq_refl)
    as ((pre & calls & Hl & _ & Hn & Ha) & _).
  exists pre, calls. eexists. split; [reflexivity|].
  split; [exact Hl|]. split; [exact Hn | exact Ha].
Defined.


Lemma gine_edge_dim_inferred_witness :
  let w := new_world [] (sample_instance "gine" "error") in
  let w' := fst (@forward ZerosLib batch_with_wide_attr w) in
  _built (self w') = true /\
  _edge_dim (self w') = Some 2 /\
  List.length (layers_of (self w')) = 2 /\
  Forall (fun l => conv_class l = GINEConv /\ conv_edge_dim l = Some 2)
    (layers_of (self w')).
Proof.
  intros w.
  apply (@gine_edge_dim_inferred ZerosLib w batch_with_wide_attr 3
           [[1; 0; 2]; [0; 1; 1]]%Q);
    reflexivity.
Defined.

Lemma forward_output_shape_witness :
  let w := new_world [] (sample_instance "gine" "zeros") in
  exists out,
    snd (@forward ZerosLib batch_without_attr w) = Ok out /\
    shape out = [1; 2].
Proof.
  intros w.
  apply (proj1 (@forward_output_shape ZerosLib ZerosLib_shapes w
                  batch_without_attr 3 [[1; 0; 2]; [0; 1; 1]]%Q
                  eq_refl eq_refl eq_refl ltac:(apply fresh_stack_ok; reflexivity)
                  ltac:(discriminate)
                  ltac:(intros _ H; discriminate H))).
Defined.

Lemma forward_outcome_witness :
  snd (@forward ZerosLib batch_without_attr
         (new_world [] (sample_instance "gine" "error")))
  = Raise (ValueError "GINE needs edge_attr, or gine_missing_edge_policy='zeros'") /\
  snd (@forward ZerosLib batch_with_attr
         (new_world [] (instance_without_layers "sage")))
  = Raise (RuntimeError "torch.cat(): expected a non-empty list of Tensors") /\
  snd (@forward ZerosLib batch_with_attr
         (new_world [] (sample_instance "transformer" "error")))
  = Raise (ValueError "Unsupported conv_type: transformer") /\
  is_ok (snd (@forward ZerosLib batch_with_attr
                (new_world [] (sample_instance "gin" "error")))) = true.
Proof.
  split; [|split; [|split]].
  - apply (proj1 (@forward_outcome ZerosLib
                    (new_world [] (sample_instance "gine" "error"))
                    batch_without_attr 3 [[1; 0; 2]; [0; 1; 1]]%Q eq_refl
                    ltac:(apply fresh_stack_ok; reflexivity))).
    reflexivity.
  - apply (proj1 (proj2 (@forward_outcome ZerosLib
                    (new_world [] (instance_without_layers "sage"))
                    batch_with_attr 3 [[1; 0; 2]; [0; 1; 1]]%Q eq_refl
                    ltac:(apply fresh_stack_ok; reflexivity)))); reflexivity.
  - apply (proj1 (proj2 (proj2 (@forward_outcome ZerosLib
                    (new_world [] (sample_instance "transformer" "error"))
                    batch_with_attr 3 [[1; 0; 2]; [0; 1; 1]]%Q eq_refl
                    ltac:(apply fresh_stack_ok; reflexivity)))));
      [reflexivity | discriminate | reflexivity | reflexivity].
  - apply (proj2 (proj2 (proj2 (@forward_outcome ZerosLib
                    (new_world [] (sample_instance "gin" "error"))
                    batch_with_attr 3 [[1; 0; 2]; [0; 1; 1]]%Q eq_refl
                    ltac:(apply fresh_stack_ok; reflexivity)))));
      [reflexivity | discriminate | intros H; discriminate H
      | right; reflexivity].
Defined.

Lemma construct_then_forward_witness :
  let s := sample_instance "gatv2" "error" in
  let r := @forward ZerosLib batch_with_attr (new_world [] s) in
  (exists out, snd r = Ok out /\ shape out = [1; 2]) /\
  _built (self (fst r)) = true /\
  map conv_in (layers_of (self (fst r))) = [3; 4] /\
  map conv_out (layers_of (self (fst r))) = [4; 5] /\
  Forall (fun l => layer_spec "gatv2" (_edge_dim (self (fst r)))
                   = Some (conv_class l, conv_edge_dim l))
    (layers_of (self (fst r))) /\
  (exists lin,
     readout (self (fst r)) = Some lin /\
     in_features lin = 9 /\ out_features lin = 2) /\
  (forall h, Some [4; 5] = Some h -> [4; 5] = h /\ @nil Notice = []).
Proof.
  intros s.
  apply (@construct_then_forward ZerosLib ZerosLib_shapes
           "GATv2" (Some [4; 5]) 2 (3 # 10)%Q false "auto" "error" []
           [] s batch_with_attr 3 [[1; 0; 2]; [0; 1; 1]]%Q);
    [reflexivity | reflexivity | discriminate | reflexivity | reflexivity
    | intros H; discriminate H].
Defined.

Lemma forward_never_undoes_witness :
  let w0 := fst (@forward ZerosLib
                   (sample_batch (Some (Vec [1; 2]%Q)) (Some (Vec [1; 2]%Q)))
                   (new_world [] (sample_instance "gat" "error"))) in
  let w' := @forward_all ZerosLib [batch_with_attr; batch_without_attr] w0 in
  _warned_edge_v_ignored (self w') = true /\
  _warned_edge_ignored (self w') = true /\
  _built (self w') = true.
Proof.
  intros w0 w'.
  pose proof (@forward_never_undoes ZerosLib
                [batch_with_attr; batch_without_attr] w0) as H.
  cbv zeta in H. destruct H as (_ & Hv & He & Hb).
  split; [apply Hv; reflexivity|].
  split; [apply He; reflexivity | apply Hb; reflexivity].
Defined.
